(** * The COVID-19 dashboard script (App.py): loader and filter-and-aggregate
    engine, embedded as Rocq functions, with the properties of its
    specification.

    The script is a Streamlit page: it loads two CSV files into pandas frames,
    cleans the snapshot frame, filters the time-series frame by the sidebar
    selection and derives grouped aggregates that are handed to plotly.
    pandas frames are modelled by their contents (columns with a dtype for the
    loader, whose code is about dtypes; records for the time-series rows,
    whose columns are fixed), Python exceptions by an error type, the script's
    top-level variables by an explicit environment that each statement
    transforms. A second reading of the engine keeps the frames as objects
    in a store, with the names bound to references, for what the
    specification says about copies and mutation. *)

From Stdlib Require Import ZArith QArith Floats.
From stdpp Require Import base numbers list sorting strings gmap fin_maps.

Local Open Scope Z_scope.

(** ** Python exceptions *)

Module Py.

(** The exceptions that the modelled statements can raise. *)
Inductive exn : Type :=
| KeyError (labels : list string)   (* a missing column or index label *)
| IndexError                        (* tuple or list index out of range *)
| TypeError                         (* pandas: cannot safely cast *)
| OverflowError                     (* int() of an infinite or too large float *)
| AttributeError                    (* a method that the object does not have *)
| NameError (name : string).        (* a variable read before assignment *)

Inductive result (A : Type) : Type :=
| Ok (a : A)
| Raise (e : exn).
Arguments Ok {A} a.
Arguments Raise {A} e.

Definition bind {A B} (r : result A) (k : A → result B) : result B :=
  match r with
  | Ok a => k a
  | Raise e => Raise e
  end.

Global Instance result_bind : MBind result := λ A B k r, bind r k.

(** [t[i]] on a tuple or list, for a non-negative literal index. *)
Definition getitem {A} (t : list A) (i : nat) : result A :=
  match t !! i with
  | Some x => Ok x
  | None => Raise IndexError
  end.

(** [t[-1]], [frame.iloc[-1]]. *)
Definition getitem_last {A} (t : list A) : result A :=
  match last t with
  | Some x => Ok x
  | None => Raise IndexError
  end.

(** *** int64

    The integer columns are int64 columns: their cells lie between
    [int64_min] and [int64_max], and a sum that leaves this range wraps
    around, as the machine addition does. *)
Definition int64_min : Z := - 2 ^ 63.
Definition int64_max : Z := 2 ^ 63 - 1.

Definition wrap64 (z : Z) : Z := (z + 2 ^ 63) `mod` 2 ^ 64 - 2 ^ 63.

(** [a + b] on int64. *)
Definition add64 (a b : Z) : Z := wrap64 (a + b).

End Py.
Export Py.

(** ** The loader of the snapshot table (App.py, lines 91-107) *)

Module Loader.

(** The dtypes that [read_csv] gives a column, and the nullable integer
    dtype that the loader converts to. *)
Inductive dtype : Type := float64 | int64 | Int64 | object.

Global Instance dtype_eq_dec : EqDecision dtype.
Proof. solve_decision. Defined.

(** A cell. [NA] is a missing value: NaN in a float64 or object column,
    <NA> in an Int64 column. A finite float is given by the rational number
    that it is. *)
Inductive value : Type :=
| NA
| Flt (q : Q)
| Inf (negative : bool)
| Int (z : Z)
| Str (s : string).

Record Series : Type := mkSeries {
  dtype_of : dtype;
  values : list value
}.

(** A frame: its columns, in order, by name. *)
Definition DataFrame : Type := list (string * Series).

Fixpoint get_col (df : DataFrame) (col : string) : option Series :=
  match df with
  | [] => None
  | (name, s) :: df' => if decide (name = col) then Some s else get_col df' col
  end.

(** [df[col]]. *)
Definition getitem_col (df : DataFrame) (col : string) : result Series :=
  match get_col df col with
  | Some s => Ok s
  | None => Raise (KeyError [col])
  end.

(** [df[col] = s]: the column is replaced where it stands, or added as the
    last one. *)
Fixpoint set_col (df : DataFrame) (col : string) (s : Series) : DataFrame :=
  match df with
  | [] => [(col, s)]
  | (name, s0) :: df' =>
      if decide (name = col) then (name, s) :: df'
      else (name, s0) :: set_col df' col s
  end.

(** [df.select_dtypes(include=[dt]).columns]. *)
Definition select_dtypes (dt : dtype) (df : DataFrame) : list string :=
  (filter (λ c, dtype_of c.2 = dt) df).*1.

(** [index.drop(labels)]: every label has to be in the index (errors='raise'
    is the default); the error names the labels that are not. *)
Definition Index_drop (index labels : list string) : result (list string) :=
  match filter (λ l, l ∉ index) labels with
  | [] => Ok (filter (λ c, c ∉ labels) index)
  | missing => Raise (KeyError missing)
  end.

(** The cast of one cell to Int64. pandas casts the floats to int64 and
    refuses ("cannot safely cast non-equivalent float64 to int64") when the
    cast changes a value: a float converts when it is a whole number in the
    range of int64; a missing value stays missing. *)
Definition to_Int64 (v : value) : option value :=
  match v with
  | NA => Some NA
  | Int z => Some (Int z)
  | Flt q =>
      let z := Qnum q `quot` Z.pos (Qden q) in
      if (Qnum q `rem` Z.pos (Qden q) =? 0) && (int64_min <=? z) && (z <=? int64_max)
      then Some (Int z)
      else None
  | Inf _ => None
  | Str _ => None
  end.

Definition isna (v : value) : bool :=
  match v with
  | NA => true
  | _ => false
  end.

(** [a <= b] on the cells of a float64 column. *)
Definition float_le (a b : value) : bool :=
  match a, b with
  | Inf true, _ => true
  | _, Inf false => true
  | Flt p, Flt q => Qle_bool p q
  | _, _ => false
  end.

(** [values[np.nanargmax(values)]]: the largest cell that is not NaN, if
    there is one. *)
Fixpoint nanmax (vs : list value) : option value :=
  match vs with
  | [] => None
  | v :: vs' =>
      if isna v then nanmax vs'
      else match nanmax vs' with
           | Some m => Some (if float_le m v then v else m)
           | None => Some v
           end
  end.

(** A cell that [int] cannot turn into an int64. *)
Definition too_large (v : value) : bool :=
  match v with
  | Inf _ => true
  | Flt q =>
      let z := Qnum q `quot` Z.pos (Qden q) in
      negb ((int64_min <=? z) && (z <=? int64_max))
  | _ => false
  end.

(** The exception of a cast that fails. pandas first looks at the largest
    cell: [int] of it raises OverflowError when it is infinite. When it is a
    whole number the column is cast as an array of floats and compared with
    what it was, which gives the TypeError above. When it is not, the
    column is cast cell by cell, with [int], which raises OverflowError on
    an infinite or too large cell, before the same comparison. *)
Definition cast_error (vs : list value) : exn :=
  match nanmax vs with
  | Some (Inf _) => OverflowError
  | Some (Flt q) =>
      if Qnum q `rem` Z.pos (Qden q) =? 0 then TypeError
      else if existsb too_large vs then OverflowError
      else TypeError
  | _ => TypeError
  end.

(** [s.astype('Int64')]. *)
Definition astype_Int64 (s : Series) : result Series :=
  match mapM to_Int64 (values s) with
  | Some vs => Ok (mkSeries Int64 vs)
  | None => Raise (cast_error (values s))
  end.

(** A line printed by the [except] branch,
    [f"Could not convert column '{col}'. Error: {e}"], by the two values
    that it interpolates. *)
Definition printed : Type := string * exn.

(** Lines 97-100, one iteration: the frame and the lines printed so far. *)
Definition convert_column (st : DataFrame * list printed) (col : string) :
    DataFrame * list printed :=
  match (s ← getitem_col st.1 col; astype_Int64 s) with
  | Ok s' => (set_col st.1 col s', st.2)
  | Raise e => (st.1, st.2 ++ [(col, e)])
  end.

(** The rows of one column that a boolean mask selects. *)
Fixpoint select (mask : list bool) (vs : list value) : list value :=
  match mask, vs with
  | b :: mask', v :: vs' =>
      if b then v :: select mask' vs' else select mask' vs'
  | _, _ => []
  end.

(** [df[mask]]: a new frame with the selected rows. *)
Definition getitem_mask (mask : list bool) (df : DataFrame) : DataFrame :=
  (λ c, (c.1, mkSeries (dtype_of c.2) (select mask (values c.2)))) <$> df.

(** [cell != label]; a cell that is not a string differs from the label. *)
Definition ne (label : string) (v : value) : bool :=
  match v with
  | Str s => negb (bool_decide (s = label))
  | _ => true
  end.

(** What is modelled of pandas in lines 101-104 is what these lines do to
    columns of text, which the country and WHO region columns of the file
    are. On a column that the loop has cast to Int64, [!=] gives a mask
    with missing entries and an assignment of text is refused or parsed;
    these are left out: the outcome of a step is [None] where the model
    does not say what pandas does. *)

(** [s != label], as a mask to select rows with. *)
Definition ne_mask (label : string) (s : Series) : option (list bool) :=
  if decide (dtype_of s = Int64) then None else Some (ne label <$> values s).

(** The cells of [old] with those of [new] where the mask is set. *)
Fixpoint where_mask (mask : list bool) (new old : list value) : list value :=
  match mask, new, old with
  | b :: mask', n :: new', o :: old' =>
      (if b then n else o) :: where_mask mask' new' old'
  | _, _, _ => old
  end.

(** [df.loc[mask, col] = df.loc[mask, src]] for a column [col] of dtype
    object, which holds any value: the right-hand side keeps the row
    labels, so that each masked row of [col] receives the cell of [src] of
    the same row. *)
Definition loc_setitem (df : DataFrame) (mask : list bool) (col : string)
    (src : Series) : option DataFrame :=
  match get_col df col with
  | Some s =>
      if decide (dtype_of s = object)
      then Some (set_col df col
                   (mkSeries object (where_mask mask (values src) (values s))))
      else None
  | None => None
  end.

(** [df.fillna(0, inplace=True)], as the frame that [df] is afterwards;
    the call itself returns [None]. *)
Definition fillna_0 (df : DataFrame) : DataFrame :=
  (λ c, (c.1,
         mkSeries (dtype_of c.2)
           ((λ v, if isna v
                  then match dtype_of c.2 with float64 => Flt 0 | _ => Int 0 end
                  else v) <$> values c.2))) <$> df.

Definition per_million : list string :=
  ["Tests/1M pop"; "Deaths/1M pop"; "Tot Cases/1M pop"].

(** Lines 101-104: the frame that the name [world_data] is bound to, up to
    the moment when line 104 rebinds the name to the [None] that
    [fillna(..., inplace=True)] returns. It is a copy of the selected rows
    of [df]: nothing that is done to it reaches [df]. *)
Definition cleaned (df : DataFrame) : option (result DataFrame) :=
  match getitem_col df "Country/Region" with
  | Raise e => Some (Raise e)
  | Ok country =>
      mask ← ne_mask "Diamond Princess" country;
      let world_data := getitem_mask mask df in
      match getitem_col world_data "WHO Region" with
      | Raise e => Some (Raise e)
      | Ok who =>
          let mask := isna <$> values who in
          match getitem_col world_data "Continent" with
          | Raise e => Some (Raise e)
          | Ok continent =>
              world_data ← loc_setitem world_data mask "WHO Region" continent;
              Some (Ok (fillna_0 world_data))
          end
      end
  end.

(** [load_world_data], applied to the frame that [read_csv] returns: the
    frame returned, and the lines printed. Line 105 returns [df]. *)
Definition load_world_data (csv : DataFrame) :
    option (result (DataFrame * list printed)) :=
  let df := csv in
  let float_cols := select_dtypes float64 df in
  match Index_drop float_cols per_million with
  | Raise e => Some (Raise e)
  | Ok float_cols =>
      let st := foldl convert_column (df, []) float_cols in
      r ← cleaned st.1;
      Some (_ ← r; Ok (st.1, st.2))
  end.

(** The cells of a column, for reading a frame. *)
Definition cells (df : DataFrame) (col : string) : list value :=
  match get_col df col with
  | Some s => values s
  | None => []
  end.

(** What the loop of lines 96-100 prints for a column of [df], if
    anything. *)
Definition failure_of (df : DataFrame) (col : string) : option printed :=
  match (s ← getitem_col df col; astype_Int64 s) with
  | Ok _ => None
  | Raise e => Some (col, e)
  end.

(** *** Notions of the specification *)

(** A float cell and the cell of the integer that it is: a missing value
    stays missing, a float that is a whole number within int64 becomes
    that number. No other cell converts. *)
Inductive converts : value → value → Prop :=
| converts_NA : converts NA NA
| converts_whole (q : Q) (z : Z) :
    (q == inject_Z z)%Q → int64_min ≤ z ≤ int64_max →
    converts (Flt q) (Int z).

(** A column of counts: every cell converts. *)
Definition convertible (s : Series) : Prop :=
  Forall (λ v, ∃ v', converts v v') (values s).

(** The cells of a float64 column: floats, infinite or not, and NaN. *)
Definition float_cell (v : value) : Prop :=
  match v with
  | NA | Flt _ | Inf _ => True
  | Int _ | Str _ => False
  end.

(** The country and WHO region columns are columns of text, where they
    exist. *)
Definition text_columns (csv : DataFrame) : Prop :=
  ∀ col s, col ∈ ["Country/Region"; "WHO Region"] →
    get_col csv col = Some s → dtype_of s = object.

(** A frame read from worldometer_data.csv, by the columns that the
    loader names: column names are unique (as [read_csv] makes them), the
    float64 columns hold floats, the three per-million columns are float64
    columns, and the country, WHO region and continent columns exist, the
    first two as columns of text. *)
Definition snapshot_schema (csv : DataFrame) : Prop :=
  NoDup csv.*1 ∧
  (∀ col s v, get_col csv col = Some s → dtype_of s = float64 →
     v ∈ values s → float_cell v) ∧
  (∀ col, col ∈ per_million →
     ∃ s, get_col csv col = Some s ∧ dtype_of s = float64) ∧
  (∀ col, col ∈ ["Country/Region"; "WHO Region"; "Continent"] → col ∈ csv.*1) ∧
  text_columns csv.

End Loader.

(** ** The filter-and-aggregate engine (App.py, lines 246-418) *)

Module Engine.

(** One record of full_grouped.csv after [load_data]. The key columns may
    be missing in a CSV line (the script itself calls [dropna] on them):
    [None] is NaN, and NaT for the date. [Date] is the datetime64 value, in
    nanoseconds since the epoch. The count columns are int64 columns
    without missing values, as in the file. *)
Record row : Type := Row {
  Date : option Z;
  Country_Region : option string;
  Confirmed : Z;
  Deaths : Z;
  Recovered : Z;
  Active : Z;
  WHO_Region : option string
}.

Abbreviation table := (list row).

Global Instance row_eq_dec : EqDecision row.
Proof. solve_decision. Defined.

(** What the three sidebar widgets return: two multiselects and the
    [date_input], whose value is a tuple of calendar dates (days since
    1970-01-01) with as many elements as the user has picked so far. *)
Record selection : Type := Selection {
  selected_region : list string;
  selected_country : list string;
  date_range : list Z
}.

(** [pd.Timestamp(d)] for a [datetime.date]: midnight of that day. *)
Definition Timestamp (d : Z) : Z := d * 86400000000000.

(** The calendar date (days since 1970-01-01) of a timestamp, which is
    what [date_input] keeps of it. *)
Definition to_date (t : Z) : Z := t `div` 86400000000000.

(** [Series.isin(values)] on one cell; NaN is in no list of strings. *)
Definition isin (cell : option string) (values : list string) : bool :=
  match cell with
  | Some s => bool_decide (s ∈ values)
  | None => false
  end.

(** [Series.between(left, right)] on one cell (inclusive="both" is the
    default); NaT compares false. *)
Definition between (cell : option Z) (left right : Z) : bool :=
  match cell with
  | Some t => (left <=? t) && (t <=? right)
  | None => false
  end.

(** [frame[mask]]: the rows whose mask entry is true, in order, as a new
    frame. *)
Definition getitem_mask (mask : row → bool) (t : table) : table :=
  filter (λ r, mask r) t.

(** Line 387: [frame[frame['Country/Region'] == country]]. *)
Definition subset_of (t : table) (country : string) : table :=
  getitem_mask (λ r, bool_decide (Country_Region r = Some country)) t.

(** [frame.empty]. *)
Definition empty (t : table) : bool :=
  match t with
  | [] => true
  | _ :: _ => false
  end.

(** *** groupby

    [frame.groupby(key)[cols].agg(op)]: one pass over the rows that keeps,
    per key, the running aggregate; rows whose key is missing are dropped
    (dropna=True). The result is indexed by the keys in ascending order
    (sort=True), which [sort_index] produces. *)
Section GroupBy.
Context {K V : Type} `{Countable K}.
Variables (key : row → option K) (val : row → V) (op : V → V → V).

Definition agg_step (m : gmap K V) (r : row) : gmap K V :=
  match key r with
  | Some k =>
      <[k := match m !! k with
             | Some a => op a (val r)
             | None => val r
             end]> m
  | None => m
  end.

Definition groupby_agg (t : table) : gmap K V := foldl agg_step ∅ t.

End GroupBy.

(** The order of the index entries: by key. *)
Definition by_key {K V : Type} (le : relation K) : relation (K * V) :=
  λ a b, le a.1 b.1.

Global Instance by_key_dec {K V : Type} (le : relation K) `{!RelDecision le} :
  RelDecision (by_key (V:=V) le) := λ a b, decide_rel le a.1 b.1.

Definition sort_index {K V : Type} `{Countable K} (le : relation K)
    `{!RelDecision le} (m : gmap K V) : list (K * V) :=
  merge_sort (by_key le) (map_to_list m).

(** A row of [global_data]: Date, Confirmed, Deaths, Recovered. *)
Record global_row : Type := GlobalRow {
  gDate : Z;
  gConfirmed : Z;
  gDeaths : Z;
  gRecovered : Z
}.

(** The sum of three int64 columns, row by row. *)
Definition add3 (a b : Z * Z * Z) : Z * Z * Z :=
  (add64 a.1.1 b.1.1, add64 a.1.2 b.1.2, add64 a.2 b.2).

(** Lines 319-323:
    [filtered_data.groupby('Date')[['Confirmed','Deaths','Recovered']].sum().reset_index()]. *)
Definition global_data_of (filtered_data : table) : list global_row :=
  (λ kv, GlobalRow kv.1 kv.2.1.1 kv.2.1.2 kv.2.2)
    <$> sort_index Z.le
          (groupby_agg Date (λ r, (Confirmed r, Deaths r, Recovered r)) add3
             filtered_data).

(** A pie chart drawn in one of the five columns: its column, its title and
    its values, labelled Active, Recovered, Deaths. *)
Record pie : Type := Pie {
  pie_column : nat;
  pie_title : string;
  pie_values : list Z
}.

(** [cols = st.columns(5)]. *)
Definition cols : list nat := seq 0 5.

(** The script's variables. [data] is bound by [load_data] before the
    engine runs; the others are unbound ([None]) until their assignment.
    [charts] are the pie charts drawn so far. *)
Record env : Type := Env {
  data : table;
  start_date : option Z;
  end_date : option Z;
  filtered_data : option table;
  global_data : option (list global_row);
  region_deaths : option (list (string * float));
  top5 : option (list string);
  charts : list pie
}.

Definition fresh (d : table) : env := Env d None None None None None None [].

Definition set_start_date (v : Z) (σ : env) : env :=
  Env (data σ) (Some v) (end_date σ) (filtered_data σ) (global_data σ)
      (region_deaths σ) (top5 σ) (charts σ).
Definition set_end_date (v : Z) (σ : env) : env :=
  Env (data σ) (start_date σ) (Some v) (filtered_data σ) (global_data σ)
      (region_deaths σ) (top5 σ) (charts σ).
Definition set_filtered_data (v : table) (σ : env) : env :=
  Env (data σ) (start_date σ) (end_date σ) (Some v) (global_data σ)
      (region_deaths σ) (top5 σ) (charts σ).
Definition set_global_data (v : list global_row) (σ : env) : env :=
  Env (data σ) (start_date σ) (end_date σ) (filtered_data σ) (Some v)
      (region_deaths σ) (top5 σ) (charts σ).
Definition set_region_deaths (v : list (string * float)) (σ : env) : env :=
  Env (data σ) (start_date σ) (end_date σ) (filtered_data σ) (global_data σ)
      (Some v) (top5 σ) (charts σ).
Definition set_top5 (v : list string) (σ : env) : env :=
  Env (data σ) (start_date σ) (end_date σ) (filtered_data σ) (global_data σ)
      (region_deaths σ) (Some v) (charts σ).
Definition set_charts (v : list pie) (σ : env) : env :=
  Env (data σ) (start_date σ) (end_date σ) (filtered_data σ) (global_data σ)
      (region_deaths σ) (top5 σ) v.

(** [cols[i].plotly_chart(fig_pie)]. *)
Definition plotly_chart (p : pie) (σ : env) : env :=
  set_charts (charts σ ++ [p]) σ.

(** A statement transforms the environment and either completes ([None])
    or stops with an exception, leaving the environment as it was when the
    exception was raised. *)
Definition stmt : Type := env → env * option exn.

Definition skip : stmt := λ σ, (σ, None).

Definition seq_stmt (s1 s2 : stmt) : stmt := λ σ,
  match s1 σ with
  | (σ', None) => s2 σ'
  | (σ', Some e) => (σ', Some e)
  end.

(** [x = rhs]. *)
Definition assign {A} (rhs : env → result A) (set : A → env → env) : stmt :=
  λ σ, match rhs σ with
       | Ok a => (set a σ, None)
       | Raise e => (σ, Some e)
       end.

(** Reading a variable. *)
Definition var {A} (name : string) (get : env → option A) (σ : env) : result A :=
  match get σ with
  | Some a => Ok a
  | None => Raise (NameError name)
  end.

(** [for i, x in enumerate(l): body], counting from [i]. *)
Fixpoint for_enumerate (body : nat → string → stmt) (i : nat) (l : list string) : stmt :=
  match l with
  | [] => skip
  | x :: l' => seq_stmt (body i x) (for_enumerate body (S i) l')
  end.

Notation "s1 ;; s2" := (seq_stmt s1 s2)
  (at level 100, s2 at level 200, right associativity).

Section Script.

(** [frame.sort_values(col, ascending=False)]. pandas sorts with numpy's
    default kind, quicksort, which is not a stable sort: the rows come back
    in descending order of the column, and the order among rows with equal
    values is whatever the numpy build produces. The sort is therefore a
    parameter of the script; [before a b] says that the value of [a] is at
    least the value of [b]. What is known of it is stated where it is
    used, as hypotheses of the theorems. *)
Variable sort_values : ∀ A : Type, (A → A → bool) → list A → list A.

(** The mean of the cells of an int64 column that fall into one group, in
    the order of the rows. pandas computes it in float64: the cells are
    added as floats, with their rounding, and the sum is divided by the
    count. It is the quotient of the sum by the count up to that rounding,
    which depends on the cells and on their order. The function is a
    parameter of the script, of which nothing is assumed. *)
Variable mean : list Z → float.

(** Lines 347-352: the mean of Deaths per WHO region, highest first. *)
Definition region_deaths_of (filtered_data : table) : list (string * float) :=
  sort_values _ (λ a b, PrimFloat.leb b.2 a.2)
    ((λ kv, (kv.1, mean kv.2))
       <$> sort_index String.le
             (groupby_agg WHO_Region (λ r, [Deaths r]) app filtered_data)).

(** The frame of lines 378-380, before [head]: the maximum of Confirmed
    per country, highest first. *)
Definition ranking_of (filtered_data : table) : list (string * Z) :=
  sort_values _ (λ a b, bool_decide (b.2 ≤ a.2))
    (sort_index String.le
       (groupby_agg Country_Region Confirmed Z.max filtered_data)).

(** Lines 377-383: [.head(5).index.tolist()]. *)
Definition top5_of (filtered_data : table) : list string :=
  (take 5 (ranking_of filtered_data)).*1.

(** Lines 387-418, the body of the loop over [enumerate(top5)]. The
    columns Active, Recovered and Deaths exist in every row, so
    [last_row.get(col, 0)] is the row's value. *)
Definition loop_body (i : nat) (country : string) : stmt := λ σ,
  match var "filtered_data" filtered_data σ with
  | Raise e => (σ, Some e)
  | Ok fd =>
      let subset := subset_of fd country in
      if empty subset then skip σ
      else
        assign
          (λ _, last_row ← getitem_last subset;
                let values :=
                  [Active last_row; Recovered last_row; Deaths last_row] in
                col ← getitem cols i;
                Ok (Pie col (country +:+ " Case Distribution") values))
          plotly_chart σ
  end.

(** Lines 385-418: [for i, country in enumerate(top5): ...]. *)
Definition pie_loop : stmt := λ σ,
  match var "top5" top5 σ with
  | Ok l => for_enumerate loop_body 0 l σ
  | Raise e => (σ, Some e)
  end.

(** Lines 303-304. *)
Definition assign_start_date (sel : selection) : stmt :=
  assign (λ _, d ← getitem (date_range sel) 0; Ok (Timestamp d))
         set_start_date.

Definition assign_end_date (sel : selection) : stmt :=
  assign (λ _, d ← getitem (date_range sel) 1; Ok (Timestamp d))
         set_end_date.

(** Lines 306-309. *)
Definition assign_filtered_data (sel : selection) : stmt :=
  assign (λ σ, s ← var "start_date" start_date σ;
               e ← var "end_date" end_date σ;
               Ok (getitem_mask
                     (λ r, isin (WHO_Region r) (selected_region sel)
                           && between (Date r) s e)
                     (data σ)))
         set_filtered_data.

(** Lines 311-312: [if selected_country: ...]; an empty list is false. *)
Definition restrict_countries (sel : selection) : stmt :=
  match selected_country sel with
  | [] => skip
  | _ :: _ =>
      assign (λ σ, fd ← var "filtered_data" filtered_data σ;
                   Ok (getitem_mask
                         (λ r, isin (Country_Region r) (selected_country sel))
                         fd))
             set_filtered_data
  end.

(** Lines 319-323. *)
Definition assign_global_data : stmt :=
  assign (λ σ, fd ← var "filtered_data" filtered_data σ;
               Ok (global_data_of fd))
         set_global_data.

(** Lines 347-352. *)
Definition assign_region_deaths : stmt :=
  assign (λ σ, fd ← var "filtered_data" filtered_data σ;
               Ok (region_deaths_of fd))
         set_region_deaths.

(** Lines 377-383. *)
Definition assign_top5 : stmt :=
  assign (λ σ, fd ← var "filtered_data" filtered_data σ;
               Ok (top5_of fd))
         set_top5.

(** Lines 303-418. *)
Definition script (sel : selection) : stmt :=
  assign_start_date sel ;;
  assign_end_date sel ;;
  assign_filtered_data sel ;;
  restrict_countries sel ;;
  assign_global_data ;;
  assign_region_deaths ;;
  assign_top5 ;;
  pie_loop.

End Script.

(** *** What the statements compute *)

(** The aggregate of a non-empty list of values, from the left. *)
Definition fold1 {V : Type} (op : V → V → V) (l : list V) : option V :=
  match l with
  | [] => None
  | x :: xs => Some (foldl op x xs)
  end.

(** The rows that the two masks of lines 306-312 keep: region selected,
    timestamp between the midnights of the two dates, both included, and
    country selected when any is. *)
Definition selected (regions countries : list string) (s e : Z) (r : row) : Prop :=
  match WHO_Region r with Some g => g ∈ regions | None => False end ∧
  match Date r with
  | Some t => Timestamp s ≤ t ≤ Timestamp e
  | None => False
  end ∧
  (countries = [] ∨
   match Country_Region r with Some c => c ∈ countries | None => False end).

Global Instance selected_dec regions countries s e r :
  Decision (selected regions countries s e r).
Proof.
  unfold selected.
  destruct (WHO_Region r), (Date r), (Country_Region r); apply _.
Defined.

(** The pie that the loop draws for the country at position [i], if the
    country has rows. *)
Definition pie_of (t : table) (i : nat) (c : string) : option pie :=
  match last (subset_of t c) with
  | Some r =>
      Some (Pie i (c +:+ " Case Distribution") [Active r; Recovered r; Deaths r])
  | None => None
  end.

(** The pies of the countries of a list, the first at position [i]. *)
Fixpoint pies_from (t : table) (i : nat) (cs : list string) : list pie :=
  match cs with
  | [] => []
  | c :: cs' => option_list (pie_of t i c) ++ pies_from t (S i) cs'
  end.

(** *** Notions of the specification *)

(** The sum of a column over the rows of a table. *)
Definition sum_of (col : row → Z) (t : table) : Z := foldr Z.add 0 (col <$> t).

(** The counts of a column add up within int64, whatever their signs. *)
Definition fits (col : row → Z) (t : table) : Prop :=
  sum_of (λ r, Z.abs (col r)) t ≤ int64_max.

(** The counts of the three summed columns are int64 values. *)
Definition int64_counts (t : table) : Prop :=
  ∀ r, r ∈ t →
    int64_min ≤ Confirmed r ≤ int64_max ∧
    int64_min ≤ Deaths r ≤ int64_max ∧
    int64_min ≤ Recovered r ≤ int64_max.

(** The rows of a table with a given date. *)
Definition rows_on (t : table) (d : Z) : table :=
  filter (λ r, Date r = Some d) t.

(** The Date column holds calendar dates: every timestamp is the
    midnight of its day, as for a file whose dates have no time of day. *)
Definition dates_only (t : table) : Prop :=
  ∀ r ts, r ∈ t → Date r = Some ts → ts `mod` 86400000000000 = 0.

(** The rows that a selection asks for: WHO region among the regions,
    calendar date from [s] to [e], both included, and country among the
    countries when any is given. *)
Definition in_selection (regions countries : list string) (s e : Z) (r : row) :
    Prop :=
  match WHO_Region r with Some g => g ∈ regions | None => False end ∧
  match Date r with
  | Some t => s ≤ to_date t ≤ e
  | None => False
  end ∧
  (countries = [] ∨
   match Country_Region r with Some c => c ∈ countries | None => False end).

Global Instance in_selection_dec regions countries s e r :
  Decision (in_selection regions countries s e r).
Proof.
  unfold in_selection.
  destruct (WHO_Region r), (Date r), (Country_Region r); apply _.
Defined.

(** [m] is the maximum of Confirmed over the rows of country [c]. *)
Definition is_max_confirmed (t : table) (c : string) (m : Z) : Prop :=
  (∃ r, r ∈ t ∧ Country_Region r = Some c ∧ Confirmed r = m) ∧
  (∀ r, r ∈ t → Country_Region r = Some c → Confirmed r ≤ m).

(** The rows of a table are in the order of their dates. *)
Definition date_ordered (t : table) : Prop :=
  StronglySorted
    (λ r1 r2, ∀ t1 t2, Date r1 = Some t1 → Date r2 = Some t2 → t1 ≤ t2) t.

(** [r] is the last row of country [c] in the order of the table: a row
    of the country after which the table has no row of the country. *)
Definition last_row_of (t : table) (c : string) (r : row) : Prop :=
  ∃ before after,
    t = before ++ r :: after ∧
    Country_Region r = Some c ∧
    ∀ r', r' ∈ after → Country_Region r' ≠ Some c.

(** [r] is the latest record of country [c]: a row of the country whose
    date no other row of the country exceeds. *)
Definition latest_record (t : table) (c : string) (r : row) : Prop :=
  r ∈ t ∧ Country_Region r = Some c ∧
  ∃ d, Date r = Some d ∧
       ∀ r', r' ∈ t → Country_Region r' = Some c →
         ∃ d', Date r' = Some d' ∧ d' ≤ d.

(** Country [c1] has a row before every row of country [c2]. *)
Definition first_before (t : table) (c1 c2 : string) : Prop :=
  ∃ i r1, t !! i = Some r1 ∧ Country_Region r1 = Some c1 ∧
          ∀ j r2, t !! j = Some r2 → Country_Region r2 = Some c2 → (i < j)%nat.

(** Countries of a ranking with the same maximum stand in the order in
    which they first occur in the rows. *)
Definition ties_in_row_order (t : table) (l : list string) : Prop :=
  ∀ i j c1 c2 m,
    (i < j)%nat → l !! i = Some c1 → l !! j = Some c2 →
    is_max_confirmed t c1 m → is_max_confirmed t c2 m →
    first_before t c1 c2.

(** A stable sort, by merging: one of the functions that [sort_values]
    can be, with which the script runs on examples. *)
Definition stable_sort (A : Type) (before : A → A → bool) (l : list A) : list A :=
  merge_sort (λ a b, before a b) l.

(** An integer as a float, for integers below 2^63 in absolute value. *)
Definition float_of_Z (z : Z) : float :=
  match z with
  | Z0 => PrimFloat.zero
  | Zpos _ => PrimFloat.of_uint63 (Uint63.of_Z z)
  | Zneg p => PrimFloat.opp (PrimFloat.of_uint63 (Uint63.of_Z (Zpos p)))
  end.

(** A mean in float64, the sum of the cells divided by their number, each
    rounded once: one of the functions that [mean] can be, with which the
    script runs on examples. *)
Definition float_mean (l : list Z) : float :=
  PrimFloat.div (float_of_Z (foldr Z.add 0 l))
                (float_of_Z (Z.of_nat (length l))).

End Engine.

(** ** The sidebar (App.py, lines 263-297) *)

Module Sidebar.
Import Engine.

(** [Series.dropna().unique()]: the values present, each once, in the
    order in which they first occur. *)
Fixpoint unique_from (seen : list string) (cells : list (option string)) :
    list string :=
  match cells with
  | [] => []
  | None :: cells' => unique_from seen cells'
  | Some x :: cells' =>
      if decide (x ∈ seen) then unique_from seen cells'
      else x :: unique_from (x :: seen) cells'
  end.

Definition unique (cells : list (option string)) : list string :=
  unique_from [] cells.

(** [sorted(l)] on strings. *)
Definition sorted (l : list string) : list string := merge_sort String.le l.

(** Line 268. *)
Definition all_regions (data : table) : list string :=
  sorted (unique (WHO_Region <$> data)).

(** Line 286. *)
Definition all_countries (data : table) : list string :=
  sorted (unique (Country_Region <$> data)).

(** Lines 270-283: the regions selected as long as the user has not
    touched the multiselect, by the state of the "Select All Regions"
    checkbox. *)
Definition default_regions (select_all_regions : bool) (data : table) :
    list string :=
  if select_all_regions then all_regions data else [].

(** [data['Date'].min()] and [.max()]: over the dates present, NaT when
    there is none. *)
Definition Date_min (data : table) : option Z := fold1 Z.min (omap Date data).
Definition Date_max (data : table) : option Z := fold1 Z.max (omap Date data).

End Sidebar.

(** ** The frames as objects (App.py, lines 257 and 303-418)

    In Python a name is bound to a reference, and a pandas frame is an
    object that its methods can change where it stands: two names bound to
    the same reference see each other's changes. Here the objects are kept
    in a store. Each call of pandas in lines 303-418 is given by what it
    does to the store: [frame[mask]], [groupby(...)[cols].sum()], [agg],
    [reset_index], [sort_values] and [head] return a new object and leave
    their operand as it is; the script passes [inplace=True] to none of
    them and assigns to no cell or column of a frame. What the objects
    hold is computed by the functions of the engine above. *)

Module Objects.
Import Engine.

Definition ref : Type := positive.

(** The objects of lines 257-418: frames of records ([data],
    [filtered_data], [subset]), the frames [global_data] and
    [region_deaths], and the list [top5]. *)
Inductive object : Type :=
| Frame (t : table)
| Totals (g : list global_row)
| Means (m : list (string * float))
| Ranking (l : list string).

Abbreviation store := (gmap ref object).

(** A call that returns a new object: it gets a reference that is not in
    use, and nothing else in the store changes. *)
Definition new (o : object) (h : store) : ref * store :=
  let l := stdpp.base.fresh (dom h) in (l, <[l := o]> h).

(** The names of the script, bound to references where their values are
    objects, the store, and the pies drawn so far. The timestamps are
    immutable values. *)
Record state : Type := State {
  r_data : ref;
  r_start_date : option Z;
  r_end_date : option Z;
  r_filtered_data : option ref;
  r_global_data : option ref;
  r_region_deaths : option ref;
  r_top5 : option ref;
  objects : store;
  drawn : list pie
}.

Definition with_objects (h : store) (st : state) : state :=
  State (r_data st) (r_start_date st) (r_end_date st) (r_filtered_data st)
        (r_global_data st) (r_region_deaths st) (r_top5 st) h (drawn st).
Definition bind_start_date (v : Z) (st : state) : state :=
  State (r_data st) (Some v) (r_end_date st) (r_filtered_data st)
        (r_global_data st) (r_region_deaths st) (r_top5 st) (objects st)
        (drawn st).
Definition bind_end_date (v : Z) (st : state) : state :=
  State (r_data st) (r_start_date st) (Some v) (r_filtered_data st)
        (r_global_data st) (r_region_deaths st) (r_top5 st) (objects st)
        (drawn st).
Definition bind_filtered_data (l : ref) (st : state) : state :=
  State (r_data st) (r_start_date st) (r_end_date st) (Some l)
        (r_global_data st) (r_region_deaths st) (r_top5 st) (objects st)
        (drawn st).
Definition bind_global_data (l : ref) (st : state) : state :=
  State (r_data st) (r_start_date st) (r_end_date st) (r_filtered_data st)
        (Some l) (r_region_deaths st) (r_top5 st) (objects st) (drawn st).
Definition bind_region_deaths (l : ref) (st : state) : state :=
  State (r_data st) (r_start_date st) (r_end_date st) (r_filtered_data st)
        (r_global_data st) (Some l) (r_top5 st) (objects st) (drawn st).
Definition bind_top5 (l : ref) (st : state) : state :=
  State (r_data st) (r_start_date st) (r_end_date st) (r_filtered_data st)
        (r_global_data st) (r_region_deaths st) (Some l) (objects st)
        (drawn st).
Definition draw (p : pie) (st : state) : state :=
  State (r_data st) (r_start_date st) (r_end_date st) (r_filtered_data st)
        (r_global_data st) (r_region_deaths st) (r_top5 st) (objects st)
        (drawn st ++ [p]).

(** Reading a name. *)
Definition name {A} (x : string) (binding : option A) : result A :=
  match binding with
  | Some a => Ok a
  | None => Raise (NameError x)
  end.

(** The frame of records behind a reference; the methods of a frame are
    not those of another object. *)
Definition frame_at (h : store) (l : ref) : result table :=
  match h !! l with
  | Some (Frame t) => Ok t
  | _ => Raise AttributeError
  end.

Definition ranking_at (h : store) (l : ref) : result (list string) :=
  match h !! l with
  | Some (Ranking c) => Ok c
  | _ => Raise AttributeError
  end.

Definition stmt : Type := state → state * option exn.

Definition skip : stmt := λ st, (st, None).

Definition seq_stmt (s1 s2 : stmt) : stmt := λ st,
  match s1 st with
  | (st', None) => s2 st'
  | (st', Some e) => (st', Some e)
  end.

(** [x = rhs] for a value that is no object. *)
Definition assign {A} (rhs : state → result A) (bind : A → state → state) :
    stmt :=
  λ st, match rhs st with
        | Ok a => (bind a st, None)
        | Raise e => (st, Some e)
        end.

(** [x = rhs] for a call that returns a new object: the name is bound to
    the reference of the new object. *)
Definition assign_new (rhs : state → result object)
    (bind : ref → state → state) : stmt :=
  λ st, match rhs st with
        | Ok o =>
            let lh := new o (objects st) in
            (bind lh.1 (with_objects lh.2 st), None)
        | Raise e => (st, Some e)
        end.

Fixpoint for_enumerate (body : nat → string → stmt) (i : nat) (l : list string) :
    stmt :=
  match l with
  | [] => skip
  | x :: l' => seq_stmt (body i x) (for_enumerate body (S i) l')
  end.

(** Line 257, [data = load_data()]. [st.cache_data] keeps the table that
    the first call returned and gives every call a new copy of it. *)
Definition load_data (cached : table) (h : store) : state :=
  let lh := new (Frame cached) h in
  State lh.1 None None None None None None lh.2 [].

Section Script.
Variable sort_values : ∀ A : Type, (A → A → bool) → list A → list A.
Variable mean : list Z → float.

(** Lines 303-304. *)
Definition assign_start_date (sel : selection) : stmt :=
  assign (λ _, d ← getitem (date_range sel) 0; Ok (Timestamp d))
         bind_start_date.

Definition assign_end_date (sel : selection) : stmt :=
  assign (λ _, d ← getitem (date_range sel) 1; Ok (Timestamp d))
         bind_end_date.

(** Lines 306-309: [data[mask]] is a new frame. *)
Definition assign_filtered_data (sel : selection) : stmt :=
  assign_new
    (λ st, s ← name "start_date" (r_start_date st);
           e ← name "end_date" (r_end_date st);
           d ← frame_at (objects st) (r_data st);
           Ok (Frame (getitem_mask
                        (λ r, isin (WHO_Region r) (selected_region sel)
                              && between (Date r) s e)
                        d)))
    bind_filtered_data.

(** Lines 311-312: the name [filtered_data] is bound to another new
    frame. *)
Definition restrict_countries (sel : selection) : stmt :=
  match selected_country sel with
  | [] => skip
  | _ :: _ =>
      assign_new
        (λ st, l ← name "filtered_data" (r_filtered_data st);
               fd ← frame_at (objects st) l;
               Ok (Frame (getitem_mask
                            (λ r, isin (Country_Region r) (selected_country sel))
                            fd)))
        bind_filtered_data
  end.

(** Lines 319-323. *)
Definition assign_global_data : stmt :=
  assign_new
    (λ st, l ← name "filtered_data" (r_filtered_data st);
           fd ← frame_at (objects st) l;
           Ok (Totals (global_data_of fd)))
    bind_global_data.

(** Lines 347-352. *)
Definition assign_region_deaths : stmt :=
  assign_new
    (λ st, l ← name "filtered_data" (r_filtered_data st);
           fd ← frame_at (objects st) l;
           Ok (Means (region_deaths_of sort_values mean fd)))
    bind_region_deaths.

(** Lines 377-383. *)
Definition assign_top5 : stmt :=
  assign_new
    (λ st, l ← name "filtered_data" (r_filtered_data st);
           fd ← frame_at (objects st) l;
           Ok (Ranking (top5_of sort_values fd)))
    bind_top5.

(** Lines 387-418: [subset] is a new frame, of which the last row is
    read. *)
Definition loop_body (i : nat) (country : string) : stmt := λ st,
  match (l ← name "filtered_data" (r_filtered_data st);
         frame_at (objects st) l) with
  | Raise e => (st, Some e)
  | Ok fd =>
      let lh := new (Frame (subset_of fd country)) (objects st) in
      let st := with_objects lh.2 st in
      match frame_at (objects st) lh.1 with
      | Raise e => (st, Some e)
      | Ok subset =>
          if empty subset then skip st
          else
            assign
              (λ _, last_row ← getitem_last subset;
                    let values :=
                      [Active last_row; Recovered last_row; Deaths last_row] in
                    col ← getitem cols i;
                    Ok (Pie col (country +:+ " Case Distribution") values))
              draw st
      end
  end.

(** Lines 385-418. *)
Definition pie_loop : stmt := λ st,
  match (l ← name "top5" (r_top5 st); ranking_at (objects st) l) with
  | Ok l => for_enumerate loop_body 0 l st
  | Raise e => (st, Some e)
  end.

(** Lines 303-418. *)
Definition script (sel : selection) : stmt :=
  seq_stmt (assign_start_date sel)
    (seq_stmt (assign_end_date sel)
       (seq_stmt (assign_filtered_data sel)
          (seq_stmt (restrict_countries sel)
             (seq_stmt assign_global_data
                (seq_stmt assign_region_deaths
                   (seq_stmt assign_top5 pie_loop)))))).

(** One run of the page, lines 257-418, in a store that holds what
    earlier runs have left. *)
Definition run (cached : table) (h : store) (sel : selection) :
    state * option exn :=
  script sel (load_data cached h).

(** The store after the runs of successive selections: Streamlit runs
    the script again from the top at every change of a widget. *)
Definition reruns (cached : table) (h : store) (sels : list selection) : store :=
  foldl (λ h sel, objects (run cached h sel).1) h sels.

End Script.

(** What the names are bound to, read through the store: the environment
    of the engine above. *)
Definition table_at (h : store) (l : ref) : option table :=
  match h !! l with
  | Some (Frame t) => Some t
  | _ => None
  end.

Definition totals_at (h : store) (l : ref) : option (list global_row) :=
  match h !! l with
  | Some (Totals g) => Some g
  | _ => None
  end.

Definition means_at (h : store) (l : ref) : option (list (string * float)) :=
  match h !! l with
  | Some (Means m) => Some m
  | _ => None
  end.

Definition names_at (h : store) (l : ref) : option (list string) :=
  match h !! l with
  | Some (Ranking c) => Some c
  | _ => None
  end.

Definition view (st : state) : env :=
  Env (default [] (table_at (objects st) (r_data st)))
      (r_start_date st) (r_end_date st)
      (r_filtered_data st ≫= table_at (objects st))
      (r_global_data st ≫= totals_at (objects st))
      (r_region_deaths st ≫= means_at (objects st))
      (r_top5 st ≫= names_at (objects st))
      (drawn st).

(** Every name that is bound refers to an object of its kind. *)
Definition well_formed (st : state) : Prop :=
  is_Some (table_at (objects st) (r_data st)) ∧
  (∀ l, r_filtered_data st = Some l → is_Some (table_at (objects st) l)) ∧
  (∀ l, r_global_data st = Some l → is_Some (totals_at (objects st) l)) ∧
  (∀ l, r_region_deaths st = Some l → is_Some (means_at (objects st) l)) ∧
  (∀ l, r_top5 st = Some l → is_Some (names_at (objects st) l)).

(** The references that the names of a state are bound to. *)
Definition bound (st : state) : list ref :=
  r_data st :: omap id [r_filtered_data st; r_global_data st;
                        r_region_deaths st; r_top5 st].

(** [st'] extends [st]: every object of [st] is in [st'] as it was,
    [data] is bound as it was, and a name is bound as it was or to an
    object that [st] did not have. *)
Definition extends (st st' : state) : Prop :=
  objects st ⊆ objects st' ∧
  r_data st' = r_data st ∧
  ∀ l, l ∈ bound st' → l ∈ bound st ∨ l ∉ dom (objects st).

(** A statement on objects computes what a statement of the engine
    computes, and extends the state. *)
Definition simulates (hs : stmt) (ps : Engine.stmt) : Prop :=
  ∀ st, well_formed st →
    well_formed (hs st).1 ∧ extends st (hs st).1 ∧
    ps (view st) = (view (hs st).1, (hs st).2).

End Objects.

(** ** The charts of the snapshot table (App.py, lines 166-243) *)

Module World.
Import Engine.

(** A row of the frame that [load_world_data] returns, as lines 171-243
    read it: the country and the four totals. The totals are integer
    columns, TotalCases an int64 column as it is read and the others
    Int64 columns once the loader has converted them; [None] is a missing
    value. *)
Record wrow : Type := WRow {
  Country : option string;
  TotalTests : option Z;
  TotalCases : option Z;
  TotalDeaths : option Z;
  TotalRecovered : option Z
}.

(** The names in [metrics] and [totals]. *)
Inductive metric : Type := MTests | MCases | MDeaths | MRecovered.

Global Instance metric_eq_dec : EqDecision metric.
Proof. solve_decision. Defined.

Definition metric_name (m : metric) : string :=
  match m with
  | MTests => "TotalTests"
  | MCases => "TotalCases"
  | MDeaths => "TotalDeaths"
  | MRecovered => "TotalRecovered"
  end.

(** Lines 171 and 211. *)
Definition metrics : list metric := [MTests; MCases; MDeaths; MRecovered].

(** [row[metric]]. *)
Definition cell (m : metric) (r : wrow) : option Z :=
  match m with
  | MTests => TotalTests r
  | MCases => TotalCases r
  | MDeaths => TotalDeaths r
  | MRecovered => TotalRecovered r
  end.

(** What a cell adds to a sum: [sum] skips missing values. *)
Definition present (m : metric) (r : wrow) : Z := default 0 (cell m r).

(** [frame.groupby(key)[cols].agg(op)], as for the time series: one pass
    that keeps the running aggregate per key and drops the rows without
    a key. *)
Section GroupBy.
Context {K V : Type} `{Countable K}.
Variables (key : wrow → option K) (val : wrow → V) (op : V → V → V).

Definition agg_step (m : gmap K V) (r : wrow) : gmap K V :=
  match key r with
  | Some k =>
      <[k := match m !! k with
             | Some a => op a (val r)
             | None => val r
             end]> m
  | None => m
  end.

Definition groupby_agg (t : list wrow) : gmap K V := foldl agg_step ∅ t.

End GroupBy.

(** The sum of four int64 columns, row by row. *)
Definition add4 (a b : Z * Z * Z * Z) : Z * Z * Z * Z :=
  (add64 a.1.1.1 b.1.1.1, add64 a.1.1.2 b.1.1.2, add64 a.1.2 b.1.2,
   add64 a.2 b.2).

(** The column of a metric in a row of four sums, in the order of
    [metrics]. *)
Definition get (m : metric) (v : Z * Z * Z * Z) : Z :=
  match m with
  | MTests => v.1.1.1
  | MCases => v.1.1.2
  | MDeaths => v.1.2
  | MRecovered => v.2
  end.

Section Charts.

(** [sort_values], as for the time series. *)
Variable sort_values : ∀ A : Type, (A → A → bool) → list A → list A.

(** Lines 174-180: the sum of a metric per country, highest first, the
    first ten. *)
Definition df_metric (m : metric) (world_data : list wrow) : list (string * Z) :=
  take 10
    (sort_values _ (λ a b, bool_decide (b.2 ≤ a.2))
       (sort_index String.le
          (groupby_agg Country (present m) add64 world_data))).

(** Lines 173-204: one bar chart per metric. *)
Definition bar_charts (world_data : list wrow) :
    list (string * list (string * Z)) :=
  (λ m, (metric_name m, df_metric m world_data)) <$> metrics.

(** Lines 213-219: the four sums per country, by TotalDeaths, highest
    first, the first ten. *)
Definition totals_grouped (world_data : list wrow) :
    list (string * (Z * Z * Z * Z)) :=
  take 10
    (sort_values _ (λ a b, bool_decide (get MDeaths b.2 ≤ get MDeaths a.2))
       (sort_index String.le
          (groupby_agg Country
             (λ r, (present MTests r, present MCases r,
                    present MDeaths r, present MRecovered r))
             add4 world_data))).

(** Lines 221-226: [frame.melt(id_vars=['Country/Region'],
    value_vars=totals, var_name='Metric', value_name='Number')]: for each
    metric in turn, one row per row of the frame: the country, the name
    of the metric and the number. *)
Definition melt (wide : list (string * (Z * Z * Z * Z))) :
    list (string * string * Z) :=
  m ← metrics; (λ row, (row.1, metric_name m, get m row.2)) <$> wide.

Definition totals_melted (world_data : list wrow) : list (string * string * Z) :=
  melt (totals_grouped world_data).

End Charts.

(** The rows of the long frame for one metric. *)
Definition melt_block (m : metric) (wide : list (string * (Z * Z * Z * Z))) :
    list (string * string * Z) :=
  (λ row, (row.1, metric_name m, get m row.2)) <$> wide.

(** The sum of the present values of a metric over rows. *)
Definition sum_present (m : metric) (rows : list wrow) : Z :=
  foldr Z.add 0 (present m <$> rows).

(** The present values of a metric add up within int64, whatever their
    signs. *)
Definition fits (m : metric) (rows : list wrow) : Prop :=
  foldr Z.add 0 ((λ r, Z.abs (present m r)) <$> rows) ≤ int64_max.

(** The rows of a country. *)
Definition rows_of (world_data : list wrow) (c : string) : list wrow :=
  filter (λ r, Country r = Some c) world_data.

End World.

(** ** Example inputs *)

Module Examples.
Import Loader Engine.

(** Three lines of worldometer_data.csv as [read_csv] types them: the
    counts with a missing value are float64 columns, and the line of the
    cruise ship has neither a continent nor a WHO region. *)
Definition snapshot : DataFrame :=
  [("Country/Region",
    mkSeries object [Str "USA"; Str "Diamond Princess"; Str "Aruba"]);
   ("Continent",
    mkSeries object [Str "North America"; NA; Str "North America"]);
   ("TotalCases", mkSeries int64 [Int 5032179; Int 712; Int 263]);
   ("TotalDeaths", mkSeries float64 [Flt (162804 # 1); Flt (13 # 1); NA]);
   ("Serious,Critical", mkSeries float64 [Flt (18296 # 1); Flt (4 # 1); Flt (5 # 2)]);
   ("Tests/1M pop", mkSeries float64 [Flt (190640 # 1); NA; Flt (3 # 2)]);
   ("Deaths/1M pop", mkSeries float64 [Flt (492 # 1); NA; NA]);
   ("Tot Cases/1M pop", mkSeries float64 [Flt (15194 # 1); NA; Flt (2461 # 1)]);
   ("WHO Region", mkSeries object [Str "Americas"; NA; NA])].

(** Two records of Italy, on 2020-03-01 and 2020-03-02 (days 18322 and
    18323). *)
Definition italy : table :=
  [Row (Some (Timestamp 18322)) (Some "Italy") 100 34 83 0 (Some "Europe");
   Row (Some (Timestamp 18323)) (Some "Italy") 150 52 149 0 (Some "Europe")].

(** Two countries with the same maximum of Confirmed, the later in the
    alphabet first. *)
Definition ties : table :=
  [Row (Some (Timestamp 18322)) (Some "Zambia") 10 0 0 10 (Some "Africa");
   Row (Some (Timestamp 18322)) (Some "Albania") 10 0 0 10 (Some "Europe")].

(** The same two rows in the other order. *)
Definition ties_mirrored : table :=
  [Row (Some (Timestamp 18322)) (Some "Albania") 10 0 0 10 (Some "Europe");
   Row (Some (Timestamp 18322)) (Some "Zambia") 10 0 0 10 (Some "Africa")].

(** Two records of one country, the later date first. *)
Definition unordered : table :=
  [Row (Some (Timestamp 18323)) (Some "Italy") 150 52 149 9 (Some "Europe");
   Row (Some (Timestamp 18322)) (Some "Italy") 100 34 83 5 (Some "Europe")].

End Examples.

(** ** Further example inputs *)

Module MoreExamples.
Import Loader Engine Examples.


(** The two records of Italy and a third one at noon of the second
    day. *)
Definition noon : table :=
  italy
  ++ [Row (Some (Timestamp 18323 + 43200000000000)) (Some "Italy") 160 53 150 0
        (Some "Europe")].

(** Two records of one day whose counts are 2^62 each. *)
Definition large : table :=
  [Row (Some (Timestamp 18322)) (Some "Italy") (2 ^ 62) 1 1 0 (Some "Europe");
   Row (Some (Timestamp 18322)) (Some "Spain") (2 ^ 62) 2 2 0 (Some "Europe")].

(** Three rows of the loaded snapshot: the totals of tests of the ship
    and of deaths of Aruba are missing. *)
Definition world_rows : list World.wrow :=
  [World.WRow (Some "USA") (Some 63139605) (Some 5032179) (Some 162804)
     (Some 2576668);
   World.WRow (Some "Diamond Princess") None (Some 712) (Some 13) (Some 651);
   World.WRow (Some "Aruba") (Some 14705) (Some 263) None (Some 114)].

End MoreExamples.

(** ** Properties of the loader *)

Module LoaderFacts.
Import Loader Examples.

Lemma get_col_elem_of (df : DataFrame) (col : string) (s : Series) :
  get_col df col = Some s → (col, s) ∈ df.
Proof.
  induction df as [|[name s0] df IH]; simpl; [done|].
  case_decide as Hn.
  - intros [= ->]. subst name. left.
  - intros H. right. by apply IH.
Qed.

Lemma get_col_is_Some (df : DataFrame) (col : string) :
  is_Some (get_col df col) ↔ col ∈ df.*1.
Proof.
  induction df as [|[name s0] df IH]; simpl.
  - split; [by intros [? ?]|by intros ?%elem_of_nil].
  - case_decide as Hn.
    + subst name. split; [intros _; left|eauto].
    + rewrite IH, elem_of_cons. simpl. split; [by right|].
      by intros [?|?]; [subst|].
Qed.

Lemma elem_of_get_col (df : DataFrame) (col : string) (s : Series) :
  NoDup df.*1 → (col, s) ∈ df → get_col df col = Some s.
Proof.
  induction df as [|[name s0] df IH]; simpl.
  - by intros _ ?%elem_of_nil.
  - intros [Hname Hnd]%NoDup_cons [Heq|Hin]%elem_of_cons.
    + injection Heq as -> ->. by rewrite decide_True.
    + rewrite decide_False; [by apply IH|].
      intros ->. apply Hname. apply list_elem_of_fmap. by exists (col, s).
Qed.

Lemma get_set_col_eq (df : DataFrame) (col : string) (s : Series) :
  get_col (set_col df col s) col = Some s.
Proof.
  induction df as [|[name s0] df IH]; simpl.
  - by rewrite decide_True.
  - case_decide as Hn; simpl.
    + by rewrite decide_True.
    + by rewrite decide_False.
Qed.

Lemma get_set_col_ne (df : DataFrame) (col col' : string) (s : Series) :
  col ≠ col' → get_col (set_col df col s) col' = get_col df col'.
Proof.
  intros Hne. induction df as [|[name s0] df IH]; simpl.
  - by rewrite decide_False.
  - case_decide as Hn; simpl.
    + subst name. by rewrite !decide_False.
    + by rewrite IH.
Qed.

Lemma set_col_names (df : DataFrame) (col : string) (s : Series) :
  is_Some (get_col df col) → (set_col df col s).*1 = df.*1.
Proof.
  induction df as [|[name s0] df IH]; simpl.
  - by intros [? ?].
  - case_decide as Hn; [by subst|].
    intros H. rewrite !fmap_cons. f_equal. by apply IH.
Qed.

Lemma getitem_mask_names (mask : list bool) (df : DataFrame) :
  (getitem_mask mask df).*1 = df.*1.
Proof.
  unfold getitem_mask. rewrite <- list_fmap_compose. by apply list_fmap_ext.
Qed.

Lemma get_col_fmap (g : Series → Series) (df : DataFrame) (col : string) :
  get_col ((λ c, (c.1, g c.2)) <$> df) col = g <$> get_col df col.
Proof.
  induction df as [|[name s] df IH]; simpl; [done|].
  by case_decide.
Qed.

Lemma get_col_getitem_mask (mask : list bool) (df : DataFrame) (col : string) :
  get_col (getitem_mask mask df) col
  = (λ s, mkSeries (dtype_of s) (select mask (values s))) <$> get_col df col.
Proof.
  apply (get_col_fmap
           (λ s, mkSeries (dtype_of s) (select mask (values s)))).
Qed.

Lemma loc_setitem_names (df df' : DataFrame) mask col src :
  loc_setitem df mask col src = Some df' → df'.*1 = df.*1.
Proof.
  unfold loc_setitem. destruct (get_col df col) eqn:E; [|done].
  case_decide; [|done]. intros [= <-]. apply set_col_names. by rewrite E.
Qed.

Lemma getitem_col_Ok (df : DataFrame) (col : string) :
  col ∈ df.*1 → ∃ s, getitem_col df col = Ok s.
Proof.
  intros [s Hs]%get_col_is_Some. exists s. unfold getitem_col. by rewrite Hs.
Qed.

(** Lines 101-104 raise nothing when the three columns that they name
    exist and those of the country and of the WHO region are columns of
    text. *)
Lemma cleaned_Ok (df : DataFrame) :
  (∃ c, get_col df "Country/Region" = Some c ∧ dtype_of c = object) →
  (∃ w, get_col df "WHO Region" = Some w ∧ dtype_of w = object) →
  "Continent" ∈ df.*1 →
  ∃ w, cleaned df = Some (Ok w).
Proof.
  intros (c & Hc & Hcdt) (w & Hw & Hwdt) Hk. unfold cleaned, getitem_col.
  rewrite Hc. unfold ne_mask. rewrite Hcdt. simpl.
  set (wd := getitem_mask _ df).
  assert (Hn : wd.*1 = df.*1) by apply getitem_mask_names.
  unfold wd at 1. rewrite get_col_getitem_mask, Hw. simpl.
  destruct (getitem_col_Ok wd "Continent") as [k Hkk]; [by rewrite Hn|].
  unfold getitem_col in Hkk. destruct (get_col wd "Continent") as [k'|]; [|done].
  unfold loc_setitem, wd at 1. rewrite get_col_getitem_mask, Hw. simpl.
  rewrite Hwdt. simpl. eauto.
Qed.

Lemma failure_of_ext (df0 df1 : DataFrame) (cols : list string) :
  (∀ c, c ∈ cols → get_col df1 c = get_col df0 c) →
  omap (failure_of df1) cols = omap (failure_of df0) cols.
Proof.
  induction cols as [|a cols IH]; intros Hagree; [done|].
  assert (Ha : failure_of df1 a = failure_of df0 a).
  { unfold failure_of, getitem_col. rewrite (Hagree a); [done|left]. }
  csimpl. rewrite Ha, IH; [done|].
  intros c Hc. apply Hagree. by right.
Qed.

(** The loop of lines 96-100 over distinct columns of the frame: the
    column names stay, every column of the list is replaced by its cast
    when the cast succeeds and is left as it is when the cast raises, and
    the lines printed are the failures, in the order of the list. *)
Lemma foldl_convert_column (cols : list string) :
  ∀ (df0 : DataFrame) (out0 : list printed),
    NoDup cols →
    (∀ c, c ∈ cols → is_Some (get_col df0 c)) →
    (foldl convert_column (df0, out0) cols).1.*1 = df0.*1 ∧
    (foldl convert_column (df0, out0) cols).2
      = out0 ++ omap (failure_of df0) cols ∧
    (∀ c, c ∉ cols →
       get_col (foldl convert_column (df0, out0) cols).1 c = get_col df0 c) ∧
    (∀ c s, c ∈ cols → get_col df0 c = Some s →
       get_col (foldl convert_column (df0, out0) cols).1 c
       = Some (match astype_Int64 s with Ok s' => s' | Raise _ => s end)).
Proof.
  induction cols as [|a cols IH]; intros df0 out0 Hnd Hex.
  - simpl. rewrite app_nil_r. split_and!; [done..|].
    by intros c s ?%elem_of_nil.
  - apply NoDup_cons in Hnd as [Ha Hnd].
    destruct (Hex a) as [sa Hsa]; [left|].
    simpl foldl. csimpl.
    unfold convert_column at 2 4 6 8, failure_of at 1, getitem_col.
    simpl. rewrite Hsa. simpl.
    destruct (astype_Int64 sa) as [sa'|e] eqn:Hcast; simpl.
    + destruct (IH (set_col df0 a sa') out0 Hnd) as (Hn & Ho & Hother & Hin).
      { intros c Hc. rewrite get_set_col_ne; [apply Hex; by right|].
        by intros ->. }
      split; [|split; [|split]].
      * rewrite Hn. apply set_col_names. by rewrite Hsa.
      * rewrite Ho. f_equal. apply failure_of_ext.
        intros c Hc. apply get_set_col_ne. by intros ->.
      * intros c Hc. apply not_elem_of_cons in Hc as [Hca Hc].
        rewrite Hother by done. by apply get_set_col_ne.
      * intros c s [->|Hc]%elem_of_cons Hs.
        -- rewrite Hother by done. rewrite get_set_col_eq.
           rewrite Hsa in Hs. injection Hs as <-. by rewrite Hcast.
        -- apply Hin; [done|]. rewrite get_set_col_ne; [done|]. by intros ->.
    + destruct (IH df0 (out0 ++ [(a, e)]) Hnd) as (Hn & Ho & Hother & Hin).
      { intros c Hc. apply Hex. by right. }
      split; [done|split; [|split]].
      * rewrite Ho. by rewrite <- app_assoc.
      * intros c Hc. apply not_elem_of_cons in Hc as [Hca Hc]. by apply Hother.
      * intros c s [->|Hc]%elem_of_cons Hs.
        -- rewrite Hother by done. rewrite Hsa in Hs. injection Hs as <-.
           by rewrite Hsa, Hcast.
        -- by apply Hin.
Qed.

Lemma elem_of_select_dtypes (dt : dtype) (df : DataFrame) (col : string) :
  NoDup df.*1 →
  col ∈ select_dtypes dt df ↔ ∃ s, get_col df col = Some s ∧ dtype_of s = dt.
Proof.
  intros Hnd. unfold select_dtypes. rewrite list_elem_of_fmap. split.
  - intros ([c s] & -> & [Hdt Hin]%list_elem_of_filter). exists s.
    split; [by apply elem_of_get_col|done].
  - intros (s & Hs & Hdt). exists (col, s). split; [done|].
    apply list_elem_of_filter. split; [done|by apply get_col_elem_of].
Qed.

Lemma NoDup_select_dtypes (dt : dtype) (df : DataFrame) :
  NoDup df.*1 → NoDup (select_dtypes dt df).
Proof.
  intros Hnd. unfold select_dtypes.
  apply (sublist_NoDup _ _ Hnd), fmap_sublist, sublist_filter.
Qed.

(** [Index_drop] succeeds exactly when every label is in the index. *)
Lemma Index_drop_Ok (index labels : list string) :
  (∀ l, l ∈ labels → l ∈ index) →
  Index_drop index labels = Ok (filter (λ c, c ∉ labels) index).
Proof.
  intros Hall. unfold Index_drop.
  destruct (filter (λ l, l ∉ index) labels) as [|l ls] eqn:E; [done|].
  assert (Hl : l ∈ filter (λ l, l ∉ index) labels) by (rewrite E; left).
  apply list_elem_of_filter in Hl as [Hnot Hin]. destruct Hnot. by apply Hall.
Qed.

Lemma failure_of_Some (df : DataFrame) (col : string) (p : printed) :
  failure_of df col = Some p → p.1 = col.
Proof.
  unfold failure_of. destruct (_ ≫= _); [done|]. by intros [= <-].
Qed.

Lemma astype_Int64_dtype (s s' : Series) :
  astype_Int64 s = Ok s' → dtype_of s' = Int64.
Proof.
  unfold astype_Int64. destruct (mapM _ _); [|done]. by intros [= <-].
Qed.

(** *** The cast and the whole numbers *)

Lemma Qeq_inject_Z (q : Q) (z : Z) :
  (q == inject_Z z)%Q ↔
    Qnum q `rem` Z.pos (Qden q) = 0 ∧ Qnum q `quot` Z.pos (Qden q) = z.
Proof.
  unfold Qeq, inject_Z. simpl. rewrite Z.mul_1_r. split.
  - intros ->. split; [apply Z.rem_mul|apply Z.quot_mul]; done.
  - intros [Hrem <-].
    pose proof (Z.quot_rem' (Qnum q) (Z.pos (Qden q))) as Hq. lia.
Qed.

(** On the cells of a float64 column, the cast of pandas converts what
    [converts] says. *)
Lemma to_Int64_converts (v v' : value) :
  float_cell v → to_Int64 v = Some v' ↔ converts v v'.
Proof.
  destruct v as [|q|b|z|x]; simpl; try done; intros _.
  - split; [intros [= <-]; constructor|by inversion 1].
  - split.
    + case_match eqn:Hcond; [|done]. intros [= <-].
      apply andb_prop in Hcond as [[Hrem Hlo]%andb_prop Hhi].
      apply Z.eqb_eq in Hrem. apply Z.leb_le in Hlo, Hhi.
      constructor; [by apply Qeq_inject_Z|done].
    + inversion 1 as [|q' z Heq [Hlo Hhi]]; subst.
      apply Qeq_inject_Z in Heq as [-> ->]. simpl.
      apply Z.leb_le in Hlo, Hhi. by rewrite Hlo, Hhi.
  - split; [done|by inversion 1].
Qed.

Lemma mapM_to_Int64 (vs : list value) :
  Forall float_cell vs →
  match mapM to_Int64 vs with
  | Some vs' => Forall2 converts vs vs'
  | None => ¬ Forall (λ v, ∃ v', converts v v') vs
  end.
Proof.
  induction 1 as [|v vs Hv Hvs IH]; csimpl; [constructor|].
  destruct (to_Int64 v) as [v'|] eqn:Hcast; csimpl.
  - apply to_Int64_converts in Hcast; [|done].
    destruct (mapM to_Int64 vs) as [vs'|]; csimpl.
    + by constructor.
    + intros Hall. apply IH. by apply Forall_cons in Hall as [_ ?].
  - intros [[v' Hconv] _]%Forall_cons.
    apply to_Int64_converts in Hconv; [|done]. by rewrite Hconv in Hcast.
Qed.

(** [astype('Int64')] on a float64 column: a column of counts becomes the
    Int64 column of the integers that its cells are, and the cast of any
    other column raises. *)
Lemma astype_Int64_convertible (s : Series) :
  Forall float_cell (values s) →
  (convertible s →
     ∃ s', astype_Int64 s = Ok s' ∧ dtype_of s' = Int64 ∧
           Forall2 converts (values s) (values s')) ∧
  (¬ convertible s → ∃ e, astype_Int64 s = Raise e).
Proof.
  intros Hcells. pose proof (mapM_to_Int64 _ Hcells) as Hm.
  unfold astype_Int64, convertible.
  destruct (mapM to_Int64 (values s)) as [vs|]; split.
  - intros _. by eexists.
  - intros Hnot. destruct Hnot. apply Forall_forall. intros v Hv.
    apply list_elem_of_lookup in Hv as [i Hi].
    destruct (Forall2_lookup_l _ _ _ _ _ Hm Hi) as (v' & _ & Hconv).
    by exists v'.
  - done.
  - intros _. by eexists.
Qed.

Lemma omap_failure_of_names (df : DataFrame) (cols : list string) :
  (omap (failure_of df) cols).*1 `sublist_of` cols.
Proof.
  induction cols as [|c cols IH]; csimpl; [done|].
  destruct (failure_of df c) as [p|] eqn:Hf; csimpl.
  - apply failure_of_Some in Hf as ->. by apply sublist_skip.
  - by apply sublist_cons.
Qed.

(** The frame and the lines printed after the loop of lines 96-100, for a
    frame with unique column names and the three per-million columns. *)
Lemma convert_loop (csv : DataFrame) :
  NoDup csv.*1 →
  (∀ col, col ∈ per_million →
     ∃ s, get_col csv col = Some s ∧ dtype_of s = float64) →
  ∃ fc,
    Index_drop (select_dtypes float64 csv) per_million = Ok fc ∧
    (∀ c, c ∈ fc ↔
       ∃ s, get_col csv c = Some s ∧ dtype_of s = float64 ∧ c ∉ per_million) ∧
    (foldl convert_column (csv, []) fc).1.*1 = csv.*1 ∧
    (foldl convert_column (csv, []) fc).2 = omap (failure_of csv) fc ∧
    NoDup (foldl convert_column (csv, []) fc).2.*1 ∧
    (∀ c, c ∉ fc →
       get_col (foldl convert_column (csv, []) fc).1 c = get_col csv c) ∧
    (∀ c s, c ∈ fc → get_col csv c = Some s →
       get_col (foldl convert_column (csv, []) fc).1 c
       = Some (match astype_Int64 s with Ok s' => s' | Raise _ => s end)).
Proof.
  intros Hnd Hpm. eexists. split.
  { apply Index_drop_Ok. intros l Hl.
    apply elem_of_select_dtypes; [done|]. by apply Hpm. }
  set (fc := filter (λ c, c ∉ per_million) (select_dtypes float64 csv)).
  assert (Hfcnd : NoDup fc)
    by (apply NoDup_filter; by apply NoDup_select_dtypes).
  assert (Hfc : ∀ c, c ∈ fc ↔
            ∃ s, get_col csv c = Some s ∧ dtype_of s = float64 ∧ c ∉ per_million).
  { intros c. unfold fc.
    rewrite list_elem_of_filter, elem_of_select_dtypes by done. split.
    - intros (Hnpm & s & Hs & Hdt). by exists s.
    - intros (s & Hs & Hdt & Hnpm). split; [done|]. by exists s. }
  destruct (foldl_convert_column fc csv []) as (Hn & Ho & Hother & Hin);
    [done|..].
  { intros c Hc. apply Hfc in Hc as (s & Hs & _). by rewrite Hs. }
  split; [done|]. split; [done|]. split; [done|]. split; [|done].
  rewrite Ho. simpl. eapply sublist_NoDup; [exact Hfcnd|].
  apply omap_failure_of_names.
Qed.

(** C7. Given a frame with the columns that the loader names, the load
    succeeds and keeps the column names. Every float64 column other than
    the three per-million columns whose cells are all whole numbers within
    int64, or missing, is returned as the Int64 column of these numbers,
    cell by cell. When a cell of such a column is not a whole number
    within int64, the column is returned as it was and one line that names
    it is printed. The other columns are returned as they were, and no
    line names them. *)
Theorem load_world_data_converts_or_skips (csv : DataFrame) :
  snapshot_schema csv →
  ∃ df out,
    load_world_data csv = Some (Ok (df, out)) ∧
    df.*1 = csv.*1 ∧
    NoDup out.*1 ∧
    ∀ col s, get_col csv col = Some s →
      (dtype_of s = float64 → col ∉ per_million → convertible s →
         ∃ s', get_col df col = Some s' ∧ dtype_of s' = Int64 ∧
               Forall2 converts (values s) (values s') ∧ col ∉ out.*1) ∧
      (dtype_of s = float64 → col ∉ per_million → ¬ convertible s →
         get_col df col = Some s ∧ col ∈ out.*1) ∧
      (dtype_of s ≠ float64 ∨ col ∈ per_million →
         get_col df col = Some s ∧ col ∉ out.*1).
Proof.
  intros (Hnd & Hcells & Hpm & Hnamed & Htext). unfold load_world_data.
  destruct (convert_loop csv Hnd Hpm)
    as (fc & -> & Hfc & Hn & Ho & Hlognd & Hother & Hin).
  assert (Hkept : ∀ col, col ∈ ["Country/Region"; "WHO Region"] →
            ∃ s, get_col (foldl convert_column (csv, []) fc).1 col = Some s ∧
                 dtype_of s = object).
  { intros col Hcol.
    destruct (proj2 (get_col_is_Some csv col)) as [s Hs].
    { apply Hnamed.
      repeat (apply elem_of_cons in Hcol as [->|Hcol]);
        [repeat constructor..|by apply elem_of_nil in Hcol]. }
    exists s. pose proof (Htext col s Hcol Hs) as Hdt.
    split; [|done]. rewrite Hother; [done|].
    intros (s' & Hs' & Hdt' & _)%Hfc. rewrite Hs in Hs'.
    injection Hs' as <-. by rewrite Hdt in Hdt'. }
  destruct (cleaned_Ok (foldl convert_column (csv, []) fc).1) as [w ->].
  { apply Hkept. repeat constructor. }
  { apply Hkept. repeat constructor. }
  { rewrite Hn. apply Hnamed. repeat constructor. }
  simpl. eexists _, _. split; [done|]. split; [done|]. split; [done|].
  assert (Hlog : ∀ c, c ∈ (foldl convert_column (csv, []) fc).2.*1 ↔
            c ∈ fc ∧ ∃ e, failure_of csv c = Some (c, e)).
  { intros c. rewrite Ho, list_elem_of_fmap. split.
    - intros ([c' e] & -> & Hp). simpl.
      apply list_elem_of_omap in Hp as (c0 & Hc0 & Hf).
      pose proof (failure_of_Some _ _ _ Hf) as Heq. simpl in Heq. subst c0.
      eauto.
    - intros (Hc & e & Hf). exists (c, e). split; [done|].
      apply list_elem_of_omap. by exists c. }
  assert (Hfail : ∀ col s, get_col csv col = Some s →
            (∃ e, failure_of csv col = Some (col, e))
            ↔ ∃ e, astype_Int64 s = Raise e).
  { intros col s Hs. unfold failure_of, getitem_col. rewrite Hs. simpl.
    destruct (astype_Int64 s) as [s'|e]; split; intros [e' He]; try done;
      by eexists. }
  intros col s Hs. split_and!.
  - intros Hdt Hnpm Hconv.
    assert (Hcol : col ∈ fc) by (apply Hfc; eauto).
    destruct (astype_Int64_convertible s) as [Hyes _].
    { apply Forall_forall. intros v Hv. by eapply Hcells. }
    destruct (Hyes Hconv) as (s' & Hcast & Hdt' & Hvals).
    exists s'. rewrite (Hin col s Hcol Hs), Hcast.
    split; [done|]. split; [done|]. split; [done|].
    intros [_ Hf]%Hlog. apply (Hfail col s Hs) in Hf as [e He].
    by rewrite Hcast in He.
  - intros Hdt Hnpm Hconv.
    assert (Hcol : col ∈ fc) by (apply Hfc; eauto).
    destruct (astype_Int64_convertible s) as [_ Hno].
    { apply Forall_forall. intros v Hv. by eapply Hcells. }
    destruct (Hno Hconv) as [e Hcast].
    rewrite (Hin col s Hcol Hs), Hcast. split; [done|].
    apply Hlog. split; [done|]. apply (Hfail col s Hs). by exists e.
  - intros Hcase.
    assert (Hcol : col ∉ fc).
    { intros (s' & Hs' & Hdt & Hnpm)%Hfc. rewrite Hs in Hs'.
      injection Hs' as <-. by destruct Hcase. }
    split; [by rewrite Hother|]. by intros [? _]%Hlog.
Qed.

Lemma snapshot_schema_snapshot : snapshot_schema snapshot.
Proof.
  split_and!.
  - refine (bool_decide_unpack _ _). vm_compute. exact I.
  - intros col s v Hs Hdt Hv.
    assert (Hin : (col, s) ∈ snapshot) by (by apply get_col_elem_of).
    unfold snapshot in Hin.
    repeat (apply elem_of_cons in Hin as [[= -> ->]|Hin]);
      try discriminate Hdt; try (by apply elem_of_nil in Hin);
      simpl in Hv;
      repeat (apply elem_of_cons in Hv as [->|Hv]);
      try exact I; by apply elem_of_nil in Hv.
  - intros col Hcol. unfold per_million in Hcol.
    repeat (apply elem_of_cons in Hcol as [->|Hcol]);
      [eexists; split; [vm_compute; reflexivity|reflexivity]..|].
    by apply elem_of_nil in Hcol.
  - intros col Hcol.
    repeat (apply elem_of_cons in Hcol as [->|Hcol]);
      try (by apply elem_of_nil in Hcol);
      refine (bool_decide_unpack _ _); vm_compute; exact I.
  - intros col s Hcol Hs.
    repeat (apply elem_of_cons in Hcol as [->|Hcol]);
      try (by apply elem_of_nil in Hcol);
      vm_compute in Hs; by injection Hs as <-.
Defined.

(** A frame to which C7 applies: its column "Serious,Critical" holds 2.5
    and does not convert, "TotalDeaths" converts. *)
Lemma load_world_data_converts_or_skips_witness :
  ∃ df out,
    load_world_data snapshot = Some (Ok (df, out)) ∧
    df.*1 = snapshot.*1 ∧
    NoDup out.*1 ∧
    ∀ col s, get_col snapshot col = Some s →
      (dtype_of s = float64 → col ∉ per_million → convertible s →
         ∃ s', get_col df col = Some s' ∧ dtype_of s' = Int64 ∧
               Forall2 converts (values s) (values s') ∧ col ∉ out.*1) ∧
      (dtype_of s = float64 → col ∉ per_million → ¬ convertible s →
         get_col df col = Some s ∧ col ∈ out.*1) ∧
      (dtype_of s ≠ float64 ∨ col ∈ per_million →
         get_col df col = Some s ∧ col ∉ out.*1).
Proof.
  apply (load_world_data_converts_or_skips snapshot).
  exact snapshot_schema_snapshot.
Defined.

(** C1, on the three lines of [snapshot]. The frame that
    [load_world_data] returns still has the line of the Diamond Princess,
    its missing WHO region and its missing counts: it is [df] with the
    converted columns. The frame in which lines 101-104 drop that line,
    copy the continent into the missing WHO region and put zero for the
    missing values is built and not returned. *)
Theorem load_world_data_returns_uncleaned_frame :
  ∃ df w,
    load_world_data snapshot
    = Some (Ok (df, [("Serious,Critical", TypeError)])) ∧
    cells df "Country/Region"
      = [Str "USA"; Str "Diamond Princess"; Str "Aruba"] ∧
    cells df "WHO Region" = [Str "Americas"; NA; NA] ∧
    cells df "TotalDeaths" = [Int 162804; Int 13; NA] ∧
    cleaned df = Some (Ok w) ∧
    cells w "Country/Region" = [Str "USA"; Str "Aruba"] ∧
    cells w "WHO Region" = [Str "Americas"; Str "North America"] ∧
    cells w "TotalDeaths" = [Int 162804; Int 0].
Proof.
  eexists _, _. split; [vm_compute; reflexivity|].
  split_and!; vm_compute; reflexivity.
Qed.

End LoaderFacts.

(** ** Properties of the engine *)

Module EngineFacts.
Import Engine Examples.

(** *** groupby *)

Lemma fold1_snoc {V : Type} (op : V → V → V) (l : list V) (x : V) :
  fold1 op (l ++ [x])
  = Some (match fold1 op l with Some a => op a x | None => x end).
Proof. destruct l as [|y l]; simpl; [done|]. by rewrite foldl_snoc. Qed.

Section GroupByFacts.
Context {K V : Type} `{Countable K}.
Variables (key : row → option K) (val : row → V) (op : V → V → V).

(** The aggregate kept for a key is the aggregate of the values of the
    rows with that key, in the order of the rows. *)
Lemma groupby_agg_lookup (t : table) (k : K) :
  groupby_agg key val op t !! k
  = fold1 op (val <$> filter (λ r, key r = Some k) t).
Proof.
  induction t as [|r t IH] using rev_ind; [done|].
  unfold groupby_agg in *. rewrite foldl_snoc, filter_app, fmap_app.
  unfold agg_step at 1. rewrite filter_cons, filter_nil.
  destruct (key r) as [k'|] eqn:Hk.
  - destruct (decide (k' = k)) as [->|Hne].
    + rewrite lookup_insert_eq, decide_True by done.
      simpl. by rewrite fold1_snoc, IH.
    + rewrite lookup_insert_ne by done. rewrite decide_False by congruence.
      by rewrite app_nil_r.
  - rewrite decide_False by congruence. by rewrite app_nil_r.
Qed.

Lemma groupby_agg_nil : groupby_agg key val op [] = ∅.
Proof. done. Qed.

Lemma groupby_agg_is_Some (t : table) (k : K) :
  is_Some (groupby_agg key val op t !! k) ↔ ∃ r, r ∈ t ∧ key r = Some k.
Proof.
  rewrite groupby_agg_lookup.
  destruct (filter (λ r, key r = Some k) t) as [|r0 rows] eqn:E; simpl.
  - split; [by intros [? ?]|]. intros (r & Hr & Hk).
    by destruct (filter_nil_not_elem_of _ _ r E).
  - split; [|by eauto]. intros _. exists r0.
    assert (Hin : r0 ∈ filter (λ r, key r = Some k) t) by (rewrite E; left).
    apply list_elem_of_filter in Hin as [? ?]. eauto.
Qed.

End GroupByFacts.

Section SortIndexFacts.
Context {K V : Type} `{Countable K}.
Variable le : relation K.
Context `{!RelDecision le}.

Lemma elem_of_sort_index (m : gmap K V) (k : K) (v : V) :
  (k, v) ∈ sort_index le m ↔ m !! k = Some v.
Proof.
  unfold sort_index. rewrite merge_sort_Permutation.
  apply elem_of_map_to_list.
Qed.

Lemma NoDup_sort_index (m : gmap K V) : NoDup (sort_index le m).*1.
Proof.
  unfold sort_index. rewrite merge_sort_Permutation.
  apply NoDup_fst_map_to_list.
Qed.

Lemma sort_index_empty : sort_index le (∅ : gmap K V) = [].
Proof.
  apply Permutation_nil_r. unfold sort_index.
  by rewrite merge_sort_Permutation, map_to_list_empty.
Qed.

Lemma StronglySorted_sort_index `{!Transitive le, !Total le} (m : gmap K V) :
  StronglySorted le (sort_index le m).*1.
Proof.
  apply StronglySorted_fmap with (R1 := by_key le); [done|].
  apply StronglySorted_merge_sort.
  - intros a b c. unfold by_key. apply transitivity.
  - intros a b. unfold by_key. apply total, _.
Qed.

End SortIndexFacts.

(** *** The filter *)

Lemma filter_iff_in {A : Type} (P1 P2 : A → Prop)
    `{!∀ x, Decision (P1 x), !∀ x, Decision (P2 x)} (l : list A) :
  (∀ x, x ∈ l → P1 x ↔ P2 x) → filter P1 l = filter P2 l.
Proof.
  induction l as [|a l IH]; intros Hiff; [done|].
  rewrite !filter_cons, IH by (intros x Hx; apply Hiff; by right).
  destruct (decide (P1 a)) as [H1|H1], (decide (P2 a)) as [H2|H2];
    try done; destruct (Hiff a); try (by left); tauto.
Qed.

Lemma filter_nil_Forall {A : Type} (P : A → Prop) `{!∀ x, Decision (P x)}
    (l : list A) :
  (∀ x, x ∈ l → ¬ P x) → filter P l = [].
Proof.
  induction l as [|a l IH]; intros Hall; [done|].
  rewrite filter_cons, decide_False by (apply Hall; left).
  apply IH. intros x Hx. apply Hall. by right.
Qed.

Lemma isin_spec (cell : option string) (values : list string) :
  isin cell values ↔ match cell with Some s => s ∈ values | None => False end.
Proof. destruct cell; simpl; [apply bool_decide_spec|done]. Qed.

Lemma between_spec (cell : option Z) (left right : Z) :
  between cell left right
  ↔ match cell with Some t => left ≤ t ≤ right | None => False end.
Proof.
  destruct cell as [t|]; simpl; [|done].
  rewrite andb_True, !Is_true_true, !Z.leb_le. done.
Qed.

(** The two masks of lines 306-312, one after the other, keep the rows
    that the selection keeps. *)
Lemma filters_selected (R C : list string) (s e : Z) (d : table) :
  match C with
  | [] =>
      getitem_mask (λ r, isin (WHO_Region r) R
                         && between (Date r) (Timestamp s) (Timestamp e)) d
  | _ :: _ =>
      getitem_mask (λ r, isin (Country_Region r) C)
        (getitem_mask (λ r, isin (WHO_Region r) R
                            && between (Date r) (Timestamp s) (Timestamp e)) d)
  end = filter (selected R C s e) d.
Proof.
  unfold getitem_mask. destruct C as [|c C].
  - apply list_filter_iff. intros r. unfold selected.
    rewrite andb_True, isin_spec, between_spec. tauto.
  - rewrite list_filter_filter. apply list_filter_iff. intros r.
    unfold selected. rewrite andb_True, !isin_spec, between_spec.
    split; [tauto|]. intros (? & ? & [?|?]); [done|tauto].
Qed.

Lemma option_elem_iff {A : Type} (o : option A) (P : A → Prop) :
  match o with Some x => P x | None => False end ↔ ∃ x, o = Some x ∧ P x.
Proof.
  destruct o as [x|]; split.
  - intros Hx. by exists x.
  - by intros (y & [= <-] & Hy).
  - done.
  - by intros (y & Hy & _).
Qed.

Lemma selected_iff (R C : list string) (s e : Z) (r : row) :
  selected R C s e r ↔
    (∃ g, WHO_Region r = Some g ∧ g ∈ R) ∧
    (∃ t, Date r = Some t ∧ Timestamp s ≤ t ≤ Timestamp e) ∧
    (C = [] ∨ ∃ c, Country_Region r = Some c ∧ c ∈ C).
Proof. unfold selected. by rewrite !option_elem_iff. Qed.

(** *** The loop over the ranking *)

Lemma set_charts_id (σ : env) : set_charts (charts σ) σ = σ.
Proof. by destruct σ. Qed.

Lemma loop_body_spec (i : nat) (c : string) (σ : env) (fd : table) :
  filtered_data σ = Some fd → (i < 5)%nat →
  loop_body i c σ
  = (set_charts (charts σ ++ option_list (pie_of fd i c)) σ, None).
Proof.
  intros Hfd Hi. unfold loop_body, var, pie_of. rewrite Hfd.
  destruct (subset_of fd c) as [|r0 rows] eqn:E.
  - simpl. unfold skip. by rewrite app_nil_r, set_charts_id.
  - unfold empty, assign, getitem_last, getitem, cols.
    destruct (last (r0 :: rows)) as [r|] eqn:El; [|by apply last_None in El].
    rewrite lookup_seq_lt by done. done.
Qed.

Lemma for_enumerate_loop_body (fd : table) (cs : list string) :
  ∀ (i : nat) (σ : env),
    filtered_data σ = Some fd → (i + length cs ≤ 5)%nat →
    for_enumerate loop_body i cs σ
    = (set_charts (charts σ ++ pies_from fd i cs) σ, None).
Proof.
  induction cs as [|c cs IH]; intros i σ Hfd Hlen; simpl in *.
  - unfold skip. by rewrite app_nil_r, set_charts_id.
  - unfold seq_stmt. rewrite (loop_body_spec i c σ fd) by (done || lia).
    rewrite IH by (done || lia). simpl. by rewrite <- app_assoc.
Qed.

Lemma elem_of_pies_from (fd : table) (cs : list string) (p : pie) :
  ∀ i, p ∈ pies_from fd i cs
       ↔ ∃ j c, cs !! j = Some c ∧ pie_of fd (i + j) c = Some p.
Proof.
  induction cs as [|c cs IH]; intros i; simpl.
  - split; [by intros ?%elem_of_nil|]. by intros (j & c & ? & _).
  - rewrite elem_of_app, IH. split.
    + intros [Hp|(j & c' & Hj & Hp)].
      * exists 0%nat, c. rewrite Nat.add_0_r. split; [done|].
        destruct (pie_of fd i c); simpl in Hp; [|by apply elem_of_nil in Hp].
        by apply list_elem_of_singleton in Hp as ->.
      * exists (S j), c'. by rewrite Nat.add_succ_r.
    + intros ([|j] & c' & Hj & Hp); simpl in Hj.
      * left. injection Hj as <-. rewrite Nat.add_0_r in Hp. rewrite Hp.
        simpl. by left.
      * right. exists j, c'. by rewrite Nat.add_succ_r in Hp.
Qed.

Lemma pie_of_Some (fd : table) (i : nat) (c : string) (p : pie) :
  pie_of fd i c = Some p ↔
    ∃ r, last (subset_of fd c) = Some r ∧
         p = Pie i (c +:+ " Case Distribution")
               [Active r; Recovered r; Deaths r].
Proof.
  unfold pie_of. destruct (last (subset_of fd c)) as [r|]; split.
  - intros [= <-]. by exists r.
  - by intros (r' & [= <-] & ->).
  - done.
  - by intros (r' & Hr' & _).
Qed.

(** *** The last row of a country *)

Lemma subset_of_nil (fd : table) (c : string) :
  subset_of fd c = [] ↔ ∀ r, r ∈ fd → Country_Region r ≠ Some c.
Proof.
  unfold subset_of, getitem_mask. split.
  - intros Hnil r Hr Hc.
    apply (filter_nil_not_elem_of _ _ r Hnil); [|done].
    by apply bool_decide_pack.
  - intros Hnone. apply filter_nil_Forall. intros r Hr Hc.
    apply bool_decide_unpack in Hc. by apply (Hnone r).
Qed.

Lemma subset_of_snoc (fd : table) (x : row) (c : string) :
  subset_of (fd ++ [x]) c
  = subset_of fd c ++ (if decide (Country_Region x = Some c) then [x] else []).
Proof.
  unfold subset_of, getitem_mask. rewrite filter_app, filter_cons, filter_nil.
  destruct (decide (Country_Region x = Some c)) as [Hc|Hc].
  - rewrite decide_True; [done|]. by apply bool_decide_pack.
  - rewrite decide_False; [done|]. by intros ?%bool_decide_unpack.
Qed.

(** The last of the rows that line 387 selects is the last row of the
    country in the order of the table. *)
Lemma last_subset_of (fd : table) (c : string) (r : row) :
  last (subset_of fd c) = Some r ↔ last_row_of fd c r.
Proof.
  induction fd as [|x fd IH] using rev_ind.
  - split; [done|]. intros (before & after & Heq & _).
    by destruct before.
  - rewrite subset_of_snoc.
    destruct (decide (Country_Region x = Some c)) as [Hc|Hc].
    + rewrite last_snoc. split.
      * intros [= <-]. exists fd, []. split; [done|]. split; [done|].
        by intros r' ?%elem_of_nil.
      * intros (before & after & Heq & Hr & Hafter).
        destruct after as [|y after _] using rev_ind.
        -- apply app_inj_tail in Heq as [_ ->]. done.
        -- rewrite app_comm_cons, app_assoc in Heq.
           apply app_inj_tail in Heq as [_ ->].
           destruct (Hafter y); [|done]. apply elem_of_app. right. left.
    + rewrite app_nil_r, IH. split.
      * intros (before & after & -> & Hr & Hafter).
        exists before, (after ++ [x]).
        split; [by rewrite <- app_assoc|]. split; [done|].
        intros r' [?|Hx]%elem_of_app; [by apply Hafter|].
        by apply list_elem_of_singleton in Hx as ->.
      * intros (before & after & Heq & Hr & Hafter).
        destruct after as [|y after _] using rev_ind.
        -- apply app_inj_tail in Heq as [_ ->]. done.
        -- rewrite app_comm_cons, app_assoc in Heq.
           apply app_inj_tail in Heq as [-> ->].
           exists before, after. split; [done|]. split; [done|].
           intros r' Hr'. apply Hafter, elem_of_app. by left.
Qed.

(** C9. The loop over a ranking of at most five countries, in any
    environment that binds [filtered_data] and [top5]: it completes without
    an exception; for a country of the ranking of which the filtered view
    has no row, nothing is drawn in its column; for every country of which
    the view has a row, the pie of the last of its rows is drawn in its
    column; and nothing else is drawn. *)
Theorem pie_loop_skips_without_rows (σ : env) (fd : table) (cs : list string) :
  filtered_data σ = Some fd → top5 σ = Some cs → (length cs ≤ 5)%nat →
  ∃ ps,
    pie_loop σ = (set_charts (charts σ ++ ps) σ, None) ∧
    (∀ i c, cs !! i = Some c →
       (∀ r, r ∈ fd → Country_Region r ≠ Some c) →
       ∀ p, p ∈ ps → pie_column p ≠ i) ∧
    (∀ i c, cs !! i = Some c →
       (∃ r, r ∈ fd ∧ Country_Region r = Some c) →
       ∃ r, last_row_of fd c r ∧
            Pie i (c +:+ " Case Distribution")
              [Active r; Recovered r; Deaths r] ∈ ps) ∧
    (∀ p, p ∈ ps →
       ∃ i c r, cs !! i = Some c ∧ last_row_of fd c r ∧
                p = Pie i (c +:+ " Case Distribution")
                      [Active r; Recovered r; Deaths r]).
Proof.
  intros Hfd Htop Hlen. exists (pies_from fd 0 cs). split_and!.
  - unfold pie_loop, var. rewrite Htop.
    by apply for_enumerate_loop_body.
  - intros i c Hi Hnone p (j & c' & Hj & Hp)%elem_of_pies_from.
    simpl in Hp. apply pie_of_Some in Hp as (r & Hr & ->). simpl.
    intros ->. rewrite Hi in Hj. injection Hj as <-.
    apply subset_of_nil in Hnone. by rewrite Hnone in Hr.
  - intros i c Hi (r0 & Hr0 & Hc0).
    destruct (last (subset_of fd c)) as [r|] eqn:Hr.
    2:{ apply last_None in Hr. rewrite subset_of_nil in Hr.
        by destruct (Hr r0). }
    exists r. split; [by apply last_subset_of|]. apply elem_of_pies_from.
    exists i, c. split; [done|]. simpl. apply pie_of_Some. by exists r.
  - intros p (j & c & Hj & Hp)%elem_of_pies_from. simpl in Hp.
    apply pie_of_Some in Hp as (r & Hr & ->). exists j, c, r.
    split; [done|]. split; [by apply last_subset_of|done].
Qed.

(** *** Rows in the order of their dates *)

Lemma StronglySorted_filter {A : Type} (R : relation A) (P : A → Prop)
    `{∀ x, Decision (P x)} (l : list A) :
  StronglySorted R l → StronglySorted R (filter P l).
Proof.
  induction 1 as [|x l Hl IH Hx]; [constructor|].
  rewrite filter_cons. case_decide; [|done]. constructor; [done|].
  apply Forall_forall. intros y [_ Hy]%list_elem_of_filter.
  by eapply Forall_forall in Hx.
Qed.

(** In a table in the order of its dates, the last of the selected rows
    of a country is its latest record. *)
Lemma last_is_latest (R C : list string) (s e : Z) (d : table)
    (c : string) (r : row) :
  date_ordered d →
  last_row_of (filter (selected R C s e) d) c r →
  latest_record (filter (selected R C s e) d) c r.
Proof.
  intros Hord (before & after & Hfd & Hc & Hafter).
  assert (Hdate : ∀ r', r' ∈ filter (selected R C s e) d → is_Some (Date r')).
  { intros r' [Hsel _]%list_elem_of_filter.
    destruct Hsel as (_ & Ht & _). by destruct (Date r'). }
  assert (Hsorted : date_ordered (before ++ r :: after)).
  { rewrite <- Hfd. by apply StronglySorted_filter. }
  rewrite Hfd in Hdate |- *.
  assert (Hr : r ∈ before ++ r :: after) by (apply elem_of_app; right; left).
  split; [done|]. split; [done|].
  destruct (Hdate r Hr) as [dr Hdr]. exists dr. split; [done|].
  intros r' Hr' Hc'. destruct (Hdate r' Hr') as [d' Hd'].
  exists d'. split; [done|].
  apply elem_of_app in Hr' as [Hr'|Hr'].
  - eapply (StronglySorted_app_1_elem_of _ _ _ r' r Hsorted); [done|left|..];
      done.
  - apply elem_of_cons in Hr' as [->|Hr']; [|by destruct (Hafter r')].
    rewrite Hdr in Hd'. injection Hd' as ->. lia.
Qed.

(** *** Sums in int64 *)

Lemma wrap64_id (z : Z) : int64_min ≤ z ≤ int64_max → wrap64 z = z.
Proof.
  unfold wrap64, int64_min, int64_max. intros Hz.
  rewrite Z.mod_small; lia.
Qed.

Lemma sum_of_abs_nonneg (col : row → Z) (rows : table) :
  0 ≤ sum_of (λ r, Z.abs (col r)) rows.
Proof. unfold sum_of. induction rows as [|r rows IH]; csimpl; lia. Qed.

Lemma sum_of_abs_filter (col : row → Z) (P : row → Prop)
    `{!∀ r, Decision (P r)} (rows : table) :
  sum_of (λ r, Z.abs (col r)) (filter P rows)
  ≤ sum_of (λ r, Z.abs (col r)) rows.
Proof.
  unfold sum_of. induction rows as [|r rows IH]; [done|].
  rewrite filter_cons. destruct (decide (P r)); csimpl; lia.
Qed.

Lemma fits_filter (col : row → Z) (P : row → Prop)
    `{!∀ r, Decision (P r)} (rows : table) :
  fits col rows → fits col (filter P rows).
Proof.
  unfold fits. pose proof (sum_of_abs_filter col P rows). lia.
Qed.

(** Adding up a column in int64 gives its sum when the absolute values
    add up within int64: no partial sum wraps around. *)
Lemma foldl_add64 (col : row → Z) (rows : table) :
  ∀ x, Z.abs x + sum_of (λ r, Z.abs (col r)) rows ≤ int64_max →
       foldl add64 x (col <$> rows) = x + sum_of col rows.
Proof.
  unfold sum_of.
  induction rows as [|r rows IH]; intros x Hx; csimpl in *; [lia|].
  pose proof (sum_of_abs_nonneg col rows) as Hnn. unfold sum_of in Hnn.
  unfold add64 at 2. rewrite wrap64_id by (unfold int64_min, int64_max in *; lia).
  rewrite IH by lia. lia.
Qed.

(** *** The per-date totals *)

Lemma foldl_add3 (rows : table) :
  ∀ x : Z * Z * Z,
    Z.abs x.1.1 + sum_of (λ r, Z.abs (Confirmed r)) rows ≤ int64_max →
    Z.abs x.1.2 + sum_of (λ r, Z.abs (Deaths r)) rows ≤ int64_max →
    Z.abs x.2 + sum_of (λ r, Z.abs (Recovered r)) rows ≤ int64_max →
    foldl add3 x ((λ r, (Confirmed r, Deaths r, Recovered r)) <$> rows)
    = (x.1.1 + sum_of Confirmed rows, x.1.2 + sum_of Deaths rows,
       x.2 + sum_of Recovered rows).
Proof.
  unfold sum_of.
  induction rows as [|r rows IH]; intros [[a b] c] Ha Hb Hc; csimpl in *.
  - by rewrite !Z.add_0_r.
  - pose proof (sum_of_abs_nonneg Confirmed rows) as H1.
    pose proof (sum_of_abs_nonneg Deaths rows) as H2.
    pose proof (sum_of_abs_nonneg Recovered rows) as H3.
    unfold sum_of in H1, H2, H3.
    unfold add3 at 2, add64. simpl.
    rewrite !wrap64_id by (unfold int64_min, int64_max in *; lia).
    rewrite IH by (simpl; lia). simpl. f_equal; [f_equal|]; lia.
Qed.

Lemma fold1_add3 (rows : table) :
  rows ≠ [] →
  fits Confirmed rows → fits Deaths rows → fits Recovered rows →
  fold1 add3 ((λ r, (Confirmed r, Deaths r, Recovered r)) <$> rows)
  = Some (sum_of Confirmed rows, sum_of Deaths rows, sum_of Recovered rows).
Proof.
  destruct rows as [|r rows]; [done|]. intros _. unfold fits, sum_of.
  csimpl. intros Ha Hb Hc. f_equal. by rewrite foldl_add3.
Qed.

(** The rows of [global_data], for counts that add up within int64: one
    for each date of the table, with the three sums over the rows of that
    date. *)
Lemma elem_of_global_data_of (fd : table) (g : global_row) :
  fits Confirmed fd → fits Deaths fd → fits Recovered fd →
  g ∈ global_data_of fd ↔
    (∃ r, r ∈ fd ∧ Date r = Some (gDate g)) ∧
    gConfirmed g = sum_of Confirmed (rows_on fd (gDate g)) ∧
    gDeaths g = sum_of Deaths (rows_on fd (gDate g)) ∧
    gRecovered g = sum_of Recovered (rows_on fd (gDate g)).
Proof.
  intros Ha Hb Hc.
  assert (Hsum : ∀ t r, r ∈ fd → Date r = Some t →
            fold1 add3
              ((λ r, (Confirmed r, Deaths r, Recovered r)) <$> rows_on fd t)
            = Some (sum_of Confirmed (rows_on fd t),
                    sum_of Deaths (rows_on fd t),
                    sum_of Recovered (rows_on fd t))).
  { intros t r Hr Ht. apply fold1_add3; [|by apply fits_filter..].
    intros Hnil. by apply (filter_nil_not_elem_of _ _ r Hnil). }
  unfold global_data_of. rewrite list_elem_of_fmap. split.
  - intros ([t [[c de] re]] & -> & Hin). simpl.
    apply elem_of_sort_index in Hin.
    assert (Hsome : is_Some (groupby_agg Date
              (λ r, (Confirmed r, Deaths r, Recovered r)) add3 fd !! t))
      by (by rewrite Hin).
    apply groupby_agg_is_Some in Hsome as (r & Hr & Ht).
    rewrite groupby_agg_lookup in Hin. fold (rows_on fd t) in Hin.
    rewrite (Hsum t r Hr Ht) in Hin.
    injection Hin as <- <- <-. split; [by exists r|done].
  - intros ((r & Hr & Ht) & Hc' & Hd & Hre). destruct g as [t c de re].
    simpl in *. exists (t, (c, de, re)). split; [done|].
    apply elem_of_sort_index. rewrite groupby_agg_lookup.
    fold (rows_on fd t). rewrite (Hsum t r Hr Ht).
    by rewrite Hc', Hd, Hre.
Qed.

Lemma StronglySorted_le_lt (l : list Z) :
  StronglySorted Z.le l → NoDup l → StronglySorted Z.lt l.
Proof.
  induction 1 as [|x l Hl IH Hx]; intros Hnd; [constructor|].
  apply NoDup_cons in Hnd as [Hin Hnd]. constructor; [by apply IH|].
  apply Forall_forall. intros y Hy.
  assert (x ≤ y) by (by eapply Forall_forall in Hx).
  assert (x ≠ y) by (by intros ->). lia.
Qed.

Lemma global_data_of_dates (fd : table) :
  StronglySorted Z.lt (gDate <$> global_data_of fd).
Proof.
  unfold global_data_of. rewrite <- list_fmap_compose.
  change (gDate ∘ _) with (@fst Z (Z * Z * Z)).
  apply StronglySorted_le_lt.
  - apply (StronglySorted_sort_index Z.le).
  - apply NoDup_sort_index.
Qed.

(** *** The maximum per country *)

Lemma foldl_max_spec (xs : list Z) :
  ∀ x, foldl Z.max x xs ∈ x :: xs ∧ ∀ y, y ∈ x :: xs → y ≤ foldl Z.max x xs.
Proof.
  induction xs as [|z xs IH]; intros x; simpl.
  - split; [left|]. intros y Hy. apply list_elem_of_singleton in Hy. lia.
  - destruct (IH (Z.max x z)) as [Hin Hmax]. split.
    + apply elem_of_cons in Hin as [Heq|Hin]; [|by do 2 right].
      rewrite Heq. destruct (Z.max_spec x z) as [[_ ->]|[_ ->]];
        [right|]; left.
    + intros y Hy. assert (Hxz : Z.max x z ≤ foldl Z.max (Z.max x z) xs)
        by (apply Hmax; left).
      apply elem_of_cons in Hy as [->|Hy]; [lia|].
      apply elem_of_cons in Hy as [->|Hy]; [lia|].
      apply Hmax. by right.
Qed.

Lemma fold1_max_spec (l : list Z) (m : Z) :
  fold1 Z.max l = Some m → m ∈ l ∧ ∀ y, y ∈ l → y ≤ m.
Proof.
  destruct l as [|x xs]; [done|]. intros [= <-]. apply foldl_max_spec.
Qed.

Lemma groupby_max_is_max (fd : table) (c : string) (m : Z) :
  groupby_agg Country_Region Confirmed Z.max fd !! c = Some m →
  is_max_confirmed fd c m.
Proof.
  rewrite groupby_agg_lookup. intros [Hin Hmax]%fold1_max_spec. split.
  - apply list_elem_of_fmap in Hin as (r & -> & Hr).
    apply list_elem_of_filter in Hr as [Hc Hr]. by exists r.
  - intros r Hr Hc. apply Hmax, list_elem_of_fmap. exists r.
    split; [done|]. by apply list_elem_of_filter.
Qed.

Lemma is_max_confirmed_inj (fd : table) (c : string) (m1 m2 : Z) :
  is_max_confirmed fd c m1 → is_max_confirmed fd c m2 → m1 = m2.
Proof.
  intros [(r1 & Hr1 & Hc1 & <-) Hmax1] [(r2 & Hr2 & Hc2 & <-) Hmax2].
  specialize (Hmax1 r2 Hr2 Hc2). specialize (Hmax2 r1 Hr1 Hc1). lia.
Qed.

Lemma is_max_groupby_max (fd : table) (c : string) (m : Z) :
  is_max_confirmed fd c m →
  groupby_agg Country_Region Confirmed Z.max fd !! c = Some m.
Proof.
  intros Hm. pose proof Hm as [(r & Hr & Hc & _) _].
  destruct (proj2 (groupby_agg_is_Some Country_Region Confirmed Z.max fd c))
    as [m' Hm']; [by exists r|].
  rewrite Hm'. f_equal. eapply is_max_confirmed_inj; [|done].
  by apply groupby_max_is_max.
Qed.

Lemma StronglySorted_mono {A : Type} (R1 R2 : relation A) (l : list A) :
  (∀ a b, R1 a b → R2 a b) → StronglySorted R1 l → StronglySorted R2 l.
Proof.
  intros HR. induction 1 as [|x l Hl IH Hx]; constructor; [done|].
  eapply Forall_impl; [exact Hx|]. intros y. apply HR.
Qed.

(** *** The stable sort is a sort *)

Lemma stable_sort_perm (A : Type) (before : A → A → bool) (l : list A) :
  stable_sort A before l ≡ₚ l.
Proof. apply merge_sort_Permutation. Qed.

Lemma stable_sort_sorted (A : Type) (before : A → A → bool) (l : list A) :
  (∀ a b c, before a b → before b c → before a c) →
  (∀ a b, before a b ∨ before b a) →
  StronglySorted (λ a b, before a b) (stable_sort A before l).
Proof.
  intros Htrans Htotal. unfold stable_sort.
  apply StronglySorted_merge_sort; [exact Htrans|exact Htotal].
Qed.

Section ScriptFacts.
Variable sort_values : ∀ A : Type, (A → A → bool) → list A → list A.
Variable mean : list Z → float.

Lemma length_top5_of (fd : table) : (length (top5_of sort_values fd) ≤ 5)%nat.
Proof. unfold top5_of. rewrite length_fmap, length_take. lia. Qed.

(** A run of the script with a two-element date range: every statement
    completes, and the variables are the filtered view and the aggregates
    of it. *)
Lemma script_spec (R C : list string) (s e : Z) (d : table) :
  let fd := filter (selected R C s e) d in
  script sort_values mean (Selection R C [s; e]) (fresh d)
  = (Env d (Some (Timestamp s)) (Some (Timestamp e)) (Some fd)
         (Some (global_data_of fd)) (Some (region_deaths_of sort_values mean fd))
         (Some (top5_of sort_values fd))
         (pies_from fd 0 (top5_of sort_values fd)),
     None).
Proof.
  intros fd. unfold script, seq_stmt at 1 2. simpl.
  pose proof (filters_selected R C s e d) as Hf. fold fd in Hf.
  unfold seq_stmt at 1, assign_filtered_data, assign. simpl.
  unfold seq_stmt at 1, restrict_countries. simpl.
  assert (Hview :
    (match C with
     | [] => skip
     | _ :: _ =>
         assign (λ σ, fd ← var "filtered_data" filtered_data σ;
                      Ok (getitem_mask (λ r, isin (Country_Region r) C) fd))
           set_filtered_data
     end)
      (set_filtered_data
         (getitem_mask (λ r, isin (WHO_Region r) R
                             && between (Date r) (Timestamp s) (Timestamp e)) d)
         (set_end_date (Timestamp e) (set_start_date (Timestamp s) (fresh d))))
    = (Env d (Some (Timestamp s)) (Some (Timestamp e)) (Some fd)
           None None None [], None)).
  { destruct C; simpl; unfold skip, assign, set_filtered_data; simpl;
      by rewrite Hf. }
  rewrite Hview. unfold seq_stmt, assign_global_data, assign_region_deaths,
    assign_top5, assign, pie_loop. simpl.
  rewrite (for_enumerate_loop_body fd); [done..|].
  simpl. apply length_top5_of.
Qed.

(** On a midnight, the comparison of timestamps is the comparison of
    calendar dates. *)
Lemma between_dates (s e t : Z) :
  t `mod` 86400000000000 = 0 →
  Timestamp s ≤ t ≤ Timestamp e ↔ s ≤ to_date t ≤ e.
Proof.
  intros Hmid. unfold Timestamp, to_date.
  pose proof (Z.div_exact t 86400000000000) as Hex.
  assert (Ht : t = 86400000000000 * t `div` 86400000000000)
    by (apply Hex; [done|exact Hmid]).
  lia.
Qed.

Lemma selected_in_selection (R C : list string) (s e : Z) (d : table) :
  dates_only d →
  filter (selected R C s e) d = filter (in_selection R C s e) d.
Proof.
  intros Hdates. apply filter_iff_in. intros r Hr.
  unfold selected, in_selection.
  destruct (Date r) as [t|] eqn:Ht; [|done].
  by rewrite (between_dates s e t (Hdates r t Hr Ht)).
Qed.

(** C2, for a table of calendar dates. With a date range of two dates,
    the filtered view is the base table restricted, in its order, to the
    rows whose WHO region is one of the selected regions and whose date is
    one of the days from [s] to [e], both included, and, when the list of
    selected countries is not empty, whose country is one of them. *)
Theorem filtered_data_selected (R C : list string) (s e : Z) (d : table) :
  dates_only d →
  ∃ fd,
    filtered_data (script sort_values mean (Selection R C [s; e]) (fresh d)).1
    = Some fd ∧
    fd = filter (in_selection R C s e) d ∧
    ∀ r, r ∈ fd ↔
      r ∈ d ∧
      (∃ g, WHO_Region r = Some g ∧ g ∈ R) ∧
      (∃ t, Date r = Some t ∧ s ≤ to_date t ≤ e) ∧
      (C = [] ∨ ∃ c, Country_Region r = Some c ∧ c ∈ C).
Proof.
  intros Hdates. rewrite script_spec. simpl. eexists. split; [done|].
  rewrite (selected_in_selection R C s e d Hdates). split; [done|].
  intros r. rewrite list_elem_of_filter. unfold in_selection.
  rewrite !option_elem_iff. tauto.
Qed.

(** C10. A date range with fewer than two elements has no element of
    index 1, and the script stops with IndexError at line 303 or 304: no
    filtered view, aggregate or chart has been produced. *)
Theorem short_date_range_raises (sel : selection) (d : table) :
  (length (date_range sel) < 2)%nat →
  getitem (date_range sel) 1 = Raise IndexError ∧
  ∃ σ',
    script sort_values mean sel (fresh d) = (σ', Some IndexError) ∧
    data σ' = d ∧
    end_date σ' = None ∧
    filtered_data σ' = None ∧
    global_data σ' = None ∧
    region_deaths σ' = None ∧
    top5 σ' = None ∧
    charts σ' = [].
Proof.
  intros Hlen. unfold script, seq_stmt, assign_start_date, assign_end_date,
    assign, getitem.
  destruct (date_range sel) as [|a [|b l]]; simpl in *; [| |lia].
  - split; [done|]. by eexists.
  - split; [done|]. by eexists.
Qed.

(** C4, for counts that add up within int64. The per-date totals of a
    run: their dates ascend strictly, every date of the filtered view has
    its row, and a row holds the sums of Confirmed, Deaths and Recovered
    over the filtered rows of its date. For the two records of Italy, the
    Confirmed series is 100, 150 and adds up to 250. *)
Theorem global_data_sums (R C : list string) (s e : Z) (d : table) :
  fits Confirmed d → fits Deaths d → fits Recovered d →
  (∃ fd gd,
     filtered_data (script sort_values mean (Selection R C [s; e]) (fresh d)).1
     = Some fd ∧
     global_data (script sort_values mean (Selection R C [s; e]) (fresh d)).1
     = Some gd ∧
     StronglySorted Z.lt (gDate <$> gd) ∧
     (∀ r t, r ∈ fd → Date r = Some t → ∃ g, g ∈ gd ∧ gDate g = t) ∧
     (∀ g, g ∈ gd →
        (∃ r, r ∈ fd ∧ Date r = Some (gDate g)) ∧
        gConfirmed g = sum_of Confirmed (rows_on fd (gDate g)) ∧
        gDeaths g = sum_of Deaths (rows_on fd (gDate g)) ∧
        gRecovered g = sum_of Recovered (rows_on fd (gDate g)))) ∧
  (∃ gd,
     filtered_data
       (script sort_values mean (Selection ["Europe"] [] [18322; 18323])
          (fresh italy)).1 = Some italy ∧
     global_data
       (script sort_values mean (Selection ["Europe"] [] [18322; 18323])
          (fresh italy)).1 = Some gd ∧
     gDate <$> gd = [Timestamp 18322; Timestamp 18323] ∧
     gConfirmed <$> gd = [100; 150] ∧
     foldr Z.add 0 (gConfirmed <$> gd) = 250 ∧
     sum_of Confirmed italy = 250).
Proof.
  intros Ha Hb Hc. split.
  - rewrite script_spec. simpl. eexists _, _.
    split; [done|]. split; [done|]. split; [apply global_data_of_dates|].
    set (fd := filter (selected R C s e) d).
    assert (Hfd : ∀ g, g ∈ global_data_of fd ↔
              (∃ r, r ∈ fd ∧ Date r = Some (gDate g)) ∧
              gConfirmed g = sum_of Confirmed (rows_on fd (gDate g)) ∧
              gDeaths g = sum_of Deaths (rows_on fd (gDate g)) ∧
              gRecovered g = sum_of Recovered (rows_on fd (gDate g)))
      by (intros g; apply elem_of_global_data_of; by apply fits_filter).
    split.
    + intros r t Hr Ht.
      exists (GlobalRow t (sum_of Confirmed (rows_on fd t))
                (sum_of Deaths (rows_on fd t))
                (sum_of Recovered (rows_on fd t))).
      split; [|done]. apply Hfd. simpl. split; [by exists r|done].
    + intros g Hg. by apply Hfd.
  - rewrite script_spec. simpl. eexists.
    split; [by vm_compute|]. split; [done|]. by vm_compute.
Qed.

Hypothesis sort_values_perm :
  ∀ (A : Type) (before : A → A → bool) (l : list A),
    sort_values A before l ≡ₚ l.

Lemma sort_values_nil (A : Type) (before : A → A → bool) :
  sort_values A before [] = [].
Proof. apply Permutation_nil_r, sort_values_perm. Qed.

(** C6. With no region selected, the script completes: the filtered view,
    the per-date totals, the per-region means and the ranking are empty,
    and no pie is drawn. *)
Theorem no_region_selected (C : list string) (s e : Z) (d : table) :
  script sort_values mean (Selection [] C [s; e]) (fresh d)
  = (Env d (Some (Timestamp s)) (Some (Timestamp e))
       (Some []) (Some []) (Some []) (Some []) [],
     None).
Proof.
  rewrite script_spec.
  assert (Hnil : filter (selected [] C s e) d = []).
  { induction d as [|r d IH]; [done|]. rewrite filter_cons, IH.
    rewrite decide_False; [done|].
    intros [Hr _]. destruct (WHO_Region r); [by apply elem_of_nil in Hr|done]. }
  simpl. rewrite Hnil. unfold region_deaths_of, top5_of, ranking_of.
  rewrite !groupby_agg_nil, !sort_index_empty. simpl.
  by rewrite !sort_values_nil.
Qed.

Hypothesis sort_values_sorted :
  ∀ (A : Type) (before : A → A → bool) (l : list A),
    (∀ a b c, before a b → before b c → before a c) →
    (∀ a b, before a b ∨ before b a) →
    StronglySorted (λ a b, before a b) (sort_values A before l).

Lemma elem_of_ranking_of (fd : table) (c : string) (m : Z) :
  (c, m) ∈ ranking_of sort_values fd ↔ is_max_confirmed fd c m.
Proof.
  unfold ranking_of. rewrite sort_values_perm, elem_of_sort_index. split.
  - apply groupby_max_is_max.
  - apply is_max_groupby_max.
Qed.

Lemma NoDup_ranking_of (fd : table) : NoDup (ranking_of sort_values fd).*1.
Proof.
  unfold ranking_of. rewrite sort_values_perm. apply NoDup_sort_index.
Qed.

Lemma ranking_of_sorted (fd : table) :
  StronglySorted (λ a b : string * Z, b.2 ≤ a.2) (ranking_of sort_values fd).
Proof.
  unfold ranking_of.
  eapply StronglySorted_mono; [|apply sort_values_sorted].
  - intros a b Hab. by apply bool_decide_unpack in Hab.
  - intros a b c Hab Hbc. apply bool_decide_unpack in Hab, Hbc.
    apply bool_decide_pack. lia.
  - intros a b. destruct (Z.le_ge_cases a.2 b.2);
      [right|left]; by apply bool_decide_pack.
Qed.

(** C3, for every sort that returns its input in descending order,
    whatever it does with equal values. The ranking has at most five
    countries, all different, each with rows in the filtered view; their
    maxima of Confirmed over the view descend; and a country of the view
    that is not in the ranking has a maximum that is at most each of the
    five. *)
Theorem top5_ranking (R C : list string) (s e : Z) (d : table) :
  ∃ fd l ms,
    filtered_data (script sort_values mean (Selection R C [s; e]) (fresh d)).1
    = Some fd ∧
    top5 (script sort_values mean (Selection R C [s; e]) (fresh d)).1 = Some l ∧
    (length l ≤ 5)%nat ∧
    NoDup l ∧
    (∀ c, c ∈ l → ∃ r, r ∈ fd ∧ Country_Region r = Some c) ∧
    Forall2 (is_max_confirmed fd) l ms ∧
    StronglySorted (λ m1 m2, m2 ≤ m1) ms ∧
    (∀ c m, is_max_confirmed fd c m → c ∉ l →
       length l = 5%nat ∧ Forall (λ m', m ≤ m') ms).
Proof.
  rewrite script_spec. simpl.
  set (fd := filter (selected R C s e) d).
  set (rk := ranking_of sort_values fd).
  exists fd, (take 5 rk).*1, (take 5 rk).*2.
  assert (Hrk : rk = take 5 rk ++ drop 5 rk) by (by rewrite take_drop).
  assert (Hsorted := ranking_of_sorted fd). fold rk in Hsorted.
  rewrite Hrk in Hsorted.
  split; [done|]. split; [done|]. split; [apply length_top5_of|].
  split_and!.
  - rewrite fmap_take. eapply sublist_NoDup; [apply NoDup_ranking_of|].
    apply sublist_take.
  - intros c ([c' m] & -> & Hin)%list_elem_of_fmap.
    apply subseteq_take, elem_of_ranking_of in Hin as [(r & Hr & Hc & _) _].
    by exists r.
  - apply Forall2_fmap, Forall_Forall2_diag, Forall_forall.
    intros [c m] Hin. by apply subseteq_take, elem_of_ranking_of in Hin.
  - apply StronglySorted_fmap with (R1 := λ a b : string * Z, b.2 ≤ a.2);
      [done|]. by eapply StronglySorted_app_1_l.
  - intros c m Hm Hc. apply elem_of_ranking_of in Hm. fold rk in Hm.
    rewrite Hrk in Hm. apply elem_of_app in Hm as [Hm|Hm].
    { destruct Hc. apply list_elem_of_fmap. by exists (c, m). }
    split.
    + rewrite length_fmap, length_take.
      assert (drop 5 rk ≠ []) by (by intros Hnil; rewrite Hnil in Hm;
                                   apply elem_of_nil in Hm).
      assert (length (drop 5 rk) ≠ 0%nat) by (by destruct (drop 5 rk)).
      rewrite length_drop in *. lia.
    + apply Forall_fmap, Forall_forall. intros p Hp.
      by apply (StronglySorted_app_1_elem_of _ _ _ p (c, m) Hsorted).
Qed.

(** C5, with the last row in the order of the table. In a run with a
    date range of two dates every country of the ranking has filtered
    rows, and its pie, in the column of its position, shows Active,
    Recovered and Deaths of the last row of the country in the filtered
    view, in the order of the table; no other pie is drawn. When the rows
    of the base table are in the order of their dates, that row is the
    latest record of the country. *)
Theorem pies_show_last_rows (R C : list string) (s e : Z) (d : table) :
  ∃ fd l,
    filtered_data (script sort_values mean (Selection R C [s; e]) (fresh d)).1
    = Some fd ∧
    top5 (script sort_values mean (Selection R C [s; e]) (fresh d)).1 = Some l ∧
    (script sort_values mean (Selection R C [s; e]) (fresh d)).2 = None ∧
    (∀ i c, l !! i = Some c →
       ∃ r,
         last_row_of fd c r ∧
         Pie i (c +:+ " Case Distribution") [Active r; Recovered r; Deaths r]
           ∈ charts
               (script sort_values mean (Selection R C [s; e]) (fresh d)).1 ∧
         (date_ordered d → latest_record fd c r)) ∧
    (∀ p,
       p ∈ charts (script sort_values mean (Selection R C [s; e]) (fresh d)).1 →
       ∃ i c r,
         l !! i = Some c ∧ last_row_of fd c r ∧
         p = Pie i (c +:+ " Case Distribution")
               [Active r; Recovered r; Deaths r]).
Proof.
  rewrite script_spec. simpl.
  set (fd := filter (selected R C s e) d).
  exists fd, (top5_of sort_values fd).
  split; [done|]. split; [done|]. split; [done|]. split.
  - intros i c Hi.
    assert (Hc : c ∈ top5_of sort_values fd)
      by (apply list_elem_of_lookup; by exists i).
    unfold top5_of in Hc.
    apply list_elem_of_fmap in Hc as ([c' m] & -> & Hin).
    apply subseteq_take in Hin. unfold ranking_of in Hin.
    rewrite sort_values_perm, elem_of_sort_index in Hin.
    apply groupby_max_is_max in Hin as [(r0 & Hr0 & Hc0 & _) _]. simpl in *.
    destruct (last (subset_of fd c')) as [r|] eqn:Hlast.
    2:{ apply last_None in Hlast. rewrite subset_of_nil in Hlast.
        by destruct (Hlast r0). }
    exists r. split; [by apply last_subset_of|]. split.
    + apply elem_of_pies_from. exists i, c'. split; [done|].
      apply pie_of_Some. by exists r.
    + intros Hord. by apply last_is_latest, last_subset_of.
  - intros p (i & c & Hi & Hp)%elem_of_pies_from. simpl in Hp.
    apply pie_of_Some in Hp as (r & Hr & ->). exists i, c, r.
    split; [done|]. split; [by apply last_subset_of|done].
Qed.

End ScriptFacts.

End EngineFacts.

Module EngineExamples.
Import Engine Examples EngineFacts.

(** C10 on a date range of one date. *)
Lemma short_date_range_raises_witness :
  getitem [18322] 1 = Raise IndexError ∧
  ∃ σ',
    script stable_sort float_mean (Selection ["Europe"] [] [18322]) (fresh italy)
    = (σ', Some IndexError) ∧
    data σ' = italy ∧
    end_date σ' = None ∧
    filtered_data σ' = None ∧
    global_data σ' = None ∧
    region_deaths σ' = None ∧
    top5 σ' = None ∧
    charts σ' = [].
Proof.
  apply (short_date_range_raises stable_sort float_mean
           (Selection ["Europe"] [] [18322]) italy).
  simpl. lia.
Defined.

(** C6 on the records of Italy. *)
Lemma no_region_selected_witness :
  script stable_sort float_mean (Selection [] ["Italy"] [18322; 18323]) (fresh italy)
  = (Env italy (Some (Timestamp 18322)) (Some (Timestamp 18323))
       (Some []) (Some []) (Some []) (Some []) [],
     None).
Proof.
  apply (no_region_selected stable_sort float_mean stable_sort_perm
           ["Italy"] 18322 18323 italy).
Defined.

(** C3 on the two tied countries, with the stable sort. *)
Lemma top5_ranking_witness :
  ∃ fd l ms,
    filtered_data
      (script stable_sort float_mean (Selection ["Africa"; "Europe"] [] [18322; 18322])
         (fresh ties)).1 = Some fd ∧
    top5
      (script stable_sort float_mean (Selection ["Africa"; "Europe"] [] [18322; 18322])
         (fresh ties)).1 = Some l ∧
    (length l ≤ 5)%nat ∧
    NoDup l ∧
    (∀ c, c ∈ l → ∃ r, r ∈ fd ∧ Country_Region r = Some c) ∧
    Forall2 (is_max_confirmed fd) l ms ∧
    StronglySorted (λ m1 m2, m2 ≤ m1) ms ∧
    (∀ c m, is_max_confirmed fd c m → c ∉ l →
       length l = 5%nat ∧ Forall (λ m', m ≤ m') ms).
Proof.
  apply (top5_ranking stable_sort float_mean stable_sort_perm
           stable_sort_sorted ["Africa"; "Europe"] [] 18322 18322 ties).
Defined.

Lemma two_rows_max (r1 r2 : row) (c : string) (m : Z) :
  Confirmed r1 = m → Confirmed r2 = m →
  Country_Region r1 = Some c ∨ Country_Region r2 = Some c →
  is_max_confirmed [r1; r2] c m.
Proof.
  intros H1 H2 Hc. split.
  - destruct Hc as [Hc|Hc]; [exists r1|exists r2];
      (split; [|done]); [left|right; left].
  - intros r Hr _.
    repeat (apply elem_of_cons in Hr as [->|Hr]); [lia..|].
    by apply elem_of_nil in Hr.
Qed.

Lemma two_rows_first_before (r1 r2 : row) (c1 c2 : string) :
  Country_Region r1 = Some c1 → Country_Region r2 = Some c2 → c1 ≠ c2 →
  ¬ first_before [r1; r2] c2 c1.
Proof.
  intros H1 H2 Hne (i & r & Hi & Hc & Hbefore).
  destruct i as [|[|i]]; simpl in Hi; [| |done].
  - injection Hi as <-. congruence.
  - specialize (Hbefore 0%nat r1 eq_refl H1). lia.
Qed.

(** C3, the order of ties. Zambia and Albania have the same maximum;
    [groupby] puts the countries in the order of their names, whatever the
    order of the rows, so that the ranking of a table and of the table
    with its two rows exchanged is the same: whatever function sorts, the
    ties are not in the order of the rows for one of the two tables. *)
Lemma ties_not_in_row_order :
  ¬ ∃ (sort_values : ∀ A : Type, (A → A → bool) → list A → list A)
      (mean : list Z → float),
      (∀ (A : Type) (before : A → A → bool) (l : list A),
         sort_values A before l ≡ₚ l) ∧
      ∀ t, t = ties ∨ t = ties_mirrored →
        ∀ fd l,
          filtered_data
            (script sort_values mean
               (Selection ["Africa"; "Europe"] [] [18322; 18322])
               (fresh t)).1 = Some fd →
          top5
            (script sort_values mean
               (Selection ["Africa"; "Europe"] [] [18322; 18322])
               (fresh t)).1 = Some l →
          ties_in_row_order fd l.
Proof.
  intros (sv & mn & Hperm & Hclaim).
  assert (Hrows : ∀ t, t = ties ∨ t = ties_mirrored →
            ties_in_row_order t (top5_of sv t)).
  { intros t Ht. apply (Hclaim t Ht); rewrite script_spec; simpl;
      destruct Ht as [-> | ->]; f_equal; vm_compute; reflexivity. }
  pose proof (Hrows ties (or_introl eq_refl)) as Hties.
  pose proof (Hrows ties_mirrored (or_intror eq_refl)) as Hmirrored.
  unfold top5_of, ranking_of in Hties, Hmirrored.
  assert (Hindex : ∀ t, t = ties ∨ t = ties_mirrored →
            sort_index String.le (groupby_agg Country_Region Confirmed Z.max t)
            = [("Albania", 10); ("Zambia", 10)])
    by (by intros t [-> | ->]; vm_compute).
  rewrite Hindex in Hties, Hmirrored by auto.
  destruct (Permutation.Permutation_length_2_inv
              (symmetry (Hperm _ (λ a b : string * Z, bool_decide (b.2 ≤ a.2))
                           [("Albania", 10); ("Zambia", 10)])))
    as [Hsv|Hsv]; rewrite Hsv in Hties, Hmirrored; simpl in *.
  - eapply (two_rows_first_before _ _ "Zambia" "Albania");
      [| | |apply (Hties 0%nat 1%nat "Albania" "Zambia" 10);
            [lia|done|done|apply two_rows_max|apply two_rows_max]];
      by eauto.
  - eapply (two_rows_first_before _ _ "Albania" "Zambia");
      [| | |apply (Hmirrored 0%nat 1%nat "Zambia" "Albania" 10);
            [lia|done|done|apply two_rows_max|apply two_rows_max]];
      by eauto.
Qed.

(** C5 on the two records of Italy, which are in the order of their
    dates. *)
Lemma pies_show_last_rows_witness :
  date_ordered italy ∧
  ∃ fd l,
    filtered_data
      (script stable_sort float_mean (Selection ["Europe"] [] [18322; 18323])
         (fresh italy)).1 = Some fd ∧
    top5
      (script stable_sort float_mean (Selection ["Europe"] [] [18322; 18323])
         (fresh italy)).1 = Some l ∧
    (script stable_sort float_mean (Selection ["Europe"] [] [18322; 18323])
       (fresh italy)).2 = None ∧
    (∀ i c, l !! i = Some c →
       ∃ r,
         last_row_of fd c r ∧
         Pie i (c +:+ " Case Distribution") [Active r; Recovered r; Deaths r]
           ∈ charts
               (script stable_sort float_mean
                  (Selection ["Europe"] [] [18322; 18323]) (fresh italy)).1 ∧
         (date_ordered italy → latest_record fd c r)) ∧
    (∀ p,
       p ∈ charts
             (script stable_sort float_mean
                (Selection ["Europe"] [] [18322; 18323]) (fresh italy)).1 →
       ∃ i c r,
         l !! i = Some c ∧ last_row_of fd c r ∧
         p = Pie i (c +:+ " Case Distribution")
               [Active r; Recovered r; Deaths r]).
Proof.
  split.
  - unfold date_ordered, italy. repeat constructor.
    simpl. intros t1 t2 [= <-] [= <-]. unfold Timestamp. lia.
  - apply (pies_show_last_rows stable_sort float_mean stable_sort_perm
             ["Europe"] [] 18322 18323 italy).
Defined.

(** C5, the latest record. The later record of Italy is the first row
    of the table; the pie shows the other one, the last row, whatever
    function sorts the ranking. *)
Lemma last_row_is_not_latest :
  ¬ ∃ (sort_values : ∀ A : Type, (A → A → bool) → list A → list A)
      (mean : list Z → float),
      (∀ (A : Type) (before : A → A → bool) (l : list A),
         sort_values A before l ≡ₚ l) ∧
      ∀ fd l,
        filtered_data
          (script sort_values mean (Selection ["Europe"] [] [18322; 18323])
             (fresh unordered)).1 = Some fd →
        top5
          (script sort_values mean (Selection ["Europe"] [] [18322; 18323])
             (fresh unordered)).1 = Some l →
        ∀ i c, l !! i = Some c →
          ∃ r, latest_record fd c r ∧
               Pie i (c +:+ " Case Distribution")
                 [Active r; Recovered r; Deaths r]
                 ∈ charts
                     (script sort_values mean
                        (Selection ["Europe"] [] [18322; 18323])
                        (fresh unordered)).1.
Proof.
  intros (sv & mn & Hperm & Hclaim).
  assert (Hview : filter (selected ["Europe"] [] 18322 18323) unordered
                  = unordered) by (by vm_compute).
  assert (Htop : top5_of sv unordered = ["Italy"]).
  { unfold top5_of, ranking_of.
    assert (Hindex :
      sort_index String.le
        (groupby_agg Country_Region Confirmed Z.max unordered)
      = [("Italy", 150)]) by (by vm_compute).
    rewrite Hindex.
    pose proof (Hperm _ (λ a b : string * Z, bool_decide (b.2 ≤ a.2))
                  [("Italy", 150)]) as Hsv.
    apply Permutation_singleton_r in Hsv. by rewrite Hsv. }
  rewrite script_spec in Hclaim. simpl in Hclaim.
  rewrite Hview, Htop in Hclaim.
  destruct (Hclaim unordered ["Italy"] eq_refl eq_refl 0%nat "Italy" eq_refl)
    as (r & (Hin & _ & dr & Hdr & Hmax) & Hpie).
  vm_compute in Hpie.
  unfold unordered in Hin.
  apply elem_of_cons in Hin as [->|Hin].
  - apply list_elem_of_singleton in Hpie. discriminate Hpie.
  - apply list_elem_of_singleton in Hin as ->.
    destruct (Hmax (Row (Some (Timestamp 18323)) (Some "Italy") 150 52 149 9
                      (Some "Europe"))) as (d' & Hd' & Hle); [left|done|].
    injection Hd' as <-. injection Hdr as <-.
    unfold Timestamp in Hle. lia.
Qed.

(** C9 on a ranking that names a country without rows. *)
Lemma pie_loop_skips_without_rows_witness :
  ∃ ps,
    pie_loop (set_top5 ["Atlantis"; "Italy"]
                (set_filtered_data italy (fresh italy)))
    = (set_charts ([] ++ ps)
         (set_top5 ["Atlantis"; "Italy"]
            (set_filtered_data italy (fresh italy))),
       None) ∧
    (∀ i c, ["Atlantis"; "Italy"] !! i = Some c →
       (∀ r, r ∈ italy → Country_Region r ≠ Some c) →
       ∀ p, p ∈ ps → pie_column p ≠ i) ∧
    (∀ i c, ["Atlantis"; "Italy"] !! i = Some c →
       (∃ r, r ∈ italy ∧ Country_Region r = Some c) →
       ∃ r, last_row_of italy c r ∧
            Pie i (c +:+ " Case Distribution")
              [Active r; Recovered r; Deaths r] ∈ ps) ∧
    (∀ p, p ∈ ps →
       ∃ i c r, ["Atlantis"; "Italy"] !! i = Some c ∧ last_row_of italy c r ∧
                p = Pie i (c +:+ " Case Distribution")
                      [Active r; Recovered r; Deaths r]).
Proof.
  apply (pie_loop_skips_without_rows
           (set_top5 ["Atlantis"; "Italy"]
              (set_filtered_data italy (fresh italy)))
           italy ["Atlantis"; "Italy"]).
  - reflexivity.
  - reflexivity.
  - simpl. lia.
Defined.

Lemma dates_only_italy : dates_only italy.
Proof.
  intros r t Hr Ht. unfold italy in Hr.
  repeat (apply elem_of_cons in Hr as [->|Hr]);
    [by injection Ht as <-..|by apply elem_of_nil in Hr].
Defined.

(** C2 on the records of Italy: the second day alone. *)
Lemma filtered_data_selected_witness :
  ∃ fd,
    filtered_data
      (script stable_sort float_mean (Selection ["Europe"] [] [18323; 18323])
         (fresh italy)).1 = Some fd ∧
    fd = filter (in_selection ["Europe"] [] 18323 18323) italy ∧
    ∀ r, r ∈ fd ↔
      r ∈ italy ∧
      (∃ g, WHO_Region r = Some g ∧ g ∈ ["Europe"]) ∧
      (∃ t, Date r = Some t ∧ 18323 ≤ to_date t ≤ 18323) ∧
      (([] : list string) = [] ∨
       ∃ c, Country_Region r = Some c ∧ c ∈ ([] : list string)).
Proof.
  apply (filtered_data_selected stable_sort float_mean ["Europe"] []
           18323 18323 italy).
  exact dates_only_italy.
Defined.

(** C4 on the records of Italy. *)
Lemma global_data_sums_witness :
  (∃ fd gd,
     filtered_data
       (script stable_sort float_mean (Selection ["Europe"] [] [18322; 18323])
          (fresh italy)).1 = Some fd ∧
     global_data
       (script stable_sort float_mean (Selection ["Europe"] [] [18322; 18323])
          (fresh italy)).1 = Some gd ∧
     StronglySorted Z.lt (gDate <$> gd) ∧
     (∀ r t, r ∈ fd → Date r = Some t → ∃ g, g ∈ gd ∧ gDate g = t) ∧
     (∀ g, g ∈ gd →
        (∃ r, r ∈ fd ∧ Date r = Some (gDate g)) ∧
        gConfirmed g = sum_of Confirmed (rows_on fd (gDate g)) ∧
        gDeaths g = sum_of Deaths (rows_on fd (gDate g)) ∧
        gRecovered g = sum_of Recovered (rows_on fd (gDate g)))) ∧
  (∃ gd,
     filtered_data
       (script stable_sort float_mean (Selection ["Europe"] [] [18322; 18323])
          (fresh italy)).1 = Some italy ∧
     global_data
       (script stable_sort float_mean (Selection ["Europe"] [] [18322; 18323])
          (fresh italy)).1 = Some gd ∧
     gDate <$> gd = [Timestamp 18322; Timestamp 18323] ∧
     gConfirmed <$> gd = [100; 150] ∧
     foldr Z.add 0 (gConfirmed <$> gd) = 250 ∧
     sum_of Confirmed italy = 250).
Proof.
  apply (global_data_sums stable_sort float_mean ["Europe"] []
           18322 18323 italy); by vm_compute.
Defined.

End EngineExamples.

(** ** The frames as objects: what a run leaves as it was *)

Module ObjectsFacts.
Import Engine EngineFacts.
Import Objects (ref, object, store, state, view, well_formed, bound, extends,
  simulates).

(** *** New objects *)

Lemma new_fresh (o : object) (h : store) : (Objects.new o h).1 ∉ dom h.
Proof. unfold Objects.new. simpl. apply is_fresh. Qed.

Lemma new_lookup (o : object) (h : store) :
  (Objects.new o h).2 !! (Objects.new o h).1 = Some o.
Proof. unfold Objects.new. simpl. apply lookup_insert_eq. Qed.

Lemma new_subseteq (o : object) (h : store) : h ⊆ (Objects.new o h).2.
Proof.
  unfold Objects.new. simpl. apply insert_subseteq, not_elem_of_dom, is_fresh.
Qed.

Local Arguments Objects.new : simpl never.

Lemma elem_of_bound (st : state) (l : ref) :
  l ∈ bound st ↔
    l = Objects.r_data st ∨ Objects.r_filtered_data st = Some l ∨
    Objects.r_global_data st = Some l ∨ Objects.r_region_deaths st = Some l ∨
    Objects.r_top5 st = Some l.
Proof.
  unfold bound. rewrite elem_of_cons, list_elem_of_omap. split.
  - intros [->|(o & Ho & Hl)]; [by left|]. right. simpl in Hl. subst o.
    repeat (apply elem_of_cons in Ho as [Ho|Ho]); try (by symmetry in Ho; tauto).
    by apply elem_of_nil in Ho.
  - intros [->|Hl]; [by left|]. right. exists (Some l). split; [|done].
    destruct Hl as [<-|[<-|[<-|<-]]]; repeat constructor.
Qed.

(** *** Reading through a larger store *)

Lemma table_at_weaken (h h' : store) (l : ref) :
  h ⊆ h' → is_Some (Objects.table_at h l) →
  Objects.table_at h' l = Objects.table_at h l.
Proof.
  unfold Objects.table_at. intros Hsub [t Ht].
  destruct (h !! l) as [o|] eqn:Hl; [|done].
  by rewrite (lookup_weaken _ _ _ _ Hl Hsub).
Qed.

Lemma totals_at_weaken (h h' : store) (l : ref) :
  h ⊆ h' → is_Some (Objects.totals_at h l) →
  Objects.totals_at h' l = Objects.totals_at h l.
Proof.
  unfold Objects.totals_at. intros Hsub [t Ht].
  destruct (h !! l) as [o|] eqn:Hl; [|done].
  by rewrite (lookup_weaken _ _ _ _ Hl Hsub).
Qed.

Lemma means_at_weaken (h h' : store) (l : ref) :
  h ⊆ h' → is_Some (Objects.means_at h l) →
  Objects.means_at h' l = Objects.means_at h l.
Proof.
  unfold Objects.means_at. intros Hsub [t Ht].
  destruct (h !! l) as [o|] eqn:Hl; [|done].
  by rewrite (lookup_weaken _ _ _ _ Hl Hsub).
Qed.

Lemma names_at_weaken (h h' : store) (l : ref) :
  h ⊆ h' → is_Some (Objects.names_at h l) →
  Objects.names_at h' l = Objects.names_at h l.
Proof.
  unfold Objects.names_at. intros Hsub [t Ht].
  destruct (h !! l) as [o|] eqn:Hl; [|done].
  by rewrite (lookup_weaken _ _ _ _ Hl Hsub).
Qed.

Lemma bind_weaken {A : Type} (at_ : store → ref → option A) (h h' : store)
    (binding : option ref) :
  (∀ l, is_Some (at_ h l) → at_ h' l = at_ h l) →
  (∀ l, binding = Some l → is_Some (at_ h l)) →
  binding ≫= at_ h' = binding ≫= at_ h.
Proof.
  intros Hat Hb. destruct binding as [l|]; [|done]. simpl.
  apply Hat, Hb. done.
Qed.

(** The names of a well-formed state refer to the same values in every
    store that holds the objects of the state as they are. *)
Lemma view_weaken (st : state) (h' : store) :
  well_formed st → Objects.objects st ⊆ h' →
  view (Objects.with_objects h' st) = view st.
Proof.
  intros (Hd & Hf & Hg & Hm & Ht) Hsub. unfold view. simpl. f_equal.
  - by rewrite (table_at_weaken (Objects.objects st) h').
  - apply bind_weaken; [|done]. intros l. by apply table_at_weaken.
  - apply bind_weaken; [|done]. intros l. by apply totals_at_weaken.
  - apply bind_weaken; [|done]. intros l. by apply means_at_weaken.
  - apply bind_weaken; [|done]. intros l. by apply names_at_weaken.
Qed.

Lemma well_formed_weaken (st : state) (h' : store) :
  well_formed st → Objects.objects st ⊆ h' →
  well_formed (Objects.with_objects h' st).
Proof.
  intros (Hd & Hf & Hg & Hm & Ht) Hsub. unfold well_formed. simpl.
  split_and!.
  - by rewrite (table_at_weaken (Objects.objects st) h').
  - intros l Hl. rewrite (table_at_weaken (Objects.objects st) h'); auto.
  - intros l Hl. rewrite (totals_at_weaken (Objects.objects st) h'); auto.
  - intros l Hl. rewrite (means_at_weaken (Objects.objects st) h'); auto.
  - intros l Hl. rewrite (names_at_weaken (Objects.objects st) h'); auto.
Qed.

(** *** What a statement may do to a state *)

Lemma extends_refl (st : state) : extends st st.
Proof. split_and!; [done..|]. intros l Hl. by left. Qed.

Lemma extends_trans (st1 st2 st3 : state) :
  extends st1 st2 → extends st2 st3 → extends st1 st3.
Proof.
  intros (Hsub1 & Hd1 & Hb1) (Hsub2 & Hd2 & Hb2). split_and!.
  - by etrans.
  - by rewrite Hd2.
  - intros l Hl. destruct (Hb2 l Hl) as [Hl2|Hl2]; [by apply Hb1|].
    right. intros Hin. apply Hl2. revert Hin.
    apply subseteq_dom in Hsub1. apply Hsub1.
Qed.

Lemma simulates_skip : simulates Objects.skip skip.
Proof. intros st Hwf. split_and!; [done|apply extends_refl|done]. Qed.

Lemma simulates_seq (h1 h2 : Objects.stmt) (p1 p2 : stmt) :
  simulates h1 p1 → simulates h2 p2 →
  simulates (Objects.seq_stmt h1 h2) (seq_stmt p1 p2).
Proof.
  intros H1 H2 st Hwf. destruct (H1 st Hwf) as (Hwf1 & Hext1 & Hp1).
  unfold Objects.seq_stmt, seq_stmt. rewrite Hp1.
  destruct (h1 st) as [st1 [e|]]; simpl in *; [done|].
  destruct (H2 st1 Hwf1) as (Hwf2 & Hext2 & Hp2).
  split; [done|]. split; [by eapply extends_trans|done].
Qed.

Lemma simulates_assign {A : Type} (rhs : result A)
    (set : A → env → env) (bind : A → state → state) :
  (∀ a st, well_formed st →
     well_formed (bind a st) ∧ extends st (bind a st) ∧
     view (bind a st) = set a (view st)) →
  simulates (Objects.assign (λ _, rhs) bind) (assign (λ _, rhs) set).
Proof.
  intros Hbind st Hwf. unfold Objects.assign, assign.
  destruct rhs as [a|e]; simpl.
  - destruct (Hbind a st Hwf) as (? & ? & ->). done.
  - split_and!; [done|apply extends_refl|done].
Qed.

(** [x = rhs] for a call that returns a new object. *)
Lemma simulates_assign_new {A : Type} (prhs : env → result A)
    (set : A → env → env) (rhs : state → result object)
    (bind : ref → state → state) (wrap : A → object) :
  (∀ st, well_formed st → rhs st = (a ← prhs (view st); Ok (wrap a))) →
  (∀ st l a, well_formed st → Objects.objects st !! l = Some (wrap a) →
     well_formed (bind l st) ∧
     view (bind l st) = set a (view st) ∧
     Objects.objects (bind l st) = Objects.objects st ∧
     Objects.r_data (bind l st) = Objects.r_data st ∧
     ∀ l', l' ∈ bound (bind l st) → l' = l ∨ l' ∈ bound st) →
  simulates (Objects.assign_new rhs bind) (assign prhs set).
Proof.
  intros Hrhs Hbind st Hwf. unfold Objects.assign_new, assign.
  rewrite (Hrhs st Hwf). destruct (prhs (view st)) as [a|e].
  2:{ split_and!; [done|apply extends_refl|done]. }
  cbn [mbind result_bind Py.bind fst snd].
  pose proof (new_subseteq (wrap a) (Objects.objects st)) as Hsub.
  pose proof (new_lookup (wrap a) (Objects.objects st)) as Hnew.
  pose proof (new_fresh (wrap a) (Objects.objects st)) as Hfresh.
  set (l := (Objects.new (wrap a) (Objects.objects st)).1) in *.
  set (h' := (Objects.new (wrap a) (Objects.objects st)).2) in *.
  destruct (Hbind (Objects.with_objects h' st) l a)
    as (Hwf' & Hview & Hobj & Hdata & Hbound);
    [by apply well_formed_weaken|done|].
  split; [done|]. split.
  - split_and!; [by rewrite Hobj|by rewrite Hdata|].
    intros l' Hl'. destruct (Hbound l' Hl') as [->|Hl'']; [by right|].
    left. by rewrite elem_of_bound in Hl'' |- *.
  - by rewrite Hview, view_weaken.
Qed.

Lemma name_var {A : Type} (x : string) (get : env → option A) (σ : env) :
  var x get σ = Objects.name x (get σ).
Proof. done. Qed.

(** Reading the filtered view through its name. *)
Lemma read_filtered_data (st : state) :
  well_formed st →
  (l ← Objects.name "filtered_data" (Objects.r_filtered_data st);
   Objects.frame_at (Objects.objects st) l)
  = var "filtered_data" filtered_data (view st).
Proof.
  intros (_ & Hf & _). unfold var, view. simpl.
  destruct (Objects.r_filtered_data st) as [l|]; [|done]. simpl.
  destruct (Hf l eq_refl) as [t Ht]. rewrite Ht.
  unfold Objects.table_at in Ht. unfold Objects.frame_at.
  destruct (Objects.objects st !! l) as [[]|]; by try injection Ht as ->.
Qed.

Section Script.
Variable sort_values : ∀ A : Type, (A → A → bool) → list A → list A.
Variable mean : list Z → float.

Lemma simulates_assign_start_date (sel : selection) :
  simulates (Objects.assign_start_date sel) (assign_start_date sel).
Proof.
  apply simulates_assign. intros a st (Hd & Hf & Hg & Hm & Ht).
  split_and!; [done| |done].
  split_and!; [done..|]. intros l Hl. left.
  by rewrite elem_of_bound in Hl |- *.
Qed.

Lemma simulates_assign_end_date (sel : selection) :
  simulates (Objects.assign_end_date sel) (assign_end_date sel).
Proof.
  apply simulates_assign. intros a st (Hd & Hf & Hg & Hm & Ht).
  split_and!; [done| |done].
  split_and!; [done..|]. intros l Hl. left.
  by rewrite elem_of_bound in Hl |- *.
Qed.

Lemma bind_filtered_data_spec (st : state) (l : ref) (t : table) :
  well_formed st → Objects.objects st !! l = Some (Objects.Frame t) →
  well_formed (Objects.bind_filtered_data l st) ∧
  view (Objects.bind_filtered_data l st) = set_filtered_data t (view st) ∧
  Objects.objects (Objects.bind_filtered_data l st) = Objects.objects st ∧
  Objects.r_data (Objects.bind_filtered_data l st) = Objects.r_data st ∧
  ∀ l', l' ∈ bound (Objects.bind_filtered_data l st) → l' = l ∨ l' ∈ bound st.
Proof.
  intros (Hd & Hf & Hg & Hm & Ht) Hl. split_and!; try done.
  - split_and!; try done. simpl. intros l' [= <-].
    unfold Objects.table_at. by rewrite Hl.
  - unfold view, set_filtered_data. simpl.
    unfold Objects.table_at at 2. by rewrite Hl.
  - intros l'. rewrite !elem_of_bound. simpl.
    intros [?|[[= ->]|?]]; tauto.
Qed.

Lemma simulates_assign_filtered_data (sel : selection) :
  simulates (Objects.assign_filtered_data sel) (assign_filtered_data sel).
Proof.
  apply (simulates_assign_new _ _ _ _ Objects.Frame).
  - intros st ([d Hd] & _). unfold var, view. simpl.
    destruct (Objects.r_start_date st); [|done]. simpl.
    destruct (Objects.r_end_date st); [|done]. simpl.
    rewrite Hd. unfold Objects.table_at in Hd. unfold Objects.frame_at.
    destruct (Objects.objects st !! Objects.r_data st) as [[]|];
      by try injection Hd as ->.
  - apply bind_filtered_data_spec.
Qed.

Lemma simulates_restrict_countries (sel : selection) :
  simulates (Objects.restrict_countries sel) (restrict_countries sel).
Proof.
  unfold Objects.restrict_countries, restrict_countries.
  destruct (selected_country sel); [apply simulates_skip|].
  apply (simulates_assign_new _ _ _ _ Objects.Frame).
  - intros st Hwf. rewrite <- (read_filtered_data st Hwf).
    destruct (Objects.name _ _) as [l0|]; [simpl|done].
    by destruct (Objects.frame_at _ _).
  - apply bind_filtered_data_spec.
Qed.

Lemma simulates_assign_global_data :
  simulates Objects.assign_global_data assign_global_data.
Proof.
  apply (simulates_assign_new _ _ _ _ Objects.Totals).
  - intros st Hwf. rewrite <- (read_filtered_data st Hwf).
    destruct (Objects.name _ _) as [l0|]; [simpl|done].
    by destruct (Objects.frame_at _ _).
  - intros st l g (Hd & Hf & Hg & Hm & Ht) Hl. split_and!; try done.
    + split_and!; try done. simpl. intros l' [= <-].
      unfold Objects.totals_at. by rewrite Hl.
    + unfold view, set_global_data. simpl.
      f_equal. unfold Objects.totals_at. by rewrite Hl.
    + intros l'. rewrite !elem_of_bound. simpl.
      intros [?|[?|[[= ->]|?]]]; tauto.
Qed.

Lemma simulates_assign_region_deaths :
  simulates (Objects.assign_region_deaths sort_values mean)
    (assign_region_deaths sort_values mean).
Proof.
  apply (simulates_assign_new _ _ _ _ Objects.Means).
  - intros st Hwf. rewrite <- (read_filtered_data st Hwf).
    destruct (Objects.name _ _) as [l0|]; [simpl|done].
    by destruct (Objects.frame_at _ _).
  - intros st l g (Hd & Hf & Hg & Hm & Ht) Hl. split_and!; try done.
    + split_and!; try done. simpl. intros l' [= <-].
      unfold Objects.means_at. by rewrite Hl.
    + unfold view, set_region_deaths. simpl.
      f_equal. unfold Objects.means_at. by rewrite Hl.
    + intros l'. rewrite !elem_of_bound. simpl.
      intros [?|[?|[?|[[= ->]|?]]]]; tauto.
Qed.

Lemma simulates_assign_top5 :
  simulates (Objects.assign_top5 sort_values) (assign_top5 sort_values).
Proof.
  apply (simulates_assign_new _ _ _ _ Objects.Ranking).
  - intros st Hwf. rewrite <- (read_filtered_data st Hwf).
    destruct (Objects.name _ _) as [l0|]; [simpl|done].
    by destruct (Objects.frame_at _ _).
  - intros st l g (Hd & Hf & Hg & Hm & Ht) Hl. split_and!; try done.
    + split_and!; try done. simpl. intros l' [= <-].
      unfold Objects.names_at. by rewrite Hl.
    + unfold view, set_top5. simpl.
      f_equal. unfold Objects.names_at. by rewrite Hl.
    + intros l'. rewrite !elem_of_bound. simpl.
      intros [?|[?|[?|[?|[= ->]]]]]; tauto.
Qed.

Lemma simulates_loop_body (i : nat) (c : string) :
  simulates (Objects.loop_body i c) (loop_body i c).
Proof.
  intros st Hwf. unfold Objects.loop_body, loop_body.
  rewrite (read_filtered_data st Hwf).
  destruct (var "filtered_data" filtered_data (view st)) as [fd|e].
  2:{ split_and!; [done|apply extends_refl|done]. }
  pose proof (new_subseteq (Objects.Frame (subset_of fd c)) (Objects.objects st))
    as Hsub.
  pose proof (new_lookup (Objects.Frame (subset_of fd c)) (Objects.objects st))
    as Hnew.
  set (l := (Objects.new (Objects.Frame (subset_of fd c))
               (Objects.objects st)).1) in *.
  set (h' := (Objects.new (Objects.Frame (subset_of fd c))
                (Objects.objects st)).2) in *.
  pose proof (well_formed_weaken st h' Hwf Hsub) as Hwf'.
  pose proof (view_weaken st h' Hwf Hsub) as Hview.
  assert (Hext : extends st (Objects.with_objects h' st)).
  { split_and!; [done..|]. intros l' Hl'. left.
    by rewrite elem_of_bound in Hl' |- *. }
  simpl. unfold Objects.frame_at. rewrite Hnew.
  destruct (empty (subset_of fd c)).
  { unfold Objects.skip, skip. simpl. by rewrite Hview. }
  unfold Objects.assign, assign.
  destruct (_ ≫= _) as [p|e]; simpl; [|by rewrite Hview].
  split_and!.
  - by destruct Hwf' as (? & ? & ? & ? & ?).
  - destruct Hext as (? & ? & Hb). split_and!; [done..|].
    intros l' Hl'. apply Hb. by rewrite elem_of_bound in Hl' |- *.
  - by rewrite <- Hview.
Qed.

Lemma simulates_for_enumerate (cs : list string) :
  ∀ i, simulates (Objects.for_enumerate (Objects.loop_body) i cs)
                 (for_enumerate loop_body i cs).
Proof.
  induction cs as [|c cs IH]; intros i; simpl; [apply simulates_skip|].
  apply simulates_seq; [apply simulates_loop_body|apply IH].
Qed.

Lemma simulates_pie_loop : simulates Objects.pie_loop pie_loop.
Proof.
  intros st Hwf. unfold Objects.pie_loop, pie_loop.
  assert (Hread :
    (l ← Objects.name "top5" (Objects.r_top5 st);
     Objects.ranking_at (Objects.objects st) l)
    = var "top5" top5 (view st)).
  { destruct Hwf as (_ & _ & _ & _ & Ht). unfold var, view. simpl.
    destruct (Objects.r_top5 st) as [l|]; [|done]. simpl.
    destruct (Ht l eq_refl) as [t Hl]. rewrite Hl.
    unfold Objects.names_at in Hl. unfold Objects.ranking_at.
    destruct (Objects.objects st !! l) as [[]|]; by try injection Hl as ->. }
  rewrite Hread. destruct (var "top5" top5 (view st)) as [cs|e].
  - by apply simulates_for_enumerate.
  - split_and!; [done|apply extends_refl|done].
Qed.

(** Lines 303-418 on objects compute what the script computes, and
    extend the state. *)
Lemma simulates_script (sel : selection) :
  simulates (Objects.script sort_values mean sel) (script sort_values mean sel).
Proof.
  unfold Objects.script, script.
  apply simulates_seq; [apply simulates_assign_start_date|].
  apply simulates_seq; [apply simulates_assign_end_date|].
  apply simulates_seq; [apply simulates_assign_filtered_data|].
  apply simulates_seq; [apply simulates_restrict_countries|].
  apply simulates_seq; [apply simulates_assign_global_data|].
  apply simulates_seq; [apply simulates_assign_region_deaths|].
  apply simulates_seq; [apply simulates_assign_top5|].
  apply simulates_pie_loop.
Qed.

Lemma load_data_spec (cached : table) (h : store) :
  well_formed (Objects.load_data cached h) ∧
  view (Objects.load_data cached h) = fresh cached ∧
  h ⊆ Objects.objects (Objects.load_data cached h) ∧
  (Objects.r_data (Objects.load_data cached h) ∉ dom h) ∧
  ((Objects.objects (Objects.load_data cached h))
     !! (Objects.r_data (Objects.load_data cached h))
   = Some (Objects.Frame cached)) ∧
  bound (Objects.load_data cached h)
  = [Objects.r_data (Objects.load_data cached h)].
Proof.
  pose proof (new_lookup (Objects.Frame cached) h) as Hnew.
  unfold Objects.load_data. cbn [Objects.objects Objects.r_data].
  split_and!.
  - unfold well_formed. cbn. unfold Objects.table_at at 1. rewrite Hnew.
    split_and!; [by eexists|done..].
  - unfold view, fresh. cbn. unfold Objects.table_at. by rewrite Hnew.
  - apply new_subseteq.
  - apply new_fresh.
  - done.
  - done.
Qed.

(** One run of the page: what was in the store is there as it was,
    [data] is bound to a new object that holds the loaded table at the end
    of the run as at its start, every other name is bound to an object
    made in the run, and the names refer to what the script computes. *)
Lemma run_spec (cached : table) (h : store) (sel : selection) :
  let st0 := Objects.load_data cached h in
  let st := (Objects.run sort_values mean cached h sel).1 in
  well_formed st ∧
  h ⊆ Objects.objects st ∧
  Objects.objects st0 ⊆ Objects.objects st ∧
  Objects.r_data st = Objects.r_data st0 ∧
  Objects.objects st !! Objects.r_data st = Some (Objects.Frame cached) ∧
  (∀ l, l ∈ bound st → l = Objects.r_data st ∨ l ∉ dom (Objects.objects st0)) ∧
  script sort_values mean sel (fresh cached)
  = (view st, (Objects.run sort_values mean cached h sel).2).
Proof.
  intros st0 st.
  destruct (load_data_spec cached h)
    as (Hwf0 & Hview0 & Hsub0 & Hfresh0 & Hdata0 & Hbound0).
  destruct (simulates_script sel st0 Hwf0) as (Hwf & (Hsub & Hd & Hb) & Hsim).
  fold st0 in Hview0, Hsub0, Hfresh0, Hdata0, Hbound0.
  rewrite Hview0 in Hsim. unfold Objects.run. fold st0.
  change ((Objects.script sort_values mean sel st0).1) with st in *.
  split_and!; [done|by etrans|done|done| | |done].
  - rewrite Hd. by eapply lookup_weaken.
  - intros l Hl. destruct (Hb l Hl) as [Hl0|Hl0]; [|by right].
    left. rewrite Hbound0 in Hl0. apply list_elem_of_singleton in Hl0.
    by rewrite Hd.
Qed.

Lemma reruns_subseteq (cached : table) (sels : list selection) :
  ∀ h, h ⊆ Objects.reruns sort_values mean cached h sels.
Proof.
  induction sels as [|sel sels IH]; intros h; [done|].
  unfold Objects.reruns in *. simpl. etrans; [|apply IH].
  by destruct (run_spec cached h sel) as (_ & ? & _).
Qed.

(** C8. [cached] is the table that [load_data] keeps, [h] the store in
    which a run starts. In every run, completed or stopped by an
    exception, the objects that the store had are in it as they were;
    [data] stays bound to the object of line 257, which holds the loaded
    table at the end as at the start; [filtered_data] and the aggregates
    are bound to objects made in the run, not to that of [data]; and the
    names refer to what the script computes. Computing [global_data] a
    second time after a run with two dates completes, changes no object,
    and binds the name to another object with the same rows: every name
    refers to what it referred to. After the runs of any selections the
    store still holds what it had, and the next run ends with the loaded
    table in [data]. *)
Theorem base_table_is_read_only (cached : table) (h : store) :
  (∀ sel,
     let st0 := Objects.load_data cached h in
     let st := (Objects.run sort_values mean cached h sel).1 in
     h ⊆ Objects.objects st ∧
     Objects.objects st0 ⊆ Objects.objects st ∧
     Objects.r_data st = Objects.r_data st0 ∧
     Objects.objects st !! Objects.r_data st = Some (Objects.Frame cached) ∧
     (∀ l, l ∈ bound st →
        l = Objects.r_data st ∨ l ∉ dom (Objects.objects st0)) ∧
     script sort_values mean sel (fresh cached)
     = (view st, (Objects.run sort_values mean cached h sel).2)) ∧
  (∀ R C s e,
     let st :=
       (Objects.run sort_values mean cached h (Selection R C [s; e])).1 in
     let st' := (Objects.assign_global_data st).1 in
     (Objects.assign_global_data st).2 = None ∧
     Objects.objects st ⊆ Objects.objects st' ∧
     view st' = view st ∧
     ∃ l l' g,
       Objects.r_global_data st = Some l ∧
       Objects.r_global_data st' = Some l' ∧
       l ≠ l' ∧
       Objects.objects st' !! l = Some (Objects.Totals g) ∧
       Objects.objects st' !! l' = Some (Objects.Totals g)) ∧
  (∀ sels sel,
     let h' := Objects.reruns sort_values mean cached h sels in
     let st := (Objects.run sort_values mean cached h' sel).1 in
     h ⊆ h' ∧ h' ⊆ Objects.objects st ∧
     Objects.objects st !! Objects.r_data st = Some (Objects.Frame cached)).
Proof.
  split_and!.
  - intros sel. by destruct (run_spec cached h sel) as (_ & ? & ? & ? & ? & ? & ?).
  - intros R C s e st st'.
    destruct (run_spec cached h (Selection R C [s; e]))
      as (Hwf & _ & _ & _ & _ & _ & Hsim).
    fold st in Hwf, Hsim.
    assert (Hview : view st
              = (script sort_values mean (Selection R C [s; e])
                   (fresh cached)).1) by (by rewrite Hsim).
    rewrite script_spec in Hview. simpl in Hview.
    set (g := global_data_of (filter (selected R C s e) cached)) in *.
    assert (Hat : ∀ (hh : store) (k : ref) (g : list global_row),
              Objects.totals_at hh k = Some g →
              hh !! k = Some (Objects.Totals g)).
    { intros hh k g'. unfold Objects.totals_at.
      destruct (hh !! k) as [[]|]; try done. by intros [= ->]. }
    assert (Hg : ∃ l, Objects.r_global_data st = Some l ∧
                      Objects.objects st !! l = Some (Objects.Totals g)).
    { assert (Hgd : global_data (view st) = Some g) by (by rewrite Hview).
      unfold view in Hgd. simpl in Hgd.
      destruct (Objects.r_global_data st) as [l|]; [|done].
      exists l. split; [done|]. by apply Hat. }
    destruct Hg as (l & Hl & Hlg).
    destruct (simulates_assign_global_data st Hwf)
      as (Hwf' & (Hsub & _ & _) & Hsim').
    fold st' in Hwf', Hsub, Hsim'. rewrite Hview in Hsim'.
    assert (He : (Objects.assign_global_data st).2 = None)
      by (by injection Hsim').
    assert (Hview' : view st' = view st).
    { rewrite Hview. exact (eq_sym (f_equal fst Hsim')). }
    split; [done|]. split; [done|]. split; [done|].
    assert (Hnew : ∃ l', Objects.r_global_data st' = Some l' ∧
                         l' ∉ dom (Objects.objects st)).
    { unfold st'. unfold Objects.assign_global_data, Objects.assign_new in He |- *.
      destruct (_ ≫= _) as [o|e']; [|done].
      eexists. split; [reflexivity|apply new_fresh]. }
    destruct Hnew as (l' & Hl' & Hfresh).
    exists l, l', g. split; [done|]. split; [done|]. split_and!.
    + intros ->. apply Hfresh. apply elem_of_dom. by eexists.
    + by eapply lookup_weaken.
    + apply Hat.
      assert (Hgd : global_data (view st') = Some g)
        by (by rewrite Hview', Hview).
      unfold view in Hgd. simpl in Hgd. by rewrite Hl' in Hgd.
  - intros sels sel h' st.
    pose proof (reruns_subseteq cached sels h) as Hsub. fold h' in Hsub.
    destruct (run_spec cached h' sel) as (_ & ? & _ & _ & ? & _).
    done.
Qed.

End Script.

End ObjectsFacts.

(** ** Further properties of the loader *)

Module LoaderExtras.
Import Loader Examples MoreExamples LoaderFacts.


Lemma Index_drop_Ok_inv (index labels kept : list string) :
  Index_drop index labels = Ok kept →
  kept = filter (λ c, c ∉ labels) index ∧ ∀ l, l ∈ labels → l ∈ index.
Proof.
  unfold Index_drop.
  destruct (filter (λ l, l ∉ index) labels) as [|l0 ls] eqn:E; [|done].
  intros [= <-]. split; [done|]. intros l Hl.
  destruct (decide (l ∈ index)) as [|Hnot]; [done|].
  by destruct (filter_nil_not_elem_of _ _ l E).
Qed.

Lemma named_columns (col : string) :
  col ∈ ["Country/Region"; "WHO Region"] →
  col ∈ ["Country/Region"; "WHO Region"; "Continent"].
Proof.
  intros Hcol.
  repeat (apply elem_of_cons in Hcol as [->|Hcol]);
    [repeat constructor..|by apply elem_of_nil in Hcol].
Qed.

(** Lines 101-104 on a frame whose country and WHO region columns are
    text: they complete when the three columns that they name exist, and
    raise KeyError for the first that does not. *)
Lemma cleaned_cases (df : DataFrame) :
  text_columns df →
  match cleaned df with
  | Some (Ok w) =>
      ∀ col, col ∈ ["Country/Region"; "WHO Region"; "Continent"] →
        col ∈ df.*1
  | Some (Raise e) =>
      ∃ col, e = KeyError [col] ∧
             col ∈ ["Country/Region"; "WHO Region"; "Continent"] ∧
             col ∉ df.*1
  | None => False
  end.
Proof.
  intros Htext. unfold cleaned, getitem_col.
  destruct (get_col df "Country/Region") as [c|] eqn:Hc.
  2:{ eexists. split; [done|]. split; [repeat constructor|].
      rewrite <- get_col_is_Some, Hc. by intros [? ?]. }
  unfold ne_mask.
  rewrite (Htext "Country/Region" c (ltac:(repeat constructor)) Hc). simpl.
  set (wd := getitem_mask _ df).
  assert (Hn : wd.*1 = df.*1) by apply getitem_mask_names.
  unfold wd at 1. rewrite get_col_getitem_mask.
  destruct (get_col df "WHO Region") as [w|] eqn:Hw; simpl.
  2:{ eexists. split; [done|]. split; [repeat constructor|].
      rewrite <- get_col_is_Some, Hw. by intros [? ?]. }
  destruct (get_col wd "Continent") as [k|] eqn:Hk.
  2:{ eexists. split; [done|]. split; [repeat constructor|].
      rewrite <- Hn, <- get_col_is_Some, Hk. by intros [? ?]. }
  unfold loc_setitem, wd at 1. rewrite get_col_getitem_mask, Hw. simpl.
  rewrite (Htext "WHO Region" w (ltac:(repeat constructor)) Hw). simpl.
  intros col Hcol.
  repeat (apply elem_of_cons in Hcol as [->|Hcol]).
  - apply get_col_is_Some. by rewrite Hc.
  - apply get_col_is_Some. by rewrite Hw.
  - rewrite <- Hn. apply get_col_is_Some. by rewrite Hk.
  - by apply elem_of_nil in Hcol.
Qed.

(** The columns that the conversion loop runs over, and the names of the
    frame after it. *)
Lemma convert_loop_names (csv : DataFrame) (fc : list string) :
  NoDup csv.*1 →
  Index_drop (select_dtypes float64 csv) per_million = Ok fc →
  (foldl convert_column (csv, []) fc).1.*1 = csv.*1 ∧
  (∀ c, c ∉ fc →
     get_col (foldl convert_column (csv, []) fc).1 c = get_col csv c) ∧
  (∀ c s, c ∈ fc → get_col csv c = Some s →
     get_col (foldl convert_column (csv, []) fc).1 c
     = Some (match astype_Int64 s with Ok s' => s' | Raise _ => s end)) ∧
  (∀ c, c ∈ fc → ∃ s, get_col csv c = Some s ∧ dtype_of s = float64).
Proof.
  intros Hnd [-> _]%Index_drop_Ok_inv.
  assert (Hfc : ∀ c,
            c ∈ filter (λ c, c ∉ per_million) (select_dtypes float64 csv) →
            ∃ s, get_col csv c = Some s ∧ dtype_of s = float64).
  { intros c [_ Hc]%list_elem_of_filter.
    by apply elem_of_select_dtypes in Hc. }
  destruct (foldl_convert_column
              (filter (λ c, c ∉ per_million) (select_dtypes float64 csv))
              csv []) as (Hn & _ & Hother & Hin); [| |done].
  - apply NoDup_filter. by apply NoDup_select_dtypes.
  - intros c (s & Hs & _)%Hfc. by rewrite Hs.
Qed.

(** The loop leaves the columns of text as columns of text. *)
Lemma convert_loop_text (csv : DataFrame) (fc : list string) :
  NoDup csv.*1 →
  Index_drop (select_dtypes float64 csv) per_million = Ok fc →
  text_columns csv →
  text_columns (foldl convert_column (csv, []) fc).1.
Proof.
  intros Hnd Hdrop Htext col s Hcol Hs.
  destruct (convert_loop_names csv fc Hnd Hdrop) as (_ & Hother & Hin & Hfc).
  destruct (decide (col ∈ fc)) as [Hin'|Hnot].
  - destruct (Hfc col Hin') as (s0 & Hs0 & Hdt).
    by rewrite (Htext col s0 Hcol Hs0) in Hdt.
  - rewrite (Hother col Hnot) in Hs. by eapply Htext.
Qed.

(** X1. For a frame with unique column names whose country and WHO
    region columns are text, the load returns or raises, and it returns
    exactly when the three per-million columns are float64 columns of the
    frame and the country, WHO region and continent columns exist. *)
Theorem load_world_data_succeeds_iff (csv : DataFrame) :
  NoDup csv.*1 → text_columns csv →
  is_Some (load_world_data csv) ∧
  ((∃ df out, load_world_data csv = Some (Ok (df, out))) ↔
     (∀ col, col ∈ per_million →
        ∃ s, get_col csv col = Some s ∧ dtype_of s = float64) ∧
     (∀ col, col ∈ ["Country/Region"; "WHO Region"; "Continent"] →
        col ∈ csv.*1)).
Proof.
  intros Hnd Htext. unfold load_world_data.
  destruct (Index_drop (select_dtypes float64 csv) per_million)
    as [fc|e] eqn:Hdrop.
  - destruct (convert_loop_names csv fc Hnd Hdrop) as (Hn & _ & _ & _).
    pose proof (cleaned_cases _ (convert_loop_text csv fc Hnd Hdrop Htext))
      as Hclean.
    apply Index_drop_Ok_inv in Hdrop as [_ Hall].
    destruct (cleaned (foldl convert_column (csv, []) fc).1) as [[w|e]|];
      [| |done]; simpl.
    + split; [done|]. split; [|by eauto]. intros _. split.
      * intros col Hcol. apply elem_of_select_dtypes; [done|]. by apply Hall.
      * intros col Hcol. rewrite <- Hn. by apply Hclean.
    + split; [done|]. split; [by intros (? & ? & ?)|].
      intros [_ Hnamed]. destruct Hclean as (col & _ & Hcol & Hnot).
      destruct Hnot. rewrite Hn. by apply Hnamed.
  - split; [done|]. split; [by intros (? & ? & ?)|]. intros [Hpm _].
    rewrite Index_drop_Ok in Hdrop; [done|].
    intros l Hl. apply elem_of_select_dtypes; [done|]. by apply Hpm.
Qed.

Lemma text_columns_snapshot : text_columns snapshot.
Proof. apply snapshot_schema_snapshot. Defined.

Lemma load_world_data_succeeds_iff_witness :
  is_Some (load_world_data snapshot) ∧
  ((∃ df out, load_world_data snapshot = Some (Ok (df, out))) ↔
     (∀ col, col ∈ per_million →
        ∃ s, get_col snapshot col = Some s ∧ dtype_of s = float64) ∧
     (∀ col, col ∈ ["Country/Region"; "WHO Region"; "Continent"] →
        col ∈ snapshot.*1)).
Proof.
  apply (load_world_data_succeeds_iff snapshot).
  - refine (bool_decide_unpack _ _). vm_compute. exact I.
  - exact text_columns_snapshot.
Defined.



Lemma to_Int64_same_shape (v v' : value) :
  to_Int64 v = Some v' →
  isna v' = isna v ∧ ∀ x, v = Str x → v' = Str x.
Proof.
  destruct v as [|q|b|z|x]; simpl; try done.
  - by intros [= <-].
  - case_match; [|done]. by intros [= <-].
  - by intros [= <-].
Qed.

(** X3. A successful load returns the frame with the rows that it read:
    the same columns, each of the same length, in which every missing
    cell is still missing and every string is unchanged. No row is
    dropped and no missing value is filled. *)
Theorem load_world_data_keeps_rows (csv df : DataFrame) (out : list printed) :
  NoDup csv.*1 →
  load_world_data csv = Some (Ok (df, out)) →
  df.*1 = csv.*1 ∧
  ∀ col s, get_col csv col = Some s →
    ∃ s', get_col df col = Some s' ∧
          Forall2 (λ v v', isna v' = isna v ∧ ∀ x, v = Str x → v' = Str x)
            (values s) (values s').
Proof.
  intros Hnd. unfold load_world_data.
  destruct (Index_drop (select_dtypes float64 csv) per_million)
    as [fc|e'] eqn:Hdrop; simpl; [|done].
  destruct (convert_loop_names csv fc Hnd Hdrop) as (Hn & Hother & Hin & _).
  destruct (cleaned (foldl convert_column (csv, []) fc).1) as [[w|e']|];
    simpl; [|done..].
  intros [= <- <-]. split; [done|]. intros col s Hs.
  assert (Hrefl : Forall2
            (λ v v', isna v' = isna v ∧ ∀ x, v = Str x → v' = Str x)
            (values s) (values s)).
  { apply Forall_Forall2_diag, Forall_forall. by intros v _. }
  destruct (decide (col ∈ fc)) as [Hcol|Hcol].
  - rewrite (Hin col s Hcol Hs). eexists. split; [done|].
    destruct (astype_Int64 s) as [s'|e'] eqn:Hcast; [|done].
    unfold astype_Int64 in Hcast.
    destruct (mapM to_Int64 (values s)) as [vs|] eqn:Hvs; [|done].
    injection Hcast as <-. simpl. apply mapM_Some in Hvs.
    eapply Forall2_impl; [exact Hvs|]. intros v v'. apply to_Int64_same_shape.
  - rewrite (Hother col Hcol), Hs. by exists s.
Qed.

Lemma load_world_data_keeps_rows_witness :
  ∃ df out,
    load_world_data snapshot = Some (Ok (df, out)) ∧
    df.*1 = snapshot.*1 ∧
    ∀ col s, get_col snapshot col = Some s →
      ∃ s', get_col df col = Some s' ∧
            Forall2 (λ v v', isna v' = isna v ∧ ∀ x, v = Str x → v' = Str x)
              (values s) (values s').
Proof.
  eexists _, _. split; [vm_compute; reflexivity|].
  eapply (load_world_data_keeps_rows snapshot).
  - refine (bool_decide_unpack _ _). vm_compute. exact I.
  - vm_compute. reflexivity.
Defined.

Lemma select_ne (label : string) (vs : list value) (v : value) :
  v ∈ select (ne label <$> vs) vs → ne label v = true.
Proof.
  induction vs as [|v0 vs IH]; simpl; [by intros ?%elem_of_nil|].
  destruct (ne label v0) eqn:Hv0; [|done].
  by intros [->|Hv]%elem_of_cons; [|apply IH].
Qed.

(** X4. The frame that lines 101-104 build, and that the function does
    not return: it has the columns of [df], no missing value in any
    column, and no cell "Diamond Princess" in its country column. *)
Theorem cleaned_frame_is_clean (df w : DataFrame) :
  cleaned df = Some (Ok w) →
  w.*1 = df.*1 ∧
  (∀ col s v, get_col w col = Some s → v ∈ values s → isna v = false) ∧
  Str "Diamond Princess" ∉ cells w "Country/Region".
Proof.
  unfold cleaned, getitem_col.
  destruct (get_col df "Country/Region") as [c|] eqn:Hc; [|done].
  unfold ne_mask. case_decide as Hcdt; [done|]. simpl.
  set (wd := getitem_mask _ df).
  destruct (get_col wd "WHO Region") as [who|] eqn:Hw; [|done].
  destruct (get_col wd "Continent") as [k|] eqn:Hk; [|done].
  destruct (loc_setitem wd (isna <$> values who) "WHO Region" k)
    as [wd'|] eqn:Hset; [|done].
  simpl. intros [= <-]. split_and!.
  - unfold fillna_0. rewrite <- list_fmap_compose.
    etrans; [|etrans; [apply (loc_setitem_names _ _ _ _ _ Hset)|
                       apply getitem_mask_names]].
    by apply list_fmap_ext.
  - intros col s v Hs Hv. unfold fillna_0 in Hs.
    rewrite (get_col_fmap
               (λ s, mkSeries (dtype_of s)
                       ((λ v, if isna v
                              then match dtype_of s with
                                   | float64 => Flt 0
                                   | _ => Int 0
                                   end
                              else v) <$> values s))) in Hs.
    destruct (get_col _ col) as [s0|]; [|done].
    injection Hs as <-. simpl in Hv.
    apply list_elem_of_fmap in Hv as (v0 & -> & _).
    destruct (isna v0) eqn:Hv0; [|done]. by destruct (dtype_of s0).
  - unfold cells, fillna_0.
    rewrite (get_col_fmap
               (λ s, mkSeries (dtype_of s)
                       ((λ v, if isna v
                              then match dtype_of s with
                                   | float64 => Flt 0
                                   | _ => Int 0
                                   end
                              else v) <$> values s))).
    unfold loc_setitem in Hset. rewrite Hw in Hset.
    case_decide; [|done]. injection Hset as <-.
    rewrite get_set_col_ne by done.
    unfold wd. rewrite get_col_getitem_mask, Hc.
    simpl. intros (v0 & Heq & Hv0%select_ne)%list_elem_of_fmap.
    destruct (isna v0); [by destruct (dtype_of c)|].
    subst v0. by vm_compute in Hv0.
Qed.

Lemma cleaned_frame_is_clean_witness :
  ∃ w,
    cleaned snapshot = Some (Ok w) ∧
    w.*1 = snapshot.*1 ∧
    (∀ col s v, get_col w col = Some s → v ∈ values s → isna v = false) ∧
    Str "Diamond Princess" ∉ cells w "Country/Region".
Proof.
  eexists. split; [vm_compute; reflexivity|].
  apply (cleaned_frame_is_clean snapshot). vm_compute. reflexivity.
Defined.

End LoaderExtras.

(** ** Properties of the sidebar and further properties of the engine *)

Module EngineExtras.
Import Engine Sidebar Examples EngineFacts.

(** *** The options of the multiselects *)

Lemma elem_of_unique_from (cells : list (option string)) :
  ∀ seen x, x ∈ unique_from seen cells ↔ Some x ∈ cells ∧ x ∉ seen.
Proof.
  induction cells as [|[y|] cells IH]; intros seen x; simpl.
  - split; [by intros ?%elem_of_nil|]. by intros [?%elem_of_nil _].
  - case_decide as Hy.
    + rewrite IH, elem_of_cons. split; [tauto|].
      intros [[[= ->]|?] ?]; done.
    + rewrite elem_of_cons, IH, not_elem_of_cons, elem_of_cons. split.
      * intros [->|(? & ? & ?)]; [by split; [left|]|tauto].
      * intros [[[= ->]|?] ?]; [by left|].
        destruct (decide (x = y)) as [->|]; [by left|tauto].
  - rewrite IH, elem_of_cons. split; [tauto|]. by intros [[?|?] ?].
Qed.

Lemma NoDup_unique_from (cells : list (option string)) :
  ∀ seen, NoDup (unique_from seen cells).
Proof.
  induction cells as [|[y|] cells IH]; intros seen; simpl;
    [constructor| |done].
  case_decide; [done|]. apply NoDup_cons. split; [|done].
  rewrite elem_of_unique_from, not_elem_of_cons. tauto.
Qed.

Lemma StronglySorted_strict (l : list string) :
  StronglySorted String.le l → NoDup l →
  StronglySorted (λ a b, String.le a b ∧ a ≠ b) l.
Proof.
  induction 1 as [|x l Hl IH Hx]; intros Hnd; [constructor|].
  apply NoDup_cons in Hnd as [Hin Hnd]. constructor; [by apply IH|].
  apply Forall_forall. intros y Hy. split.
  - by eapply Forall_forall in Hx.
  - by intros ->.
Qed.

Lemma sorted_unique_spec (cells : list (option string)) :
  StronglySorted (λ a b, String.le a b ∧ a ≠ b) (sorted (unique cells)) ∧
  NoDup (sorted (unique cells)) ∧
  ∀ x, x ∈ sorted (unique cells) ↔ Some x ∈ cells.
Proof.
  unfold sorted, unique.
  assert (Hnd : NoDup (merge_sort String.le (unique_from [] cells)))
    by (rewrite merge_sort_Permutation; apply NoDup_unique_from).
  split_and!; [|done|].
  - apply StronglySorted_strict; [|done].
    apply StronglySorted_merge_sort; apply _.
  - intros x. rewrite merge_sort_Permutation, elem_of_unique_from.
    split; [tauto|]. intros Hx. split; [done|]. apply not_elem_of_nil.
Qed.

Lemma elem_of_all_regions (data : table) (g : string) :
  g ∈ all_regions data ↔ ∃ r, r ∈ data ∧ WHO_Region r = Some g.
Proof.
  unfold all_regions.
  rewrite (proj2 (proj2 (sorted_unique_spec _))), list_elem_of_fmap.
  split; intros (r & ? & ?); by exists r.
Qed.

Lemma elem_of_all_countries (data : table) (c : string) :
  c ∈ all_countries data ↔ ∃ r, r ∈ data ∧ Country_Region r = Some c.
Proof.
  unfold all_countries.
  rewrite (proj2 (proj2 (sorted_unique_spec _))), list_elem_of_fmap.
  split; intros (r & ? & ?); by exists r.
Qed.

(** X5. The options offered for regions and for countries are the
    values that occur in the column, each once, in strictly ascending
    order; a missing value is no option. *)
Theorem multiselect_options (data : table) :
  StronglySorted (λ a b, String.le a b ∧ a ≠ b) (all_regions data) ∧
  (∀ g, g ∈ all_regions data ↔ ∃ r, r ∈ data ∧ WHO_Region r = Some g) ∧
  StronglySorted (λ a b, String.le a b ∧ a ≠ b) (all_countries data) ∧
  (∀ c, c ∈ all_countries data ↔ ∃ r, r ∈ data ∧ Country_Region r = Some c).
Proof.
  split_and!.
  - apply sorted_unique_spec.
  - apply elem_of_all_regions.
  - apply sorted_unique_spec.
  - apply elem_of_all_countries.
Qed.

(** *** Filters *)

Lemma filter_sublist_impl {A : Type} (P1 P2 : A → Prop)
    `{!∀ x, Decision (P1 x), !∀ x, Decision (P2 x)} (l : list A) :
  (∀ x, P1 x → P2 x) → filter P1 l `sublist_of` filter P2 l.
Proof.
  intros Himpl. induction l as [|a l IH]; [done|].
  rewrite !filter_cons.
  destruct (decide (P1 a)) as [H1|H1], (decide (P2 a)) as [H2|H2].
  - by apply sublist_skip.
  - by destruct H2; apply Himpl.
  - by apply sublist_cons.
  - done.
Qed.

Lemma Timestamp_le (a b : Z) : Timestamp a ≤ Timestamp b ↔ a ≤ b.
Proof. unfold Timestamp. lia. Qed.

Lemma Timestamp_to_date_le (t : Z) : Timestamp (to_date t) ≤ t.
Proof.
  unfold Timestamp, to_date. rewrite Z.mul_comm. by apply Z.mul_div_le.
Qed.

Lemma Timestamp_to_date_midnight (t : Z) :
  t `mod` 86400000000000 = 0 → Timestamp (to_date t) = t.
Proof.
  intros Hmod. unfold Timestamp, to_date. rewrite Z.mul_comm.
  symmetry. by apply Z.div_exact.
Qed.

Lemma foldl_min_spec (xs : list Z) :
  ∀ x, foldl Z.min x xs ∈ x :: xs ∧ ∀ y, y ∈ x :: xs → foldl Z.min x xs ≤ y.
Proof.
  induction xs as [|z xs IH]; intros x; simpl.
  - split; [left|]. intros y Hy. apply list_elem_of_singleton in Hy. lia.
  - destruct (IH (Z.min x z)) as [Hin Hmin]. split.
    + apply elem_of_cons in Hin as [Heq|Hin]; [|by do 2 right].
      rewrite Heq. destruct (Z.min_spec x z) as [[_ ->]|[_ ->]];
        [|right]; left.
    + intros y Hy. assert (Hxz : foldl Z.min (Z.min x z) xs ≤ Z.min x z)
        by (apply Hmin; left).
      apply elem_of_cons in Hy as [->|Hy]; [lia|].
      apply elem_of_cons in Hy as [->|Hy]; [lia|].
      apply Hmin. by right.
Qed.

Lemma Date_min_spec (d : table) (lo : Z) :
  Date_min d = Some lo →
  (∃ r, r ∈ d ∧ Date r = Some lo) ∧
  ∀ r t, r ∈ d → Date r = Some t → lo ≤ t.
Proof.
  unfold Date_min. destruct (omap Date d) as [|x xs] eqn:E; [done|].
  intros [= <-]. destruct (foldl_min_spec xs x) as [Hin Hmin].
  rewrite <- E in Hin, Hmin. split.
  - apply list_elem_of_omap in Hin as (r & Hr & Ht). by exists r.
  - intros r t Hr Ht. apply Hmin, list_elem_of_omap. by exists r.
Qed.

Lemma Date_max_spec (d : table) (hi : Z) :
  Date_max d = Some hi →
  (∃ r, r ∈ d ∧ Date r = Some hi) ∧
  ∀ r t, r ∈ d → Date r = Some t → t ≤ hi.
Proof.
  unfold Date_max. intros [Hin Hmax]%fold1_max_spec. split.
  - apply list_elem_of_omap in Hin as (r & Hr & Ht). by exists r.
  - intros r t Hr Ht. apply Hmax, list_elem_of_omap. by exists r.
Qed.

Section ScriptExtras.
Variable sort_values : ∀ A : Type, (A → A → bool) → list A → list A.
Variable mean : list Z → float.

(** X6. With the widgets as they are first shown (all regions, no
    country, the range from the first to the last date of the table), the
    filtered view keeps the rows that have a WHO region and a date no
    later than midnight of the last day. When every date of the table is
    a midnight, as for a file of calendar dates, these are all the rows
    that have a region and a date. *)
Theorem default_selection_view (d : table) (lo hi : Z) :
  Date_min d = Some lo → Date_max d = Some hi →
  ∃ fd,
    filtered_data
      (script sort_values mean
         (Selection (default_regions true d) [] [to_date lo; to_date hi])
         (fresh d)).1 = Some fd ∧
    (∀ r, r ∈ fd ↔
       r ∈ d ∧ is_Some (WHO_Region r) ∧
       ∃ t, Date r = Some t ∧ t ≤ Timestamp (to_date hi)) ∧
    ((∀ r t, r ∈ d → Date r = Some t → t `mod` 86400000000000 = 0) →
     fd = filter (λ r, is_Some (WHO_Region r) ∧ is_Some (Date r)) d).
Proof.
  intros [_ Hlo]%Date_min_spec [(rhi & Hrhi & Hhi) Hmax]%Date_max_spec.
  rewrite script_spec. simpl. eexists. split; [done|].
  assert (Hsel : ∀ r, r ∈ d →
            selected (all_regions d) [] (to_date lo) (to_date hi) r ↔
            is_Some (WHO_Region r) ∧
            ∃ t, Date r = Some t ∧ t ≤ Timestamp (to_date hi)).
  { intros r Hr. rewrite selected_iff. split.
    - intros ((g & Hg & _) & (t & Ht & _ & Hle) & _).
      split; [by rewrite Hg|by exists t].
    - intros ([g Hg] & t & Ht & Hle). split_and!; [| |by left].
      + exists g. split; [done|]. apply elem_of_all_regions. by exists r.
      + exists t. split; [done|]. split; [|done].
        etrans; [apply Timestamp_to_date_le|]. by eapply Hlo. }
  split.
  - intros r. rewrite list_elem_of_filter. split.
    + intros [Hs Hr]. split; [done|]. by apply Hsel.
    + intros [Hr Hs]. split; [|done]. by apply Hsel.
  - intros Hmid. apply filter_iff_in. intros r Hr. rewrite (Hsel r Hr).
    rewrite (Timestamp_to_date_midnight hi (Hmid rhi hi Hrhi Hhi)).
    split.
    + intros [Hg (t & Ht & _)]. split; [done|]. by rewrite Ht.
    + intros [Hg [t Ht]]. split; [done|]. exists t. split; [done|].
      by eapply Hmax.
Qed.

(** The comparison of a timestamp with the midnights of two days, in
    terms of its calendar date and its time of day. *)
Lemma between_timestamps (s e t : Z) :
  Timestamp s ≤ t ≤ Timestamp e ↔
    s ≤ to_date t ∧
    (to_date t < e ∨ (to_date t = e ∧ t `mod` 86400000000000 = 0)).
Proof.
  unfold Timestamp, to_date.
  pose proof (Z.div_mod t 86400000000000) as Hdm.
  pose proof (Z.mod_pos_bound t 86400000000000) as Hbound.
  set (k := t `div` 86400000000000) in *.
  set (m := t `mod` 86400000000000) in *. lia.
Qed.

(** X19. The date filter compares timestamps: whatever the times of day
    in the Date column, a row passes it when its calendar date is one of
    the days from [s] to the day before [e], or when it is the midnight of
    [e] itself. A row of the last day with a later time of day is left
    out, as the record at noon of the second day of [noon] is. *)
Theorem filter_compares_timestamps (R C : list string) (s e : Z) (d : table) :
  (∃ fd,
     filtered_data (script sort_values mean (Selection R C [s; e]) (fresh d)).1
     = Some fd ∧
     ∀ r, r ∈ fd ↔
       r ∈ d ∧
       (∃ g, WHO_Region r = Some g ∧ g ∈ R) ∧
       (∃ t, Date r = Some t ∧ s ≤ to_date t ∧
             (to_date t < e ∨
              (to_date t = e ∧ t `mod` 86400000000000 = 0))) ∧
       (C = [] ∨ ∃ c, Country_Region r = Some c ∧ c ∈ C)) ∧
  to_date <$> omap Date MoreExamples.noon = [18322; 18323; 18323] ∧
  filtered_data
    (script sort_values mean (Selection ["Europe"] [] [18322; 18323])
       (fresh MoreExamples.noon)).1 = Some italy.
Proof.
  split; [|split; [by vm_compute|by rewrite script_spec; vm_compute]].
  rewrite script_spec. simpl. eexists. split; [done|].
  intros r. rewrite list_elem_of_filter, selected_iff.
  assert (Hdate :
    (∃ t, Date r = Some t ∧ Timestamp s ≤ t ≤ Timestamp e) ↔
    (∃ t, Date r = Some t ∧ s ≤ to_date t ∧
          (to_date t < e ∨ (to_date t = e ∧ t `mod` 86400000000000 = 0)))).
  { split; intros (t & Ht & Hin); exists t; (split; [done|]);
      by apply between_timestamps. }
  rewrite Hdate. tauto.
Qed.

(** X7. Narrowing the selection can only remove rows: with fewer
    regions, a shorter date range and, unless the wider selection has no
    country filter, a non-empty list of fewer countries, the filtered view
    is a sublist of the wider one. *)
Theorem narrower_selection_sublist (R R' C C' : list string) (s e s' e' : Z)
    (d : table) :
  R ⊆ R' → (C' = [] ∨ (C ≠ [] ∧ C ⊆ C')) → s' ≤ s → e ≤ e' →
  ∃ fd fd',
    filtered_data (script sort_values mean (Selection R C [s; e]) (fresh d)).1
    = Some fd ∧
    filtered_data (script sort_values mean (Selection R' C' [s'; e']) (fresh d)).1
    = Some fd' ∧
    fd `sublist_of` fd' ∧ fd' `sublist_of` d.
Proof.
  intros HR HC Hs He. rewrite !script_spec. simpl. eexists _, _.
  split; [done|]. split; [done|]. split; [|apply sublist_filter].
  apply filter_sublist_impl. intros r. rewrite !selected_iff.
  rewrite <- (Timestamp_le s' s) in Hs. rewrite <- (Timestamp_le e e') in He.
  intros ((g & Hg & HgR) & (t & Ht & Hts & Hte) & Hc). split_and!.
  - exists g. split; [done|]. by apply HR.
  - exists t. split; [done|]. lia.
  - destruct HC as [->|[Hne HC]]; [by left|]. right.
    destruct Hc as [->|(c & Hc & HcC)]; [done|].
    exists c. split; [done|]. by apply HC.
Qed.

Lemma script_longer_range (R C : list string) (s e : Z) (rest : list Z) :
  script sort_values mean (Selection R C (s :: e :: rest))
  = script sort_values mean (Selection R C [s; e]).
Proof. reflexivity. Qed.

(** X8. The script raises nothing but the IndexError of a date range
    with fewer than two dates: with two dates it runs to its end for
    every table and every selection. *)
Theorem script_raises_only_IndexError (sel : selection) (d : table) :
  (script sort_values mean sel (fresh d)).2
  = if decide (2 ≤ length (date_range sel))%nat then None
    else Some IndexError.
Proof.
  destruct sel as [R C [|s [|e rest]]].
  - done.
  - done.
  - by rewrite script_longer_range, script_spec.
Qed.

(** *** Conservation of the totals *)

Lemma foldr_add_fmap {A : Type} (a b : A → Z) (l : list A) :
  foldr Z.add 0 ((λ k, a k + b k) <$> l)
  = foldr Z.add 0 (a <$> l) + foldr Z.add 0 (b <$> l).
Proof. induction l as [|k l IH]; csimpl; [done|]. rewrite IH. lia. Qed.

Lemma foldr_add_pick (x : Z) (o : option Z) (ks : list Z) :
  NoDup ks →
  foldr Z.add 0 ((λ k, if decide (o = Some k) then x else 0) <$> ks)
  = match o with
    | Some t => if decide (t ∈ ks) then x else 0
    | None => 0
    end.
Proof.
  intros Hnd. induction ks as [|k ks IH]; csimpl; [by destruct o|].
  apply NoDup_cons in Hnd as [Hk Hnd]. rewrite IH by done.
  destruct o as [t|]; [|by rewrite decide_False].
  destruct (decide (Some t = Some k)) as [[= ->]|Hne].
  - rewrite decide_False, decide_True by (done || left). lia.
  - destruct (decide (t ∈ ks)) as [Hin|Hin].
    + rewrite decide_True by (by right). lia.
    + rewrite decide_False; [lia|].
      intros [->|?]%elem_of_cons; done.
Qed.

Lemma sum_of_rows_on_cons (f : row → Z) (r : row) (t : table) (k : Z) :
  sum_of f (rows_on (r :: t) k)
  = (if decide (Date r = Some k) then f r else 0) + sum_of f (rows_on t k).
Proof.
  unfold rows_on, sum_of. rewrite filter_cons.
  by destruct (decide (Date r = Some k)).
Qed.

(** The sums of the groups of distinct dates that cover the dates of the
    table add up to the sum over the rows that have a date. *)
Lemma sum_of_groups (f : row → Z) (ks : list Z) (t : table) :
  NoDup ks →
  (∀ r k, r ∈ t → Date r = Some k → k ∈ ks) →
  foldr Z.add 0 ((λ k, sum_of f (rows_on t k)) <$> ks)
  = sum_of f (filter (λ r, is_Some (Date r)) t).
Proof.
  intros Hnd. induction t as [|r t IH]; intros Hcover.
  - unfold rows_on, sum_of. simpl. clear.
    induction ks as [|k ks IHk]; csimpl; [done|]. by rewrite IHk.
  - rewrite (list_fmap_ext _
               (λ k, (if decide (Date r = Some k) then f r else 0)
                     + sum_of f (rows_on t k)) ks
               (λ _ k _, sum_of_rows_on_cons f r t k)).
    rewrite foldr_add_fmap, IH by (intros r' k Hr'; apply Hcover; by right).
    rewrite (foldr_add_pick (f r) (Date r) ks Hnd), filter_cons.
    destruct (Date r) as [tr|] eqn:Hr.
    + rewrite decide_True by (eapply Hcover; [left|done]).
      rewrite decide_True by done. unfold sum_of. by csimpl.
    + rewrite decide_False by (by intros [? ?]). lia.
Qed.

Lemma global_data_of_column (fd : table) (col : row → Z)
    (gcol : global_row → Z) :
  fits Confirmed fd → fits Deaths fd → fits Recovered fd →
  (∀ g, g ∈ global_data_of fd → gcol g = sum_of col (rows_on fd (gDate g))) →
  foldr Z.add 0 (gcol <$> global_data_of fd)
  = sum_of col (filter (λ r, is_Some (Date r)) fd).
Proof.
  intros Ha Hb Hc Hcol.
  rewrite <- (sum_of_groups col (gDate <$> global_data_of fd) fd).
  - rewrite <- list_fmap_compose. f_equal. apply list_fmap_ext.
    intros i g Hg. apply Hcol. by eapply list_elem_of_lookup_2.
  - pose proof (global_data_of_dates fd) as Hsorted.
    clear Hcol. induction Hsorted as [|k ks Hks IH Hk]; [constructor|].
    apply NoDup_cons. split; [|done]. intros Hin.
    eapply Forall_forall in Hk; [|exact Hin]. lia.
  - intros r k Hr Hk. apply list_elem_of_fmap.
    exists (GlobalRow k (sum_of Confirmed (rows_on fd k))
              (sum_of Deaths (rows_on fd k))
              (sum_of Recovered (rows_on fd k))).
    split; [done|]. apply elem_of_global_data_of; [done..|]. simpl.
    split; [by exists r|done].
Qed.

(** X9. Grouping by date loses nothing, for counts that add up within
    int64: the Confirmed, Deaths and Recovered columns of [global_data]
    add up to the sums of these columns over the filtered view. *)
Theorem global_data_conserves_totals (R C : list string) (s e : Z)
    (d : table) :
  fits Confirmed d → fits Deaths d → fits Recovered d →
  ∃ fd gd,
    filtered_data (script sort_values mean (Selection R C [s; e]) (fresh d)).1
    = Some fd ∧
    global_data (script sort_values mean (Selection R C [s; e]) (fresh d)).1
    = Some gd ∧
    foldr Z.add 0 (gConfirmed <$> gd) = sum_of Confirmed fd ∧
    foldr Z.add 0 (gDeaths <$> gd) = sum_of Deaths fd ∧
    foldr Z.add 0 (gRecovered <$> gd) = sum_of Recovered fd.
Proof.
  intros Ha Hb Hc.
  rewrite script_spec. simpl. eexists _, _. split; [done|]. split; [done|].
  set (fd := filter (selected R C s e) d).
  assert (Hfa : fits Confirmed fd) by (by apply fits_filter).
  assert (Hfb : fits Deaths fd) by (by apply fits_filter).
  assert (Hfc : fits Recovered fd) by (by apply fits_filter).
  assert (Hdated : filter (λ r, is_Some (Date r)) fd = fd).
  { unfold fd. rewrite list_filter_filter. apply list_filter_iff.
    intros r. split; [tauto|]. intros Hsel. split; [|done].
    apply selected_iff in Hsel as (_ & (t & -> & _) & _). done. }
  split_and!.
  - rewrite (global_data_of_column fd Confirmed), Hdated; [done..|].
    intros g Hg. apply elem_of_global_data_of in Hg; tauto.
  - rewrite (global_data_of_column fd Deaths), Hdated; [done..|].
    intros g Hg. apply elem_of_global_data_of in Hg; tauto.
  - rewrite (global_data_of_column fd Recovered), Hdated; [done..|].
    intros g Hg. apply elem_of_global_data_of in Hg; tauto.
Qed.

(** *** Sums that leave int64 *)

Lemma wrap64_range (z : Z) : int64_min ≤ wrap64 z ≤ int64_max.
Proof.
  unfold wrap64, int64_min, int64_max.
  pose proof (Z.mod_pos_bound (z + 2 ^ 63) (2 ^ 64)). lia.
Qed.

Lemma wrap64_add_l (a b : Z) : wrap64 (wrap64 a + b) = wrap64 (a + b).
Proof.
  unfold wrap64. f_equal.
  replace ((a + 2 ^ 63) `mod` 2 ^ 64 - 2 ^ 63 + b + 2 ^ 63)
    with ((a + 2 ^ 63) `mod` 2 ^ 64 + b) by lia.
  rewrite Zplus_mod_idemp_l. f_equal. lia.
Qed.

Lemma foldl_add3_wrap (rows : table) :
  ∀ x : Z * Z * Z,
    int64_min ≤ x.1.1 ≤ int64_max → int64_min ≤ x.1.2 ≤ int64_max →
    int64_min ≤ x.2 ≤ int64_max →
    foldl add3 x ((λ r, (Confirmed r, Deaths r, Recovered r)) <$> rows)
    = (wrap64 (x.1.1 + sum_of Confirmed rows),
       wrap64 (x.1.2 + sum_of Deaths rows),
       wrap64 (x.2 + sum_of Recovered rows)).
Proof.
  unfold sum_of.
  induction rows as [|r rows IH]; intros [[a b] c] Ha Hb Hc; csimpl in *.
  - by rewrite !Z.add_0_r, !wrap64_id.
  - unfold add3 at 2, add64. simpl.
    rewrite IH by (simpl; apply wrap64_range). simpl.
    rewrite !wrap64_add_l, !Z.add_assoc. done.
Qed.

(** X20. The sums of [global_data] are int64 sums: for counts that are
    int64 values, each is the sum over the filtered rows of its date
    brought back into int64 by wrap-around. Two counts of 2^62 on one day
    add up to -2^63. *)
Theorem global_data_wraps (R C : list string) (s e : Z) (d : table) :
  int64_counts d →
  (∃ fd gd,
     filtered_data (script sort_values mean (Selection R C [s; e]) (fresh d)).1
     = Some fd ∧
     global_data (script sort_values mean (Selection R C [s; e]) (fresh d)).1
     = Some gd ∧
     ∀ g, g ∈ gd →
       gConfirmed g = wrap64 (sum_of Confirmed (rows_on fd (gDate g))) ∧
       gDeaths g = wrap64 (sum_of Deaths (rows_on fd (gDate g))) ∧
       gRecovered g = wrap64 (sum_of Recovered (rows_on fd (gDate g)))) ∧
  sum_of Confirmed MoreExamples.large = 2 ^ 63 ∧
  global_data
    (script sort_values mean (Selection ["Europe"] [] [18322; 18322])
       (fresh MoreExamples.large)).1
  = Some [GlobalRow (Timestamp 18322) (- 2 ^ 63) 3 3].
Proof.
  intros Hcells.
  split; [|split; [by vm_compute|by rewrite script_spec; vm_compute]].
  rewrite script_spec. simpl. eexists _, _. split; [done|]. split; [done|].
  set (fd := filter (selected R C s e) d).
  intros g Hg. unfold global_data_of in Hg.
  apply list_elem_of_fmap in Hg as ([t [[c de] re]] & -> & Hin). simpl.
  apply elem_of_sort_index in Hin. rewrite groupby_agg_lookup in Hin.
  fold (rows_on fd t) in Hin.
  assert (Hsub : ∀ r, r ∈ rows_on fd t → r ∈ d).
  { intros r [_ [_ Hr]%list_elem_of_filter]%list_elem_of_filter. done. }
  destruct (rows_on fd t) as [|r0 rows]; [done|].
  simpl in Hin. destruct (Hcells r0) as (Ha & Hb & Hc); [apply Hsub; left|].
  rewrite foldl_add3_wrap in Hin by done.
  injection Hin as <- <- <-. unfold sum_of. by csimpl.
Qed.

(** *** What needs the sort to return its input *)

Hypothesis sort_values_perm :
  ∀ (A : Type) (before : A → A → bool) (l : list A),
    sort_values A before l ≡ₚ l.

(** X10. A date range whose end is before its start selects nothing: the
    script completes with an empty view, empty aggregates and no chart. *)
Theorem reversed_date_range_empty (R C : list string) (s e : Z) (d : table) :
  e < s →
  script sort_values mean (Selection R C [s; e]) (fresh d)
  = (Env d (Some (Timestamp s)) (Some (Timestamp e))
       (Some []) (Some []) (Some []) (Some []) [],
     None).
Proof.
  intros Hes. rewrite script_spec.
  assert (Hnil : filter (selected R C s e) d = []).
  { apply filter_nil_Forall. intros r _ (_ & (t & _ & Hs & He) & _)%selected_iff.
    assert (Hse : Timestamp s ≤ Timestamp e) by lia.
    rewrite Timestamp_le in Hse. lia. }
  simpl. rewrite Hnil. unfold region_deaths_of, top5_of, ranking_of.
  rewrite !groupby_agg_nil, !sort_index_empty. simpl.
  by rewrite !(sort_values_nil sort_values sort_values_perm).
Qed.

(** *** The mean per region *)

Lemma region_deaths_of_keys (fd : table) (g : string) :
  g ∈ (region_deaths_of sort_values mean fd).*1 ↔
    ∃ r, r ∈ fd ∧ WHO_Region r = Some g.
Proof.
  unfold region_deaths_of. rewrite sort_values_perm.
  rewrite <- list_fmap_compose.
  change (fst ∘ _) with (@fst string (list Z)).
  rewrite <- (groupby_agg_is_Some WHO_Region (λ r, [Deaths r]) app fd g).
  rewrite list_elem_of_fmap. split.
  - intros ([g' v] & -> & Hin). apply elem_of_sort_index in Hin.
    simpl. by rewrite Hin.
  - intros [v Hv]. exists (g, v). split; [done|].
    by apply elem_of_sort_index.
Qed.

(** X11. [region_deaths] has one row for each WHO region that occurs in
    the filtered view and no other row. *)
Theorem region_deaths_regions (R C : list string) (s e : Z) (d : table) :
  ∃ fd rd,
    filtered_data (script sort_values mean (Selection R C [s; e]) (fresh d)).1
    = Some fd ∧
    region_deaths (script sort_values mean (Selection R C [s; e]) (fresh d)).1
    = Some rd ∧
    NoDup rd.*1 ∧
    ∀ g, g ∈ rd.*1 ↔ ∃ r, r ∈ fd ∧ WHO_Region r = Some g.
Proof.
  rewrite script_spec. simpl. eexists _, _. split; [done|]. split; [done|].
  split.
  - unfold region_deaths_of. rewrite sort_values_perm.
    rewrite <- list_fmap_compose.
    change (fst ∘ _) with (@fst string (list Z)). apply NoDup_sort_index.
  - apply region_deaths_of_keys.
Qed.

(** *** The ranking and the pies *)

Lemma has_rows_is_max (fd : table) (c : string) :
  (∃ r, r ∈ fd ∧ Country_Region r = Some c) →
  ∃ m, is_max_confirmed fd c m.
Proof.
  intros Hr.
  apply (groupby_agg_is_Some Country_Region Confirmed Z.max) in Hr as [m Hm].
  exists m. by apply groupby_max_is_max.
Qed.

Lemma elem_of_ranking_countries (fd : table) (c : string) :
  c ∈ (ranking_of sort_values fd).*1 ↔ c ∈ all_countries fd.
Proof.
  rewrite elem_of_all_countries, list_elem_of_fmap. split.
  - intros ([c' m] & -> & Hin).
    apply (elem_of_ranking_of sort_values sort_values_perm) in Hin
      as [(r & Hr & Hc & _) _].
    by exists r.
  - intros [m Hm]%has_rows_is_max. exists (c, m). split; [done|].
    by apply (elem_of_ranking_of sort_values sort_values_perm).
Qed.

(** X13. The ranking has five countries, or all the countries of the
    filtered view when there are fewer than five of them. *)
Theorem top5_length (R C : list string) (s e : Z) (d : table) :
  ∃ fd l,
    filtered_data (script sort_values mean (Selection R C [s; e]) (fresh d)).1
    = Some fd ∧
    top5 (script sort_values mean (Selection R C [s; e]) (fresh d)).1 = Some l ∧
    length l = (5 `min` length (all_countries fd))%nat ∧
    ((length (all_countries fd) ≤ 5)%nat →
     ∀ c, c ∈ l ↔ ∃ r, r ∈ fd ∧ Country_Region r = Some c).
Proof.
  rewrite script_spec. simpl. eexists _, _. split; [done|]. split; [done|].
  set (fd := filter (selected R C s e) d).
  assert (Hperm : (ranking_of sort_values fd).*1 ≡ₚ all_countries fd).
  { apply NoDup_Permutation.
    - apply (NoDup_ranking_of sort_values sort_values_perm).
    - apply sorted_unique_spec.
    - apply elem_of_ranking_countries. }
  assert (Hlen : length (ranking_of sort_values fd)
                 = length (all_countries fd))
    by (by rewrite <- (length_fmap fst), Hperm).
  split.
  - unfold top5_of. by rewrite length_fmap, length_take, Hlen.
  - intros Hfew c. unfold top5_of.
    rewrite take_ge by lia. by rewrite elem_of_ranking_countries,
      elem_of_all_countries.
Qed.

Lemma pies_from_columns (fd : table) (cs : list string) :
  (∀ c, c ∈ cs → subset_of fd c ≠ []) →
  ∀ i, pie_column <$> pies_from fd i cs = seq i (length cs) ∧
       pie_title <$> pies_from fd i cs
       = (λ c, c +:+ " Case Distribution") <$> cs.
Proof.
  induction cs as [|c cs IH]; intros Hrows i; [done|].
  destruct (IH (λ c' Hc', Hrows c' (list_elem_of_further _ _ _ Hc')) (S i))
    as [Hcol Htitle].
  simpl. rewrite !fmap_app, Hcol, Htitle. unfold pie_of.
  destruct (last (subset_of fd c)) as [r|] eqn:Hlast; [done|].
  apply last_None in Hlast. destruct (Hrows c); [left|done].
Qed.

(** X14. In a run with two dates every country of the ranking gets its
    pie: the pies fill the columns from the left, one for each country of
    the ranking in its order, titled by the country. *)
Theorem pies_fill_columns (R C : list string) (s e : Z) (d : table) :
  ∃ l,
    top5 (script sort_values mean (Selection R C [s; e]) (fresh d)).1 = Some l ∧
    pie_column
      <$> charts (script sort_values mean (Selection R C [s; e]) (fresh d)).1
    = seq 0 (length l) ∧
    pie_title
      <$> charts (script sort_values mean (Selection R C [s; e]) (fresh d)).1
    = (λ c, c +:+ " Case Distribution") <$> l.
Proof.
  rewrite script_spec. simpl. eexists. split; [done|].
  apply pies_from_columns. intros c Hc.
  assert (Hin : c ∈ (ranking_of sort_values (filter (selected R C s e) d)).*1).
  { unfold top5_of in Hc. rewrite fmap_take in Hc.
    by apply subseteq_take in Hc. }
  apply elem_of_ranking_countries, elem_of_all_countries in Hin
    as (r & Hr & Hcr).
  intros Hnil. apply (filter_nil_not_elem_of _ _ r Hnil); [|done].
  by apply bool_decide_pack.
Qed.

End ScriptExtras.

End EngineExtras.

Module ExtraExamples.
Import Engine Sidebar Examples EngineFacts EngineExtras.

(** X6 on the records of Italy. *)
Lemma default_selection_view_witness :
  ∃ fd,
    filtered_data
      (script stable_sort float_mean
         (Selection (default_regions true italy) []
            [to_date (Timestamp 18322); to_date (Timestamp 18323)])
         (fresh italy)).1 = Some fd ∧
    (∀ r, r ∈ fd ↔
       r ∈ italy ∧ is_Some (WHO_Region r) ∧
       ∃ t, Date r = Some t ∧ t ≤ Timestamp (to_date (Timestamp 18323))) ∧
    ((∀ r t, r ∈ italy → Date r = Some t → t `mod` 86400000000000 = 0) →
     fd = filter (λ r, is_Some (WHO_Region r) ∧ is_Some (Date r)) italy).
Proof.
  apply (default_selection_view stable_sort float_mean italy
           (Timestamp 18322) (Timestamp 18323)).
  - reflexivity.
  - reflexivity.
Defined.

(** X7: one country and one day, within all of Europe and Africa on two
    days. *)
Lemma narrower_selection_sublist_witness :
  ∃ fd fd',
    filtered_data
      (script stable_sort float_mean (Selection ["Europe"] ["Italy"] [18323; 18323])
         (fresh italy)).1 = Some fd ∧
    filtered_data
      (script stable_sort float_mean (Selection ["Africa"; "Europe"] [] [18322; 18323])
         (fresh italy)).1 = Some fd' ∧
    fd `sublist_of` fd' ∧ fd' `sublist_of` italy.
Proof.
  apply (narrower_selection_sublist stable_sort float_mean ["Europe"]
           ["Africa"; "Europe"] ["Italy"] [] 18323 18323 18322 18323 italy).
  - intros g Hg. by right.
  - by left.
  - lia.
  - lia.
Defined.

(** X9 on the records of Italy. *)
Lemma global_data_conserves_totals_witness :
  ∃ fd gd,
    filtered_data
      (script stable_sort float_mean (Selection ["Europe"] [] [18322; 18323])
         (fresh italy)).1 = Some fd ∧
    global_data
      (script stable_sort float_mean (Selection ["Europe"] [] [18322; 18323])
         (fresh italy)).1 = Some gd ∧
    foldr Z.add 0 (gConfirmed <$> gd) = sum_of Confirmed fd ∧
    foldr Z.add 0 (gDeaths <$> gd) = sum_of Deaths fd ∧
    foldr Z.add 0 (gRecovered <$> gd) = sum_of Recovered fd.
Proof.
  apply (global_data_conserves_totals stable_sort float_mean ["Europe"] []
           18322 18323 italy); by vm_compute.
Defined.

(** X20 on the two large counts. *)
Lemma global_data_wraps_witness :
  (∃ fd gd,
     filtered_data
       (script stable_sort float_mean (Selection ["Europe"] [] [18322; 18322])
          (fresh MoreExamples.large)).1 = Some fd ∧
     global_data
       (script stable_sort float_mean (Selection ["Europe"] [] [18322; 18322])
          (fresh MoreExamples.large)).1 = Some gd ∧
     ∀ g, g ∈ gd →
       gConfirmed g = wrap64 (sum_of Confirmed (rows_on fd (gDate g))) ∧
       gDeaths g = wrap64 (sum_of Deaths (rows_on fd (gDate g))) ∧
       gRecovered g = wrap64 (sum_of Recovered (rows_on fd (gDate g)))) ∧
  sum_of Confirmed MoreExamples.large = 2 ^ 63 ∧
  global_data
    (script stable_sort float_mean (Selection ["Europe"] [] [18322; 18322])
       (fresh MoreExamples.large)).1
  = Some [GlobalRow (Timestamp 18322) (- 2 ^ 63) 3 3].
Proof.
  apply (global_data_wraps stable_sort float_mean ["Europe"] []
           18322 18322 MoreExamples.large).
  intros r Hr. unfold MoreExamples.large in Hr.
  repeat (apply elem_of_cons in Hr as [->|Hr]);
    [by vm_compute..|by apply elem_of_nil in Hr].
Defined.

(** X10: the two dates exchanged. *)
Lemma reversed_date_range_empty_witness :
  script stable_sort float_mean (Selection ["Europe"] [] [18323; 18322]) (fresh italy)
  = (Env italy (Some (Timestamp 18323)) (Some (Timestamp 18322))
       (Some []) (Some []) (Some []) (Some []) [],
     None).
Proof.
  apply (reversed_date_range_empty stable_sort float_mean stable_sort_perm
           ["Europe"] [] 18323 18322 italy).
  lia.
Defined.

(** X11 on the two tied countries. *)
Lemma region_deaths_regions_witness :
  ∃ fd rd,
    filtered_data
      (script stable_sort float_mean (Selection ["Africa"; "Europe"] [] [18322; 18322])
         (fresh ties)).1 = Some fd ∧
    region_deaths
      (script stable_sort float_mean (Selection ["Africa"; "Europe"] [] [18322; 18322])
         (fresh ties)).1 = Some rd ∧
    NoDup rd.*1 ∧
    ∀ g, g ∈ rd.*1 ↔ ∃ r, r ∈ fd ∧ WHO_Region r = Some g.
Proof.
  apply (region_deaths_regions stable_sort float_mean stable_sort_perm
           ["Africa"; "Europe"] [] 18322 18322 ties).
Defined.

(** X13 on the two tied countries. *)
Lemma top5_length_witness :
  ∃ fd l,
    filtered_data
      (script stable_sort float_mean (Selection ["Africa"; "Europe"] [] [18322; 18322])
         (fresh ties)).1 = Some fd ∧
    top5
      (script stable_sort float_mean (Selection ["Africa"; "Europe"] [] [18322; 18322])
         (fresh ties)).1 = Some l ∧
    length l = (5 `min` length (all_countries fd))%nat ∧
    ((length (all_countries fd) ≤ 5)%nat →
     ∀ c, c ∈ l ↔ ∃ r, r ∈ fd ∧ Country_Region r = Some c).
Proof.
  apply (top5_length stable_sort float_mean stable_sort_perm
           ["Africa"; "Europe"] [] 18322 18322 ties).
Defined.

(** X14 on the two tied countries. *)
Lemma pies_fill_columns_witness :
  ∃ l,
    top5
      (script stable_sort float_mean (Selection ["Africa"; "Europe"] [] [18322; 18322])
         (fresh ties)).1 = Some l ∧
    pie_column
      <$> charts
            (script stable_sort float_mean
               (Selection ["Africa"; "Europe"] [] [18322; 18322])
               (fresh ties)).1
    = seq 0 (length l) ∧
    pie_title
      <$> charts
            (script stable_sort float_mean
               (Selection ["Africa"; "Europe"] [] [18322; 18322])
               (fresh ties)).1
    = (λ c, c +:+ " Case Distribution") <$> l.
Proof.
  apply (pies_fill_columns stable_sort float_mean stable_sort_perm
           ["Africa"; "Europe"] [] 18322 18322 ties).
Defined.

End ExtraExamples.

(** ** Properties of the charts of the snapshot table *)

Module WorldFacts.
Import Engine EngineFacts World.

Section GroupByFacts.
Context {K V : Type} `{Countable K}.
Variables (key : wrow → option K) (val : wrow → V) (op : V → V → V).

Lemma world_groupby_lookup (t : list wrow) (k : K) :
  groupby_agg key val op t !! k
  = fold1 op (val <$> filter (λ r, key r = Some k) t).
Proof.
  induction t as [|r t IH] using rev_ind; [done|].
  unfold groupby_agg in *. rewrite foldl_snoc, filter_app, fmap_app.
  unfold agg_step at 1. rewrite filter_cons, filter_nil.
  destruct (key r) as [k'|] eqn:Hk.
  - destruct (decide (k' = k)) as [->|Hne].
    + rewrite lookup_insert_eq, decide_True by done.
      simpl. by rewrite fold1_snoc, IH.
    + rewrite lookup_insert_ne by done. rewrite decide_False by congruence.
      by rewrite app_nil_r.
  - rewrite decide_False by congruence. by rewrite app_nil_r.
Qed.

End GroupByFacts.

Lemma rows_of_nonempty (wd : list wrow) (c : string) :
  rows_of wd c ≠ [] ↔ ∃ r, r ∈ wd ∧ Country r = Some c.
Proof.
  unfold rows_of. split.
  - destruct (filter _ wd) as [|r rows] eqn:E; [done|]. intros _.
    assert (Hr : r ∈ filter (λ r, Country r = Some c) wd) by (rewrite E; left).
    apply list_elem_of_filter in Hr as [? ?]. by exists r.
  - intros (r & Hr & Hc) Hnil. by apply (filter_nil_not_elem_of _ _ r Hnil).
Qed.

(** *** Sums in int64 *)

Lemma sum_abs_nonneg (m : metric) (rows : list wrow) :
  0 ≤ foldr Z.add 0 ((λ r, Z.abs (present m r)) <$> rows).
Proof. induction rows as [|r rows IH]; csimpl; lia. Qed.

Lemma fits_rows_of (m : metric) (wd : list wrow) (c : string) :
  fits m wd → fits m (rows_of wd c).
Proof.
  unfold fits, rows_of. intros Hfits.
  assert (Hle : foldr Z.add 0 ((λ r, Z.abs (present m r))
                                 <$> filter (λ r, Country r = Some c) wd)
                ≤ foldr Z.add 0 ((λ r, Z.abs (present m r)) <$> wd)).
  { clear Hfits. induction wd as [|r wd IH]; [done|].
    rewrite filter_cons. destruct (decide (Country r = Some c)); csimpl; lia. }
  lia.
Qed.

Lemma foldl_add64_present (m : metric) (rows : list wrow) :
  ∀ x, Z.abs x + foldr Z.add 0 ((λ r, Z.abs (present m r)) <$> rows)
       ≤ int64_max →
       foldl add64 x (present m <$> rows) = x + sum_present m rows.
Proof.
  unfold sum_present.
  induction rows as [|r rows IH]; intros x Hx; csimpl in *; [lia|].
  pose proof (sum_abs_nonneg m rows) as Hnn.
  unfold add64 at 2.
  rewrite wrap64_id by (unfold int64_min, int64_max in *; lia).
  rewrite IH by lia. lia.
Qed.

Lemma fold1_add64_present (m : metric) (rows : list wrow) :
  rows ≠ [] → fits m rows →
  fold1 add64 (present m <$> rows) = Some (sum_present m rows).
Proof.
  destruct rows as [|r rows]; [done|]. intros _. unfold fits.
  csimpl. intros Hfits. f_equal. rewrite foldl_add64_present by done.
  unfold sum_present. by csimpl.
Qed.

(** The sum kept for a country, for values that add up within int64. *)
Lemma groupby_sum_lookup (m : metric) (wd : list wrow) (c : string) (v : Z) :
  fits m wd →
  groupby_agg Country (present m) add64 wd !! c = Some v ↔
    (∃ r, r ∈ wd ∧ Country r = Some c) ∧ v = sum_present m (rows_of wd c).
Proof.
  intros Hfits. rewrite world_groupby_lookup, <- rows_of_nonempty.
  fold (rows_of wd c).
  destruct (decide (rows_of wd c = [])) as [Hnil|Hrows].
  - rewrite Hnil. simpl. split; [done|]. by intros [? _].
  - rewrite fold1_add64_present by (done || by apply fits_rows_of).
    split; [intros [= <-]|intros [_ ->]]; done.
Qed.

Lemma foldl_add4 (rows : list wrow) :
  ∀ x : Z * Z * Z * Z,
    (∀ m, Z.abs (get m x)
          + foldr Z.add 0 ((λ r, Z.abs (present m r)) <$> rows)
          ≤ int64_max) →
    foldl add4 x
      ((λ r, (present MTests r, present MCases r,
              present MDeaths r, present MRecovered r)) <$> rows)
    = (x.1.1.1 + sum_present MTests rows, x.1.1.2 + sum_present MCases rows,
       x.1.2 + sum_present MDeaths rows, x.2 + sum_present MRecovered rows).
Proof.
  unfold sum_present.
  induction rows as [|r rows IH]; intros [[[a b] c] e] Hx.
  - simpl. by rewrite !Z.add_0_r.
  - pose proof (Hx MTests) as H1. pose proof (Hx MCases) as H2.
    pose proof (Hx MDeaths) as H3. pose proof (Hx MRecovered) as H4.
    pose proof (sum_abs_nonneg MTests rows) as N1.
    pose proof (sum_abs_nonneg MCases rows) as N2.
    pose proof (sum_abs_nonneg MDeaths rows) as N3.
    pose proof (sum_abs_nonneg MRecovered rows) as N4.
    csimpl in *. unfold add4 at 2, add64. simpl.
    rewrite !wrap64_id by (unfold int64_min, int64_max in *; lia).
    rewrite IH.
    + simpl. f_equal; [f_equal; [f_equal|]|]; lia.
    + intros []; simpl; lia.
Qed.

Lemma groupby_sums_lookup (wd : list wrow) (c : string) (v : Z * Z * Z * Z) :
  (∀ m, fits m wd) →
  groupby_agg Country
    (λ r, (present MTests r, present MCases r,
           present MDeaths r, present MRecovered r)) add4 wd !! c = Some v ↔
    (∃ r, r ∈ wd ∧ Country r = Some c) ∧
    ∀ m, get m v = sum_present m (rows_of wd c).
Proof.
  intros Hfits. rewrite world_groupby_lookup, <- rows_of_nonempty.
  pose proof (λ m, fits_rows_of m wd c (Hfits m)) as Hrows.
  unfold rows_of in *.
  destruct (filter (λ r, Country r = Some c) wd) as [|r rows]; simpl.
  - split; [done|]. by intros [? _].
  - rewrite foldl_add4.
    2:{ intros m. specialize (Hrows m). unfold fits in Hrows.
        csimpl in Hrows. by destruct m. }
    unfold sum_present. csimpl. split.
    + intros [= <-]. split; [done|]. by intros []; simpl.
    + intros [_ Hget]. destruct v as [[[a b] c'] e]. f_equal.
      pose proof (Hget MTests) as H1. pose proof (Hget MCases) as H2.
      pose proof (Hget MDeaths) as H3. pose proof (Hget MRecovered) as H4.
      simpl in *. by rewrite H1, H2, H3, H4.
Qed.

(** *** melt *)

Lemma melt_unfold (wide : list (string * (Z * Z * Z * Z))) :
  melt wide
  = melt_block MTests wide ++ melt_block MCases wide
    ++ melt_block MDeaths wide ++ melt_block MRecovered wide.
Proof. unfold melt, metrics. csimpl. by rewrite app_nil_r. Qed.

Section ChartFacts.
Variable sort_values : ∀ A : Type, (A → A → bool) → list A → list A.

Hypothesis sort_values_perm :
  ∀ (A : Type) (before : A → A → bool) (l : list A),
    sort_values A before l ≡ₚ l.

(** *** One row per country *)

Lemma rows_of_unique (wd : list wrow) (r : wrow) (c : string) :
  NoDup (omap Country wd) → r ∈ wd → Country r = Some c →
  rows_of wd c = [r].
Proof.
  unfold rows_of. induction wd as [|r0 wd IH]; intros Hnd Hr Hc.
  - by apply elem_of_nil in Hr.
  - rewrite filter_cons. csimpl in Hnd.
    destruct (Country r0) as [c0|] eqn:Hc0.
    + apply NoDup_cons in Hnd as [Hc0' Hnd].
      destruct (decide (Some c0 = Some c)) as [[= ->]|Hne].
      * assert (Hnone : filter (λ r, Country r = Some c) wd = []).
        { apply filter_nil_Forall. intros r' Hr' Hc'.
          apply Hc0'.
          apply list_elem_of_omap. by exists r'. }
        rewrite Hnone. apply elem_of_cons in Hr as [->|Hr]; [done|].
        destruct Hc0'. apply list_elem_of_omap. by exists r.
      * apply elem_of_cons in Hr as [->|Hr]; [congruence|]. by apply IH.
    + rewrite decide_False by done.
      apply elem_of_cons in Hr as [->|Hr]; [congruence|]. by apply IH.
Qed.

(** X18. When no country has two rows, as in the snapshot file, the
    number of a bar is the cell of the country itself, and zero when
    that cell is missing. *)
Theorem df_metric_one_row_per_country (m : metric) (wd : list wrow) :
  NoDup (omap Country wd) →
  ∀ c v, (c, v) ∈ df_metric sort_values m wd →
    ∃ r, r ∈ wd ∧ Country r = Some c ∧ v = default 0 (cell m r).
Proof.
  intros Hnd c v Hcv. unfold df_metric in Hcv. apply subseteq_take in Hcv.
  rewrite sort_values_perm, elem_of_sort_index in Hcv.
  rewrite world_groupby_lookup in Hcv. fold (rows_of wd c) in Hcv.
  destruct (decide (rows_of wd c = [])) as [Hnil|Hrows];
    [by rewrite Hnil in Hcv|].
  apply rows_of_nonempty in Hrows as (r & Hr & Hc).
  rewrite (rows_of_unique wd r c Hnd Hr Hc) in Hcv.
  injection Hcv as <-. by exists r.
Qed.

Hypothesis sort_values_sorted :
  ∀ (A : Type) (before : A → A → bool) (l : list A),
    (∀ a b c, before a b → before b c → before a c) →
    (∀ a b, before a b ∨ before b a) →
    StronglySorted (λ a b, before a b) (sort_values A before l).

(** The frame of lines 174-179, before [head]. *)
Lemma df_metric_take (m : metric) (wd : list wrow) :
  fits m wd →
  ∃ full,
    df_metric sort_values m wd = take 10 full ∧
    NoDup full.*1 ∧
    StronglySorted (λ a b : string * Z, b.2 ≤ a.2) full ∧
    ∀ c v, (c, v) ∈ full ↔
      (∃ r, r ∈ wd ∧ Country r = Some c) ∧ v = sum_present m (rows_of wd c).
Proof.
  intros Hfits. eexists. split; [reflexivity|]. split_and!.
  - rewrite sort_values_perm. apply NoDup_sort_index.
  - eapply StronglySorted_mono; [|apply sort_values_sorted].
    + intros a b Hab. by apply bool_decide_unpack in Hab.
    + intros a b c Hab Hbc. apply bool_decide_unpack in Hab, Hbc.
      apply bool_decide_pack. lia.
    + intros a b. destruct (Z.le_ge_cases a.2 b.2);
        [right|left]; by apply bool_decide_pack.
  - intros c v. rewrite sort_values_perm, elem_of_sort_index.
    by apply groupby_sum_lookup.
Qed.

(** X15, for values that add up within int64. A bar chart of lines
    173-204 shows at most ten countries, each once, with the sum of the
    present values of the metric over the rows of the country, in
    descending order of that sum; a country that is not shown has a sum
    that is at most each of the ten. *)
Theorem df_metric_top10 (m : metric) (wd : list wrow) :
  fits m wd →
  (length (df_metric sort_values m wd) ≤ 10)%nat ∧
  NoDup (df_metric sort_values m wd).*1 ∧
  StronglySorted (λ a b : string * Z, b.2 ≤ a.2) (df_metric sort_values m wd) ∧
  (∀ c v, (c, v) ∈ df_metric sort_values m wd →
     (∃ r, r ∈ wd ∧ Country r = Some c) ∧ v = sum_present m (rows_of wd c)) ∧
  (∀ c r, r ∈ wd → Country r = Some c →
     c ∉ (df_metric sort_values m wd).*1 →
     length (df_metric sort_values m wd) = 10%nat ∧
     Forall (λ p, sum_present m (rows_of wd c) ≤ p.2)
       (df_metric sort_values m wd)).
Proof.
  intros Hfits.
  destruct (df_metric_take m wd Hfits) as (full & -> & Hnd & Hsorted & Hin).
  assert (Hfull : full = take 10 full ++ drop 10 full)
    by (by rewrite take_drop).
  rewrite Hfull in Hsorted. split_and!.
  - rewrite length_take. lia.
  - rewrite fmap_take. eapply sublist_NoDup; [exact Hnd|apply sublist_take].
  - by eapply StronglySorted_app_1_l.
  - intros c v Hcv. by apply Hin, (subseteq_take 10 full).
  - intros c r Hr Hc Hnot.
    assert (Hcv : (c, sum_present m (rows_of wd c)) ∈ full)
      by (apply Hin; split; [by exists r|done]).
    rewrite Hfull in Hcv. apply elem_of_app in Hcv as [Hcv|Hcv].
    { destruct Hnot. apply list_elem_of_fmap. by eexists (c, _). }
    split.
    + rewrite length_take.
      assert (length (drop 10 full) ≠ 0%nat)
        by (destruct (drop 10 full); [by apply elem_of_nil in Hcv|done]).
      rewrite length_drop in *. lia.
    + apply Forall_forall. intros p Hp.
      by apply (StronglySorted_app_1_elem_of _ _ _ p
                  (c, sum_present m (rows_of wd c)) Hsorted).
Qed.

Lemma totals_grouped_take (wd : list wrow) :
  (∀ m, fits m wd) →
  ∃ full,
    totals_grouped sort_values wd = take 10 full ∧
    NoDup full.*1 ∧
    StronglySorted
      (λ a b : string * (Z * Z * Z * Z), get MDeaths b.2 ≤ get MDeaths a.2)
      full ∧
    ∀ c v, (c, v) ∈ full ↔
      (∃ r, r ∈ wd ∧ Country r = Some c) ∧
      ∀ m, get m v = sum_present m (rows_of wd c).
Proof.
  intros Hfits. eexists. split; [reflexivity|]. split_and!.
  - rewrite sort_values_perm. apply NoDup_sort_index.
  - eapply StronglySorted_mono; [|apply sort_values_sorted].
    + intros a b Hab. by apply bool_decide_unpack in Hab.
    + intros a b c Hab Hbc. apply bool_decide_unpack in Hab, Hbc.
      apply bool_decide_pack. lia.
    + intros a b.
      destruct (Z.le_ge_cases (get MDeaths a.2) (get MDeaths b.2));
        [right|left]; by apply bool_decide_pack.
  - intros c v. rewrite sort_values_perm, elem_of_sort_index.
    by apply groupby_sums_lookup.
Qed.

(** X16, for values that add up within int64. The frame of the combined
    chart has at most ten countries, each once, in descending order of
    their sum of deaths; its four numbers for a country are the sums of
    the present values of the four metrics over the rows of the country,
    and so agree with the bar charts of the single metrics wherever these
    show the country. The long frame made of it has, for each of the four
    metrics in the order of line 211, one row per country in the order of
    the frame, with the name of the metric and the country's number. *)
Theorem totals_grouped_top10 (wd : list wrow) :
  (∀ m, fits m wd) →
  (length (totals_grouped sort_values wd) ≤ 10)%nat ∧
  NoDup (totals_grouped sort_values wd).*1 ∧
  StronglySorted
    (λ a b : string * (Z * Z * Z * Z), get MDeaths b.2 ≤ get MDeaths a.2)
    (totals_grouped sort_values wd) ∧
  (∀ c v, (c, v) ∈ totals_grouped sort_values wd →
     (∃ r, r ∈ wd ∧ Country r = Some c) ∧
     ∀ m, get m v = sum_present m (rows_of wd c)) ∧
  (∀ c v m x, (c, v) ∈ totals_grouped sort_values wd →
     (c, x) ∈ df_metric sort_values m wd → get m v = x) ∧
  totals_melted sort_values wd
  = ((λ row, (row.1, "TotalTests", sum_present MTests (rows_of wd row.1)))
       <$> totals_grouped sort_values wd)
    ++ ((λ row, (row.1, "TotalCases", sum_present MCases (rows_of wd row.1)))
          <$> totals_grouped sort_values wd)
    ++ ((λ row, (row.1, "TotalDeaths", sum_present MDeaths (rows_of wd row.1)))
          <$> totals_grouped sort_values wd)
    ++ ((λ row, (row.1, "TotalRecovered",
                 sum_present MRecovered (rows_of wd row.1)))
          <$> totals_grouped sort_values wd).
Proof.
  intros Hfits. unfold totals_melted.
  destruct (totals_grouped_take wd Hfits) as (full & -> & Hnd & Hsorted & Hin).
  assert (Hsums : ∀ c v, (c, v) ∈ take 10 full →
            (∃ r, r ∈ wd ∧ Country r = Some c) ∧
            ∀ m, get m v = sum_present m (rows_of wd c))
    by (intros c v Hcv; by apply Hin, (subseteq_take 10 full)).
  split_and!.
  - rewrite length_take. lia.
  - rewrite fmap_take. eapply sublist_NoDup; [exact Hnd|apply sublist_take].
  - rewrite <- (take_drop 10 full) in Hsorted.
    by eapply StronglySorted_app_1_l.
  - exact Hsums.
  - intros c v m x Hcv Hcx.
    destruct (df_metric_take m wd (Hfits m)) as (fullm & Hm & _ & _ & Hinm).
    rewrite Hm in Hcx. apply (subseteq_take 10 fullm), Hinm in Hcx as [_ ->].
    by apply Hsums.
  - rewrite melt_unfold. unfold melt_block.
    assert (Hblock : ∀ m,
              (λ row : string * (Z * Z * Z * Z),
                 (row.1, metric_name m, get m row.2)) <$> take 10 full
              = (λ row, (row.1, metric_name m,
                         sum_present m (rows_of wd row.1))) <$> take 10 full).
    { intros m. apply list_fmap_ext. intros i [c v] Hi. simpl.
      f_equal. apply Hsums. by eapply list_elem_of_lookup_2. }
    by rewrite !Hblock.
Qed.

End ChartFacts.

End WorldFacts.

Module WorldExamples.
Import Engine EngineFacts World WorldFacts MoreExamples.

(** X15 on three rows, for the deaths. *)
Lemma df_metric_top10_witness :
  (length (df_metric stable_sort MDeaths world_rows) ≤ 10)%nat ∧
  NoDup (df_metric stable_sort MDeaths world_rows).*1 ∧
  StronglySorted (λ a b : string * Z, b.2 ≤ a.2)
    (df_metric stable_sort MDeaths world_rows) ∧
  (∀ c v, (c, v) ∈ df_metric stable_sort MDeaths world_rows →
     (∃ r, r ∈ world_rows ∧ Country r = Some c) ∧
     v = sum_present MDeaths (rows_of world_rows c)) ∧
  (∀ c r, r ∈ world_rows → Country r = Some c →
     c ∉ (df_metric stable_sort MDeaths world_rows).*1 →
     length (df_metric stable_sort MDeaths world_rows) = 10%nat ∧
     Forall (λ p, sum_present MDeaths (rows_of world_rows c) ≤ p.2)
       (df_metric stable_sort MDeaths world_rows)).
Proof.
  apply (df_metric_top10 stable_sort stable_sort_perm stable_sort_sorted
           MDeaths world_rows).
  by vm_compute.
Defined.

(** X16 on three rows. *)
Lemma totals_grouped_top10_witness :
  (length (totals_grouped stable_sort world_rows) ≤ 10)%nat ∧
  NoDup (totals_grouped stable_sort world_rows).*1 ∧
  StronglySorted
    (λ a b : string * (Z * Z * Z * Z), get MDeaths b.2 ≤ get MDeaths a.2)
    (totals_grouped stable_sort world_rows) ∧
  (∀ c v, (c, v) ∈ totals_grouped stable_sort world_rows →
     (∃ r, r ∈ world_rows ∧ Country r = Some c) ∧
     ∀ m, get m v = sum_present m (rows_of world_rows c)) ∧
  (∀ c v m x, (c, v) ∈ totals_grouped stable_sort world_rows →
     (c, x) ∈ df_metric stable_sort m world_rows → get m v = x) ∧
  totals_melted stable_sort world_rows
  = ((λ row, (row.1, "TotalTests",
              sum_present MTests (rows_of world_rows row.1)))
       <$> totals_grouped stable_sort world_rows)
    ++ ((λ row, (row.1, "TotalCases",
                 sum_present MCases (rows_of world_rows row.1)))
          <$> totals_grouped stable_sort world_rows)
    ++ ((λ row, (row.1, "TotalDeaths",
                 sum_present MDeaths (rows_of world_rows row.1)))
          <$> totals_grouped stable_sort world_rows)
    ++ ((λ row, (row.1, "TotalRecovered",
                 sum_present MRecovered (rows_of world_rows row.1)))
          <$> totals_grouped stable_sort world_rows).
Proof.
  apply (totals_grouped_top10 stable_sort stable_sort_perm stable_sort_sorted
           world_rows).
  intros []; by vm_compute.
Defined.

(** X18 on three rows, for the tests: the ship has none. *)
Lemma df_metric_one_row_per_country_witness :
  NoDup (omap Country world_rows) ∧
  ∀ c v, (c, v) ∈ df_metric stable_sort MTests world_rows →
    ∃ r, r ∈ world_rows ∧ Country r = Some c ∧ v = default 0 (cell MTests r).
Proof.
  assert (Hnd : NoDup (omap Country world_rows))
    by (refine (bool_decide_unpack _ _); vm_compute; exact I).
  split; [exact Hnd|].
  apply (df_metric_one_row_per_country stable_sort stable_sort_perm
           MTests world_rows Hnd).
Defined.

End WorldExamples.
